(** * prometheus-weather-exporter: a shallow embedding and its properties

    The repository holds three successive programs, each a single
    [package main]:

    - [src/main.go]: a background loop refreshes two fixed gauges
      ([weather_temperature], [weather_apparent_temperature]) every
      [flagSleepInterval]; module [MainGo] below.
    - [src/unnamed/part_000], second file (lines 212-393): the same loop
      over a configurable list of metrics; module [Timer].
    - [src/unnamed/part_000], first file (lines 1-211): a
      [prometheus.Collector] whose [Collect] fetches the weather on every
      scrape; module [Collector].

    What the three share ([Location], [getLocation], [LoadConfig],
    [getValueByFieldName]) is embedded once.  Everything outside the
    repository (the geocoder, the forecast service, the file system, the
    JSON decoder, the Prometheus registry, Go's map iteration order) is an
    interface, class [Env], over an abstract state of the outside world. *)

From Stdlib Require Import ZArith String Ascii List DecimalString DecimalPos SpecFloat.
From stdpp Require Import base gmap strings list.

Local Open Scope string_scope.
Local Open Scope Z_scope.

(** ** Go values *)

Module Go.

(** A [float64] is an IEEE 754 binary64 value, here in the Standard
    Library's specification format: signed zero, signed infinity, NaN, or
    [(-1)^s * m * 2^e].  The program never computes with floats; it stores
    them, compares nothing, and formats them with ["%f"]. *)
Definition float64 : Type := spec_float.

(** The zero value of [float64], which is also the literal [0] of
    [return 0, fmt.Errorf(...)]. *)
Definition zero64 : float64 := S754_zero false.

Definition is_finite (x : float64) : bool :=
  match x with
  | S754_zero _ | S754_finite _ _ _ => true
  | S754_infinity _ | S754_nan => false
  end.

(** An [error] value: [errors.New]-like leaves, and [fmt.Errorf] with a
    [%w] verb, which keeps the wrapped error for [errors.Unwrap]. *)
Inductive error : Type :=
| errorString (msg : string)
| wrapError (msg : string) (err : error).

(** [err.Error()] *)
Definition Error (e : error) : string :=
  match e with
  | errorString msg => msg
  | wrapError msg _ => msg
  end.

(** A Go result pair [(T, error)] of which exactly one side is meaningful:
    every function of the program returns [(v, nil)] or [(nil/0, err)]. *)
Inductive result (A : Type) : Type :=
| Ok (a : A)
| Err (e : error).
Arguments Ok {A} a.
Arguments Err {A} e.

(** *** [fmt.Sprintf("%f", x)]

    [%f] on a [float64] is [strconv.FormatFloat(x, 'f', 6, 64)]: the exact
    binary value, rounded half-to-even to six digits after the point; the
    sign is printed whenever the sign bit is set. *)

Definition round_half_even (num den : Z) : Z :=
  let q := num / den in
  let r := num mod den in
  if 2 * r <? den then q
  else if den <? 2 * r then q + 1
  else if Z.even q then q else q + 1.

(** [|x| * 10^6], rounded to an integer, for [|x| = m * 2^e]. *)
Definition micros (m : positive) (e : Z) : Z :=
  if 0 <=? e then Z.pos m * 2 ^ e * 10 ^ 6
  else round_half_even (Z.pos m * 10 ^ 6) (2 ^ (- e)).

Definition digit (n : Z) : ascii := ascii_of_nat (48 + Z.to_nat (n mod 10)).

Definition decimal (n : Z) : string :=
  NilEmpty.string_of_uint (N.to_uint (Z.to_N n)).

Definition six_digits (n : Z) : string :=
  String (digit (n / 100000))
    (String (digit (n / 10000))
       (String (digit (n / 1000))
          (String (digit (n / 100))
             (String (digit (n / 10))
                (String (digit n) EmptyString))))).

Definition fixed6 (neg : bool) (u : Z) : string :=
  (if neg then "-" else "") ++ decimal (u / 10 ^ 6) ++ "." ++ six_digits (u mod 10 ^ 6).

Definition Sprintf_f (x : float64) : string :=
  match x with
  | S754_nan => "NaN"
  | S754_infinity false => "+Inf"
  | S754_infinity true => "-Inf"
  | S754_zero s => fixed6 s 0
  | S754_finite s m e => fixed6 s (micros m e)
  end.

(** A decimal string with exactly six fractional digits: an optional
    minus sign, one or more digits, a point, six digits. *)
Definition is_digit (c : ascii) : bool :=
  ((48 <=? nat_of_ascii c) && (nat_of_ascii c <=? 57))%nat.

Fixpoint all_digits (s : string) : bool :=
  match s with
  | EmptyString => true
  | String c r => is_digit c && all_digits r
  end.

Fixpoint span_digits (s : string) : string * string :=
  match s with
  | EmptyString => (EmptyString, EmptyString)
  | String c r =>
      if is_digit c
      then let '(d, rest) := span_digits r in (String c d, rest)
      else (EmptyString, s)
  end.

Definition strip_minus (s : string) : string :=
  match s with String "-" r => r | _ => s end.

Definition six_fractional_digits (s : string) : bool :=
  let '(ip, rest) := span_digits (strip_minus s) in
  negb (String.eqb ip "")
  && match rest with
     | String "." fp => all_digits fp && (String.length fp =? 6)%nat
     | _ => false
     end.

(** *** [strings.Replace(s, "_", " ", -1)] *)
Fixpoint underscores_to_spaces (s : string) : string :=
  match s with
  | EmptyString => EmptyString
  | String c r => String (if Ascii.eqb c "_" then " "%char else c) (underscores_to_spaces r)
  end.

End Go.
Export Go.

(** The binary64 values nearest to 53.35, -6.26 and 12.3. *)
Definition f_53_35 : float64 := S754_finite false 7508345003756749 (-47).
Definition f_m6_26 : float64 := S754_finite true 7048133416834826 (-50).
Definition f_12_3 : float64 := S754_finite false 6924284427082138 (-49).

(** ** The libraries the program talks to: their data *)

(** [googlemaps.github.io/maps]: the part of a geocoding answer that
    [getLocation] reads. *)
Module maps.
Record AddressComponent := { LongName : string }.
Record LatLng := { Lat : float64; Lng : float64 }.
Record AddressGeometry := { Location : LatLng }.
Record GeocodingResult :=
  { AddressComponents : list AddressComponent; Geometry : AddressGeometry }.
Record GeocodingRequest := { Address : string }.
(** A client only remembers the key it was made with. *)
Record Client := { APIKey : string }.
End maps.

(** The forecast package ([mlbright/forecast/v2], later
    [insomniacslk/darksky/v2]): the fields of a forecast the program reads.
    They are plain [float64] struct fields: the program returns them where
    a [float64] is expected. *)
Module forecast.
Record DataPoint := {
  Temperature : float64;
  ApparentTemperature : float64;
  WindSpeed : float64;
  CloudCover : float64;
  Humidity : float64;
  PrecipIntensity : float64
}.
Record Flags := { Units : string }.
Record Forecast := {
  Latitude : float64;
  Longitude : float64;
  Currently : DataPoint;
  flags : Flags   (* the field [Flags] *)
}.
(** [forecast.SI] and [forecast.English], of string types [Units] and
    [Lang]. *)
Definition SI : string := "si".
Definition English : string := "en".

(** The current conditions as the service sends them: a JSON object in
    which any field may be missing.  Decoding into [DataPoint] leaves a
    field that is missing at its zero value. *)
Record Observation := {
  temperature : option float64;
  apparentTemperature : option float64;
  windSpeed : option float64;
  cloudCover : option float64;
  humidity : option float64;
  precipIntensity : option float64
}.
Definition decode (o : Observation) : DataPoint :=
  {| Temperature := default zero64 (temperature o);
     ApparentTemperature := default zero64 (apparentTemperature o);
     WindSpeed := default zero64 (windSpeed o);
     CloudCover := default zero64 (cloudCover o);
     Humidity := default zero64 (humidity o);
     PrecipIntensity := default zero64 (precipIntensity o) |}.
End forecast.

(** [github.com/prometheus/client_golang/prometheus]: descriptors, constant
    metrics, and gauge vectors with their children. *)
Module prometheus.
Record Desc := {
  fqName : string;
  help : string;
  variableLabels : list string;
  (** set by [NewDesc] when the name is not a valid metric name *)
  err : option error
}.
Inductive ValueType := CounterValue | GaugeValue | UntypedValue.
Record Metric := {
  desc : Desc;
  valType : ValueType;
  val : float64;
  labelValues : list string
}.
Record GaugeOpts := { Name : string; Help : string }.
(** A [GaugeVec]: its descriptor and one gauge per tuple of label
    values. *)
Record GaugeVec := {
  gaugeDesc : Desc;
  children : gmap (list string) float64
}.

(** The label pairs of a sample, as exposed. *)
Definition labelPairs (m : Metric) : list (string * string) :=
  zip (variableLabels (desc m)) (labelValues m).

Definition label (name : string) (m : Metric) : option string :=
  snd <$> List.find (fun p => String.eqb (fst p) name) (labelPairs m).

(** The classic metric name syntax, [[a-zA-Z_:][a-zA-Z0-9_:]*]. *)
Definition name_start (c : ascii) : bool :=
  let n := nat_of_ascii c in
  (((65 <=? n) && (n <=? 90)) || ((97 <=? n) && (n <=? 122))
   || (n =? 95) || (n =? 58))%nat.
Definition name_char (c : ascii) : bool := name_start c || is_digit c.
Fixpoint all_name_chars (s : string) : bool :=
  match s with
  | EmptyString => true
  | String c r => name_char c && all_name_chars r
  end.
Definition classic_name (s : string) : bool :=
  match s with
  | EmptyString => false
  | String c r => name_start c && all_name_chars r
  end.
End prometheus.

(** ** The program's own data, common to the three files *)

(** [Location] (lines 46-50 of each file). *)
Record Location := { Name : string; Lat : float64; Lng : float64 }.

(** [LatString] and [LngString]. *)
Definition LatString (l : Location) : string := Sprintf_f (Lat l).
Definition LngString (l : Location) : string := Sprintf_f (Lng l).

(** [WeatherCollector] (first file of part_000, lines 135-140); [ctx] is
    [context.Background()] and is never read. *)
Record WeatherCollector := {
  descs : gmap string prometheus.Desc;
  locations : list string;
  gmapsAPIKey : string;
  darkskyAPIKey : string
}.

(** The command-line flags, after [flag.Parse]. *)
Record Flags := {
  flagPath : string;
  flagListen : string;
  flagSleepInterval : Z;   (* a [time.Duration], in nanoseconds *)
  flagConfigFile : string
}.

Definition defaultFlags : Flags :=
  {| flagPath := "/metrics"; flagListen := ":9102";
     flagSleepInterval := 3600 * 10 ^ 9; flagConfigFile := "config.json" |}.

(** ** Effects *)

(** An argument of a [Printf]-style call, kept as a value: log lines are
    recorded by format and arguments, not rendered. *)
Inductive arg : Type :=
| AString (s : string)
| AStrings (l : list string)
| AInt (n : Z)
| AError (e : error)
| AForecast (fc : forecast.Forecast)
| ADuration (d : Z).

(** What the process does that can be seen from outside, in order. *)
Inductive event : Type :=
| Printed (format : string) (args : list arg)      (* fmt.Printf *)
| Logged (format : string) (args : list arg)       (* log.Printf, log.Fatalf *)
| FileRead (path : string)                         (* ioutil.ReadFile *)
| GeocodeRequest (apikey address : string)         (* client.Geocode *)
| ForecastRequest (apikey lat lng time units lang : string)  (* forecast.Get *)
| Sent (ch : nat) (m : prometheus.Metric)          (* ch <- m *)
| Spawned                                          (* go func() { ... }() *)
| Slept (d : Z)                                    (* time.Sleep *)
| Handled (path : string)                          (* http.Handle *)
| Listening (addr : string).                       (* http.ListenAndServe *)

(** A request to one of the two upstream services. *)
Definition upstream (e : event) : bool :=
  match e with
  | GeocodeRequest _ _ | ForecastRequest _ _ _ _ _ _ => true
  | _ => false
  end.

(** A registered collector: a gauge vector, by its address in the heap,
    or a weather collector. *)
Inductive collector : Type :=
| GaugeVecAt (a : nat)
| Weather (wc : WeatherCollector).

(** How a call ends: it returns, it panics (the process dies with a stack
    trace), or the process exits ([log.Fatalf]). *)
Inductive outcome (A : Type) : Type :=
| Returned (a : A)
| Panicked (msg : string)
| Exited (code : Z).
Arguments Returned {A} a.
Arguments Panicked {A} msg.
Arguments Exited {A} code.

(** The outside world: what the program reaches only through calls.  Each
    call may change the world, so two calls with the same arguments may
    answer differently. *)
Class Env (W : Type) : Type := {
  ioutil_ReadFile : string -> W -> result (list Byte.byte) * W;
  maps_NewClient : string -> result maps.Client;
  maps_Geocode : maps.Client -> maps.GeocodingRequest -> W ->
                 result (list maps.GeocodingResult) * W;
  forecast_Get : string -> string -> string -> string -> string -> string -> W ->
                 result forecast.Forecast * W;
  (** the registry's verdict on a collector that describes itself by
      these descriptors *)
  prometheus_Register : list prometheus.Desc -> W -> option error * W;
  (** the metric names [NewDesc] accepts: at least the classic ones *)
  IsValidMetricName : string -> bool;
  IsValidMetricName_classic :
    forall s, prometheus.classic_name s = true -> IsValidMetricName s = true;
  (** the order in which a [range] visits the keys of a map *)
  range_order : list string -> W -> list string * W;
  range_order_perm : forall ks w, fst (range_order ks w) ≡ₚ ks
}.

(** [json.Unmarshal(data, &v)] for a [v] of type [T]. *)
Class Unmarshal (T : Type) : Type :=
  json_Unmarshal : list Byte.byte -> result T.

Section Machine.
Context {W : Type}.

Record state : Type := {
  world : W;
  trace : list event;
  heap : list prometheus.GaugeVec;
  registry : list collector
}.

Definition set_world (w : W) (st : state) : state :=
  {| world := w; trace := trace st; heap := heap st; registry := registry st |}.
Definition add_event (e : event) (st : state) : state :=
  {| world := world st; trace := trace st ++ [e];
     heap := heap st; registry := registry st |}.
Definition set_heap (h : list prometheus.GaugeVec) (st : state) : state :=
  {| world := world st; trace := trace st; heap := h; registry := registry st |}.
Definition add_collector (c : collector) (st : state) : state :=
  {| world := world st; trace := trace st; heap := heap st;
     registry := registry st ++ [c] |}.

Definition M (A : Type) : Type := state -> outcome A * state.

Definition ret {A} (a : A) : M A := fun st => (Returned a, st).

Definition bind {A B} (m : M A) (k : A -> M B) : M B :=
  fun st =>
    match m st with
    | (Returned a, st') => k a st'
    | (Panicked msg, st') => (Panicked msg, st')
    | (Exited c, st') => (Exited c, st')
    end.

Definition emit (e : event) : M unit := fun st => (Returned tt, add_event e st).

(** A call into the outside world. *)
Definition call {A} (f : W -> A * W) : M A :=
  fun st => let '(a, w) := f (world st) in (Returned a, set_world w st).

Definition panic {A} (msg : string) : M A := fun st => (Panicked msg, st).
Definition os_Exit {A} (code : Z) : M A := fun st => (Exited code, st).

Definition fmt_Printf (format : string) (args : list arg) : M unit :=
  emit (Printed format args).
Definition log_Printf (format : string) (args : list arg) : M unit :=
  emit (Logged format args).
(** [log.Fatalf] is [log.Printf] followed by [os.Exit(1)]. *)
Definition log_Fatalf {A} (format : string) (args : list arg) : M A :=
  bind (log_Printf format args) (fun _ => os_Exit 1).

(** [for _, x := range l { body }] over a slice. *)
Fixpoint for_range {A} (l : list A) (body : A -> M unit) : M unit :=
  match l with
  | [] => ret tt
  | x :: r => bind (body x) (fun _ => for_range r body)
  end.
End Machine.
Arguments state W : clear implicits.
Arguments M W A : clear implicits.

Declare Scope go_scope.
Delimit Scope go_scope with go.
Notation "x <- m ;; k" := (bind m (fun x => k))
  (at level 100, m at next level, right associativity) : go_scope.
Notation "m ;;; k" := (bind m (fun _ => k))
  (at level 100, right associativity) : go_scope.

Local Open Scope go_scope.

(** ** What the three files share *)

Section Shared.
Context {W : Type} `{Env W}.

(** *** Calls out of the process, with the request they make recorded *)

Definition ReadFile (filepath : string) : M W (result (list Byte.byte)) :=
  emit (FileRead filepath) ;;; call (ioutil_ReadFile filepath).

Definition Geocode (client : maps.Client) (r : maps.GeocodingRequest)
  : M W (result (list maps.GeocodingResult)) :=
  emit (GeocodeRequest (maps.APIKey client) (maps.Address r)) ;;;
  call (maps_Geocode client r).

Definition Get (key lat long time units lang : string)
  : M W (result forecast.Forecast) :=
  emit (ForecastRequest key lat long time units lang) ;;;
  call (forecast_Get key lat long time units lang).

Definition time_Sleep (d : Z) : M W unit := emit (Slept d).
Definition http_Handle (pattern : string) : M W unit := emit (Handled pattern).
Definition http_ListenAndServe (addr : string) : M W unit := emit (Listening addr).

(** *** [LoadConfig] (lines 34-44 of each file) *)
Definition LoadConfig {Config : Type} `{Unmarshal Config} (filepath : string)
  : M W (result Config) :=
  data <- ReadFile filepath ;;
  match data with
  | Err err => ret (Err (wrapError ("failed to read config file: " ++ Error err) err))
  | Ok data =>
      match json_Unmarshal data with
      | Err err =>
          ret (Err (wrapError ("failed to unmarshal JSON config: " ++ Error err) err))
      | Ok config => ret (Ok config)
      end
  end.

(** *** [getLocation] (lines 62-83 of each file)

    [resp[0].AddressComponents[0]] panics when the first result has no
    address component. *)
Definition getLocation (apikey locName : string) : M W (result Location) :=
  match maps_NewClient apikey with
  | Err err => ret (Err err)
  | Ok client =>
      let r := {| maps.Address := locName |} in
      resp <- Geocode client r ;;
      match resp with
      | Err err => ret (Err err)
      | Ok [] => ret (Err (errorString ("no location found for '" ++ locName ++ "'")))
      | Ok (r0 :: _) =>
          match maps.AddressComponents r0 with
          | [] => panic "runtime error: index out of range [0] with length 0"
          | c0 :: _ =>
              ret (Ok {| Name := maps.LongName c0;
                         Lat := maps.Lat (maps.Location (maps.Geometry r0));
                         Lng := maps.Lng (maps.Location (maps.Geometry r0)) |})
          end
      end
  end.

(** *** [getWeather] of [src/main.go] and of the second file of part_000
    (lines 85-99 and 298-312) *)
Definition getWeather (mapsAPIKey darkskyAPIKey locName : string)
  : M W (result forecast.Forecast) :=
  loc <- getLocation mapsAPIKey locName ;;
  match loc with
  | Err err => ret (Err (wrapError ("GMaps search failed: " ++ Error err) err))
  | Ok loc =>
      fc <- Get darkskyAPIKey (LatString loc) (LngString loc) "now"
                forecast.SI forecast.English ;;
      match fc with
      | Err err => ret (Err (wrapError ("forecast request failed: " ++ Error err) err))
      | Ok fc =>
          if negb (String.eqb (forecast.Units (forecast.flags fc)) forecast.SI)
          then ret (Err (errorString
                           ("units are not SI: got " ++ forecast.Units (forecast.flags fc))))
          else ret (Ok fc)
      end
  end.

(** *** [getValueByFieldName] (part_000, lines 104-121 and 316-333)

    A [(float64, error)] pair, [None] being [nil]. *)
Definition getValueByFieldName (field : string) (dp : forecast.DataPoint)
  : float64 * option error :=
  if String.eqb field "temperature" then (forecast.Temperature dp, None)
  else if String.eqb field "apparent_temperature" then (forecast.ApparentTemperature dp, None)
  else if String.eqb field "wind_speed" then (forecast.WindSpeed dp, None)
  else if String.eqb field "cloud_cover" then (forecast.CloudCover dp, None)
  else if String.eqb field "humidity" then (forecast.Humidity dp, None)
  else if String.eqb field "precip_intensity" then (forecast.PrecipIntensity dp, None)
  else (zero64, Some (errorString ("unsupported field '" ++ field ++ "'"))).

(** *** The Prometheus client *)

Definition NewDesc (fqName help : string) (variableLabels : list string)
  : prometheus.Desc :=
  {| prometheus.fqName := fqName;
     prometheus.help := help;
     prometheus.variableLabels := variableLabels;
     prometheus.err :=
       if IsValidMetricName fqName then None
       else Some (errorString ("'" ++ fqName ++ "' is not a valid metric name")) |}.

(** [MustNewConstMetric] panics on an invalid descriptor and on a wrong
    number of label values. *)
Definition MustNewConstMetric (desc : prometheus.Desc) (valueType : prometheus.ValueType)
    (value : float64) (labelValues : list string) : M W prometheus.Metric :=
  match prometheus.err desc with
  | Some e => panic (Error e)
  | None =>
      if (length labelValues =? length (prometheus.variableLabels desc))%nat
      then ret {| prometheus.desc := desc; prometheus.valType := valueType;
                  prometheus.val := value; prometheus.labelValues := labelValues |}
      else panic "inconsistent label cardinality"
  end.

(** [ch <- m] on channel [ch]. *)
Definition send (ch : nat) (m : prometheus.Metric) : M W unit := emit (Sent ch m).

(** [prometheus.NewGaugeVec]: a new vector with no child, at a fresh
    address. *)
Definition NewGaugeVec (opts : prometheus.GaugeOpts) (labelNames : list string)
  : M W nat :=
  fun st =>
    (Returned (length (heap st)),
     set_heap (heap st ++
               [ {| prometheus.gaugeDesc :=
                      NewDesc (prometheus.Name opts) (prometheus.Help opts) labelNames;
                    prometheus.children := ∅ |} ]) st).

(** [gauge.WithLabelValues(lvs...)]: the child for these label values,
    made (at zero) on first use; panics on a wrong number of values. *)
Definition WithLabelValues (gauge : nat) (lvs : list string) : M W (nat * list string) :=
  fun st =>
    match heap st !! gauge with
    | None => (Panicked "invalid memory address or nil pointer dereference", st)
    | Some gv =>
        if (length lvs =? length (prometheus.variableLabels (prometheus.gaugeDesc gv)))%nat
        then
          match prometheus.children gv !! lvs with
          | Some _ => (Returned (gauge, lvs), st)
          | None =>
              (Returned (gauge, lvs),
               set_heap (<[gauge := {| prometheus.gaugeDesc := prometheus.gaugeDesc gv;
                                       prometheus.children :=
                                         <[lvs := zero64]> (prometheus.children gv) |}]>
                           (heap st)) st)
          end
        else (Panicked "inconsistent label cardinality", st)
    end.

(** [child.Set(v)] *)
Definition Set_ (child : nat * list string) (v : float64) : M W unit :=
  fun st =>
    match heap st !! fst child with
    | None => (Panicked "invalid memory address or nil pointer dereference", st)
    | Some gv =>
        (Returned tt,
         set_heap (<[fst child := {| prometheus.gaugeDesc := prometheus.gaugeDesc gv;
                                     prometheus.children :=
                                       <[snd child := v]> (prometheus.children gv) |}]>
                     (heap st)) st)
    end.

(** A gauge vector describes itself by its one descriptor, and collects
    one sample per child. *)
Definition GaugeVec_Describe (gauge : nat) : M W (list prometheus.Desc) :=
  fun st =>
    match heap st !! gauge with
    | None => (Panicked "invalid memory address or nil pointer dereference", st)
    | Some gv => (Returned [prometheus.gaugeDesc gv], st)
    end.

Definition GaugeVec_Collect (gauge : nat) (ch : nat) : M W unit :=
  fun st =>
    match heap st !! gauge with
    | None => (Panicked "invalid memory address or nil pointer dereference", st)
    | Some gv =>
        for_range (map_to_list (prometheus.children gv))
          (fun child =>
             send ch {| prometheus.desc := prometheus.gaugeDesc gv;
                        prometheus.valType := prometheus.GaugeValue;
                        prometheus.val := snd child;
                        prometheus.labelValues := fst child |}) st
    end.

(** [prometheus.Register(c)]: the collector describes itself, the
    registry accepts or refuses; an accepted collector is gathered from
    at every scrape. *)
Definition Register (describe : M W (list prometheus.Desc)) (c : collector)
  : M W (option error) :=
  ds <- describe ;;
  r <- call (prometheus_Register ds) ;;
  match r with
  | Some err => ret (Some err)
  | None => (fun st => (Returned None, add_collector c st))
  end.

(** [for key, v := range m { body }] over a map: the keys are visited
    once each, in an order the runtime picks. *)
Definition for_range_map {V} (m : gmap string V) (body : string -> V -> M W unit)
  : M W unit :=
  ks <- call (range_order (fst <$> map_to_list m)) ;;
  for_range ks (fun k => match m !! k with
                         | Some v => body k v
                         | None => ret tt
                         end).
End Shared.

(** The metrics sent on channel [ch] in a trace, in order. *)
Definition sent (ch : nat) (tr : list event) : list prometheus.Metric :=
  omap (fun e => match e with
                 | Sent c m => if (c =? ch)%nat then Some m else None
                 | _ => None
                 end) tr.

(** The requests to the upstream services in a trace. *)
Definition upstream_calls (tr : list event) : list event := List.filter upstream tr.

(** Whether the HTTP server was started. *)
Definition listening (e : event) : bool :=
  match e with Listening _ => true | _ => false end.
Definition server_started (tr : list event) : bool := existsb listening tr.

(** ** The collector: first file of [src/unnamed/part_000] (lines 1-211) *)

Module Collector.

(** [Config] (lines 26-31) *)
Record Config := {
  Locations : list string;
  Metrics : list string;
  GoogleMapsAPIKey : string;
  DarkskyAPIKey : string
}.

Section Program.
Context {W : Type} `{Env W} `{Unmarshal Config}.

(** [getWeather] (lines 85-100): as the shared one, and it logs the
    forecast. *)
Definition getWeather (mapsAPIKey darkskyAPIKey locName : string)
  : M W (result forecast.Forecast) :=
  loc <- getLocation mapsAPIKey locName ;;
  match loc with
  | Err err => ret (Err (wrapError ("GMaps search failed: " ++ Error err) err))
  | Ok loc =>
      fc <- Get darkskyAPIKey (LatString loc) (LngString loc) "now"
                forecast.SI forecast.English ;;
      match fc with
      | Err err => ret (Err (wrapError ("forecast request failed: " ++ Error err) err))
      | Ok fc =>
          log_Printf "Forecast: %+v" [AForecast fc] ;;;
          if negb (String.eqb (forecast.Units (forecast.flags fc)) forecast.SI)
          then ret (Err (errorString
                           ("units are not SI: got " ++ forecast.Units (forecast.flags fc))))
          else ret (Ok fc)
      end
  end.

(** [NewWeatherCollector] (lines 124-132) *)
Definition NewWeatherCollector (locations : list string)
    (descs : gmap string prometheus.Desc) (gmapsAPIKey darkskyAPIKey : string)
  : WeatherCollector :=
  {| descs := descs; locations := locations;
     gmapsAPIKey := gmapsAPIKey; darkskyAPIKey := darkskyAPIKey |}.

(** [getDescs] (lines 147-158) *)
Definition getDescs (metrics : list string) : gmap string prometheus.Desc :=
  foldl (fun descs key =>
           <[key := NewDesc ("weather_" ++ key)
                            ("Weather forecast - " ++ underscores_to_spaces key)
                            ["location"; "latitude"; "longitude"]]> descs)
        ∅ metrics.

(** The body of the loop over [wc.descs] in [Collect] (lines 171-181),
    for the forecast [fc] of location [loc]. *)
Definition collect_metric (ch : nat) (loc : string) (fc : forecast.Forecast)
    (key : string) (desc : prometheus.Desc) : M W unit :=
  match getValueByFieldName key (forecast.Currently fc) with
  | (_, Some err) =>
      (* continue *)
      log_Printf "Warning: skipping '%s': %v" [AString key; AError err]
  | (val, None) =>
      m <- MustNewConstMetric desc prometheus.GaugeValue val
             [loc; Sprintf_f (forecast.Latitude fc);
              Sprintf_f (forecast.Longitude fc)] ;;
      send ch m
  end.

(** The body of the loop over [wc.locations] in [Collect]
    (lines 164-183). *)
Definition collect_location (wc : WeatherCollector) (ch : nat) (loc : string)
  : M W unit :=
  fmt_Printf "Getting weather for %s\n" [AString loc] ;;;
  r <- getWeather (gmapsAPIKey wc) (darkskyAPIKey wc) loc ;;
  match r with
  | Err err => log_Printf "Failed to get weather for '%s': %v" [AString loc; AError err]
  | Ok fc =>
      (* update values *)
      for_range_map (descs wc) (collect_metric ch loc fc)
  end.

(** [Collect] (lines 161-185) *)
Definition Collect (wc : WeatherCollector) (ch : nat) : M W unit :=
  for_range (locations wc) (collect_location wc ch).

(** The channel [DescribeByCollect] collects on. *)
Definition describeChan : nat := 0%nat.

(** [Describe] (lines 143-145) is [prometheus.DescribeByCollect]: it
    runs [Collect] and hands on the descriptor of every metric
    collected. *)
Definition Describe (wc : WeatherCollector) : M W (list prometheus.Desc) :=
  fun st =>
    match Collect wc describeChan st with
    | (Returned _, st') =>
        (Returned (prometheus.desc <$>
                     sent describeChan (drop (length (trace st)) (trace st'))), st')
    | (Panicked msg, st') => (Panicked msg, st')
    | (Exited c, st') => (Exited c, st')
    end.

(** [main] (lines 187-211), up to the call of [http.ListenAndServe]:
    the model ends where the server starts to serve. *)
Definition main (flags : Flags) : M W unit :=
  config <- LoadConfig (flagConfigFile flags) ;;
  match config with
  | Err err =>
      log_Fatalf "Failed to load configuration file '%s': %v"
        [AString (flagConfigFile flags); AError err]
  | Ok config =>
      fmt_Printf "Locations (%d): %s\n"
        [AInt (Z.of_nat (length (Locations config))); AStrings (Locations config)] ;;;
      fmt_Printf "Metrics (%d): %s"
        [AInt (Z.of_nat (length (Metrics config))); AStrings (Metrics config)] ;;;
      (if (length (Locations config) =? 0)%nat
       then log_Fatalf "Must specify at least one location" []
       else ret tt) ;;;
      (if (length (Metrics config) =? 0)%nat
       then log_Fatalf "Must specify at least one metric" []
       else ret tt) ;;;
      let wc := NewWeatherCollector (Locations config) (getDescs (Metrics config))
                  (GoogleMapsAPIKey config) (DarkskyAPIKey config) in
      err <- Register (Describe wc) (Weather wc) ;;
      (match err with
       | Some err => log_Fatalf "Failed to register weather collector: %v" [AError err]
       | None => ret tt
       end) ;;;
      http_Handle (flagPath flags) ;;;
      log_Printf "Starting server on %s" [AString (flagListen flags)] ;;;
      http_ListenAndServe (flagListen flags)
  end.
End Program.
End Collector.

(** ** A scrape

    [promhttp.Handler()] serves a read request by gathering from the
    default registry: every registered collector collects onto the
    request's channel. *)
Section Scrape.
Context {W : Type} `{Env W}.

Definition Gather (ch : nat) : M W unit :=
  fun st =>
    for_range (registry st)
      (fun c => match c with
                | GaugeVecAt gauge => GaugeVec_Collect gauge ch
                | Weather wc => Collector.Collect wc ch
                end) st.
End Scrape.

(** ** The timer with configurable metrics: second file of
    [src/unnamed/part_000] (lines 212-393) *)

Module Timer.

(** [Config] (lines 239-244) *)
Record Config := {
  Locations : list string;
  Metrics : list string;
  GoogleMapsAPIKey : string;
  DarkskyAPIKey : string
}.

Section Program.
Context {W : Type} `{Env W} `{Unmarshal Config}.

(** The loop that makes and registers one gauge vector per configured
    metric (lines 351-363); [gauges] maps a key to the address of its
    vector. *)
Fixpoint new_gauges (metrics : list string) (gauges : gmap string nat)
  : M W (gmap string nat) :=
  match metrics with
  | [] => ret gauges
  | key :: metrics =>
      gauge <- NewGaugeVec
                 {| prometheus.Name := "weather_" ++ key;
                    prometheus.Help := "Weather forecast - " ++ underscores_to_spaces key |}
                 ["location"; "latitude"; "longitude"] ;;
      let gauges := <[key := gauge]> gauges in
      err <- Register (GaugeVec_Describe gauge) (GaugeVecAt gauge) ;;
      match err with
      | Some err =>
          log_Fatalf "Failed to register weather %s gauge: %v" [AString key; AError err]
      | None => new_gauges metrics gauges
      end
  end.

(** The body of the loop over [gauges] (lines 376-381), for the
    forecast [fc] of location [loc]. *)
Definition update_metric (loc : string) (fc : forecast.Forecast)
    (key : string) (gauge : nat) : M W unit :=
  match getValueByFieldName key (forecast.Currently fc) with
  | (_, Some err) =>
      (* continue *)
      log_Printf "Warning: skipping '%s': %v" [AString key; AError err]
  | (val, None) =>
      child <- WithLabelValues gauge
                 [loc; Sprintf_f (forecast.Latitude fc);
                  Sprintf_f (forecast.Longitude fc)] ;;
      Set_ child val
  end.

(** The body of the loop over [config.Locations] (lines 369-383). *)
Definition update_location (config : Config) (gauges : gmap string nat) (loc : string)
  : M W unit :=
  fmt_Printf "Getting weather for %s\n" [AString loc] ;;;
  r <- getWeather (GoogleMapsAPIKey config) (DarkskyAPIKey config) loc ;;
  match r with
  | Err err => log_Printf "Failed to get weather for '%s': %v" [AString loc; AError err]
  | Ok fc =>
      (* update values *)
      for_range_map gauges (update_metric loc fc)
  end.

(** One turn of the goroutine's [for] loop (lines 367-386). *)
Definition cycle (flags : Flags) (config : Config) (gauges : gmap string nat)
  : M W unit :=
  log_Printf "Fetching weather..." [] ;;;
  for_range (Locations config) (update_location config gauges) ;;;
  log_Printf "Sleeping %s..." [ADuration (flagSleepInterval flags)] ;;;
  time_Sleep (flagSleepInterval flags).

(** The first [n] turns of the goroutine, which never returns. *)
Fixpoint cycles (n : nat) (flags : Flags) (config : Config) (gauges : gmap string nat)
  : M W unit :=
  match n with
  | O => ret tt
  | S n => cycle flags config gauges ;;; cycles n flags config gauges
  end.

(** [main] (lines 335-393), up to the call of [http.ListenAndServe]; the
    goroutine it starts is [cycles]. *)
Definition main (flags : Flags) : M W unit :=
  config <- LoadConfig (flagConfigFile flags) ;;
  match config with
  | Err err =>
      log_Fatalf "Failed to load configuration file '%s': %v"
        [AString (flagConfigFile flags); AError err]
  | Ok config =>
      fmt_Printf "Locations (%d): %s\n"
        [AInt (Z.of_nat (length (Locations config))); AStrings (Locations config)] ;;;
      fmt_Printf "Metrics (%d): %s"
        [AInt (Z.of_nat (length (Metrics config))); AStrings (Metrics config)] ;;;
      (if (length (Locations config) =? 0)%nat
       then log_Fatalf "Must specify at least one location" []
       else ret tt) ;;;
      (if (length (Metrics config) =? 0)%nat
       then log_Fatalf "Must specify at least one metric" []
       else ret tt) ;;;
      gauges <- new_gauges (Metrics config) ∅ ;;
      emit Spawned ;;;
      http_Handle (flagPath flags) ;;;
      log_Printf "Starting server on %s" [AString (flagListen flags)] ;;;
      http_ListenAndServe (flagListen flags)
  end.
End Program.
End Timer.

(** ** The timer with two fixed gauges: [src/main.go] *)

Module MainGo.

(** [Config] (lines 27-31) *)
Record Config := {
  Locations : list string;
  GoogleMapsAPIKey : string;
  DarkskyAPIKey : string
}.

Section Program.
Context {W : Type} `{Env W} `{Unmarshal Config}.

(** The body of the loop over [config.Locations] (lines 134-142). *)
Definition update_location (config : Config)
    (weatherTemperatureGauge weatherApparentTemperatureGauge : nat) (loc : string)
  : M W unit :=
  fmt_Printf "Getting weather for %s\n" [AString loc] ;;;
  r <- getWeather (GoogleMapsAPIKey config) (DarkskyAPIKey config) loc ;;
  match r with
  | Err err => log_Printf "Failed to get weather for '%s': %v" [AString loc; AError err]
  | Ok fc =>
      (* update values *)
      child <- WithLabelValues weatherTemperatureGauge
                 [loc; Sprintf_f (forecast.Latitude fc);
                  Sprintf_f (forecast.Longitude fc)] ;;
      Set_ child (forecast.Temperature (forecast.Currently fc)) ;;;
      child <- WithLabelValues weatherApparentTemperatureGauge
                 [loc; Sprintf_f (forecast.Latitude fc);
                  Sprintf_f (forecast.Longitude fc)] ;;
      Set_ child (forecast.ApparentTemperature (forecast.Currently fc))
  end.

(** One turn of the goroutine's [for] loop (lines 131-146). *)
Definition cycle (flags : Flags) (config : Config)
    (weatherTemperatureGauge weatherApparentTemperatureGauge : nat) : M W unit :=
  log_Printf "Fetching weather..." [] ;;;
  for_range (Locations config)
    (update_location config weatherTemperatureGauge weatherApparentTemperatureGauge) ;;;
  log_Printf "Sleeping %s..." [ADuration (flagSleepInterval flags)] ;;;
  time_Sleep (flagSleepInterval flags).

Fixpoint cycles (n : nat) (flags : Flags) (config : Config)
    (weatherTemperatureGauge weatherApparentTemperatureGauge : nat) : M W unit :=
  match n with
  | O => ret tt
  | S n =>
      cycle flags config weatherTemperatureGauge weatherApparentTemperatureGauge ;;;
      cycles n flags config weatherTemperatureGauge weatherApparentTemperatureGauge
  end.

(** [main] (lines 101-152), up to the call of [http.ListenAndServe]. *)
Definition main (flags : Flags) : M W unit :=
  config <- LoadConfig (flagConfigFile flags) ;;
  match config with
  | Err err =>
      log_Fatalf "Failed to load configuration file '%s': %v"
        [AString (flagConfigFile flags); AError err]
  | Ok config =>
      fmt_Printf "Locations: %s\n" [AStrings (Locations config)] ;;;
      weatherTemperatureGauge <-
        NewGaugeVec {| prometheus.Name := "weather_temperature";
                       prometheus.Help := "Weather forecast - temperature" |}
                    ["location"; "latitude"; "longitude"] ;;
      weatherApparentTemperatureGauge <-
        NewGaugeVec {| prometheus.Name := "weather_apparent_temperature";
                       prometheus.Help := "Weather forecast - apparent temperature" |}
                    ["location"; "latitude"; "longitude"] ;;
      err <- Register (GaugeVec_Describe weatherTemperatureGauge)
                      (GaugeVecAt weatherTemperatureGauge) ;;
      (match err with
       | Some err =>
           log_Fatalf "Failed to register weather temperature gauge gauge: %v" [AError err]
       | None => ret tt
       end) ;;;
      err <- Register (GaugeVec_Describe weatherApparentTemperatureGauge)
                      (GaugeVecAt weatherApparentTemperatureGauge) ;;
      (match err with
       | Some err =>
           log_Fatalf "Failed to register weather temperature gauge gauge: %v" [AError err]
       | None => ret tt
       end) ;;;
      emit Spawned ;;;
      http_Handle (flagPath flags) ;;;
      log_Printf "Starting server on %s" [AString (flagListen flags)] ;;;
      http_ListenAndServe (flagListen flags)
  end.
End Program.
End MainGo.

(** ** A scripted outside world

    The world is a clock that counts the forecast requests made so far; a
    [Script] says what each service answers at each tick. *)

Record Script := {
  files : string -> result (list Byte.byte);
  geocoder : nat -> string -> result (list maps.GeocodingResult);
  forecaster : nat -> string -> string -> result forecast.Forecast;
  registrar : list prometheus.Desc -> option error
}.

#[local] Instance scripted (s : Script) : Env nat := {|
  ioutil_ReadFile path w := (files s path, w);
  maps_NewClient key := Ok {| maps.APIKey := key |};
  maps_Geocode client r w := (geocoder s w (maps.Address r), w);
  forecast_Get key lat lng time units lang w := (forecaster s w lat lng, S w);
  prometheus_Register ds w := (registrar s ds, w);
  IsValidMetricName := prometheus.classic_name;
  IsValidMetricName_classic := fun s H => H;
  range_order ks w := (ks, w);
  range_order_perm := fun ks w => reflexivity ks
|}.

Definition start (w : nat) : state nat :=
  {| world := w; trace := []; heap := []; registry := [] |}.

(** The geocoder knows one place, which it calls "Dublin" however the
    request spells it. *)
Definition dublin : maps.GeocodingResult :=
  {| maps.AddressComponents := [ {| maps.LongName := "Dublin" |} ];
     maps.Geometry := {| maps.Location := {| maps.Lat := f_53_35; maps.Lng := f_m6_26 |} |} |}.

Definition knows_dublin (w : nat) (address : string) : result (list maps.GeocodingResult) :=
  if String.eqb address "Dublin" || String.eqb address "dublin" then Ok [dublin]
  else Ok [].

(** What the forecast service sends for the current conditions when it
    knows the temperature alone. *)
Definition only_temperature (temp : float64) : forecast.Observation :=
  {| forecast.temperature := Some temp;
     forecast.apparentTemperature := None;
     forecast.windSpeed := None;
     forecast.cloudCover := None;
     forecast.humidity := None;
     forecast.precipIntensity := None |}.

Definition reading (lat lng temp : float64) (units : string) : forecast.Forecast :=
  {| forecast.Latitude := lat; forecast.Longitude := lng;
     forecast.Currently := forecast.decode (only_temperature temp);
     forecast.flags := {| forecast.Units := units |} |}.

(** Scenario A of the specification: 12.3 degrees in Dublin, in SI
    units. *)
Definition scenarioA : Script :=
  {| files := fun _ => Ok [];
     geocoder := knows_dublin;
     forecaster := fun _ _ _ => Ok (reading f_53_35 f_m6_26 f_12_3 "si");
     registrar := fun _ => None |}.

(** Scenario B: the forecast comes in US units. *)
Definition scenarioB : Script :=
  {| files := fun _ => Ok [];
     geocoder := knows_dublin;
     forecaster := fun _ _ _ => Ok (reading f_53_35 f_m6_26 f_12_3 "us");
     registrar := fun _ => None |}.

Definition demoCollector {W} `{Env W} (locations metrics : list string) : WeatherCollector :=
  Collector.NewWeatherCollector locations (Collector.getDescs metrics) "gmaps-key" "darksky-key".

(** ** Vocabulary of the properties *)

(** From here on [++] joins lists, and [+:+] joins strings. *)
Local Open Scope list_scope.

(** The case labels of the switch in [getValueByFieldName]. *)
Definition supported_fields : list string :=
  ["temperature"; "apparent_temperature"; "wind_speed"; "cloud_cover";
   "humidity"; "precip_intensity"].

(** The field of an observation that a supported name reads. *)
Definition observed (field : string) (o : forecast.Observation) : option float64 :=
  if String.eqb field "temperature" then forecast.temperature o
  else if String.eqb field "apparent_temperature" then forecast.apparentTemperature o
  else if String.eqb field "wind_speed" then forecast.windSpeed o
  else if String.eqb field "cloud_cover" then forecast.cloudCover o
  else if String.eqb field "humidity" then forecast.humidity o
  else if String.eqb field "precip_intensity" then forecast.precipIntensity o
  else None.

(** The same observation with one field set. *)
Definition with_field (field : string) (v : float64) (o : forecast.Observation)
  : forecast.Observation :=
  {| forecast.temperature :=
       if String.eqb field "temperature" then Some v else forecast.temperature o;
     forecast.apparentTemperature :=
       if String.eqb field "apparent_temperature" then Some v
       else forecast.apparentTemperature o;
     forecast.windSpeed :=
       if String.eqb field "wind_speed" then Some v else forecast.windSpeed o;
     forecast.cloudCover :=
       if String.eqb field "cloud_cover" then Some v else forecast.cloudCover o;
     forecast.humidity :=
       if String.eqb field "humidity" then Some v else forecast.humidity o;
     forecast.precipIntensity :=
       if String.eqb field "precip_intensity" then Some v
       else forecast.precipIntensity o |}.

Section Vocabulary.
Context {W : Type}.

Definition add_events (evs : list event) (st : state W) : state W :=
  {| world := world st; trace := trace st ++ evs;
     heap := heap st; registry := registry st |}.

(** The events a run from [st] to [st'] added. *)
Definition added (st st' : state W) : list event :=
  drop (length (trace st)) (trace st').

(** The value stored for a tuple of label values in the gauge vector at
    an address: what a scrape exposes for it. *)
Definition entry_in (h : list prometheus.GaugeVec) (gauge : nat) (lvs : list string)
  : option float64 :=
  gv ← h !! gauge; prometheus.children gv !! lvs.

Definition entry (st : state W) (gauge : nat) (lvs : list string) : option float64 :=
  entry_in (heap st) gauge lvs.

(** The heap after the child for [lvs] of the vector at [gauge] was set
    to [v]. *)
Definition write (gauge : nat) (lvs : list string) (v : float64)
    (h : list prometheus.GaugeVec) : list prometheus.GaugeVec :=
  match h !! gauge with
  | Some gv =>
      <[gauge := {| prometheus.gaugeDesc := prometheus.gaugeDesc gv;
                    prometheus.children := <[lvs := v]> (prometheus.children gv) |}]> h
  | None => h
  end.

(** Every run of [m] relates the state before to the state after. *)
Definition preserves {A} (R : relation (state W)) (m : M W A) : Prop :=
  forall st o st', m st = (o, st') -> R st st'.

(** The store is as it was. *)
Definition same_store : relation (state W) :=
  fun st st' => heap st' = heap st /\ registry st' = registry st.

(** Only events that satisfy [ok] were added. *)
Definition adds (ok : event -> bool) : relation (state W) :=
  fun st st' => exists evs, trace st' = trace st ++ evs /\ forallb ok evs = true.

(** The entries of every location but [loc] are as they were, and the
    vectors are the same vectors. *)
Definition others_kept (loc : string) : relation (state W) :=
  fun st st' =>
    length (heap st') = length (heap st)
    /\ (forall a, prometheus.gaugeDesc <$> heap st' !! a = prometheus.gaugeDesc <$> heap st !! a)
    /\ forall a lvs, head lvs <> Some loc -> entry st' a lvs = entry st a lvs.
End Vocabulary.

Definition not_listening (e : event) : bool := negb (listening e).
Definition not_upstream (e : event) : bool := negb (upstream e).
Definition not_sent_on (ch : nat) (e : event) : bool :=
  match e with Sent c _ => negb (c =? ch)%nat | _ => true end.

(** Events that neither touch the store, nor send a sample, nor start the
    server: printing, logging, sleeping, and the requests to the file
    system and to the upstream services. *)
Definition chatter (e : event) : bool :=
  match e with
  | Printed _ _ | Logged _ _ | FileRead _ | GeocodeRequest _ _
  | ForecastRequest _ _ _ _ _ _ | Slept _ => true
  | Sent _ _ | Spawned | Handled _ | Listening _ => false
  end.

(** A relation between states that chatter and changes of the outside world
    keep. *)
Class Quiet {W : Type} (R : relation (state W)) : Prop := {
  quiet_order :: PreOrder R;
  quiet_event : forall e st, chatter e = true -> R st (add_event e st);
  quiet_world : forall st w, R st (set_world w st)
}.

Section Samples.
Context {W : Type} `{Env W}.

(** The descriptor [getDescs] makes for a key, which is also the one of
    the gauge vector the timer makes for it. *)
Definition weatherDesc (key : string) : prometheus.Desc :=
  NewDesc ("weather_" +:+ key)
          ("Weather forecast - " +:+ underscores_to_spaces key)
          ["location"; "latitude"; "longitude"].

(** The label values the programs attach to what they publish for a
    location from a forecast. *)
Definition labelsOf (loc : string) (fc : forecast.Forecast) : list string :=
  [loc; Sprintf_f (forecast.Latitude fc); Sprintf_f (forecast.Longitude fc)].

(** The sample the collector sends for a descriptor and a value. *)
Definition sample (d : prometheus.Desc) (loc : string) (fc : forecast.Forecast)
    (v : float64) : prometheus.Metric :=
  {| prometheus.desc := d; prometheus.valType := prometheus.GaugeValue;
     prometheus.val := v; prometheus.labelValues := labelsOf loc fc |}.

(** The descriptors of the supported keys are sound: made for a valid
    name and three labels, so that no send panics. *)
Definition sound_descs (descs : gmap string prometheus.Desc) : Prop :=
  forall k d, descs !! k = Some d -> k ∈ supported_fields ->
              prometheus.err d = None /\ length (prometheus.variableLabels d) = 3%nat.

(** What one turn of the loop over [wc.descs] adds to the trace. *)
Definition metric_events (descs : gmap string prometheus.Desc) (ch : nat)
    (loc : string) (fc : forecast.Forecast) (key : string) : list event :=
  match descs !! key with
  | None => []
  | Some d =>
      match getValueByFieldName key (forecast.Currently fc) with
      | (_, Some err) => [Logged "Warning: skipping '%s': %v" [AString key; AError err]]
      | (v, None) => [Sent ch (sample d loc fc v)]
      end
  end.
End Samples.

Section TimerVocabulary.
Context {W : Type} `{Env W}.

(** Every key of [gauges] is the address of a vector made for that key. *)
Definition gauges_ok (h : list prometheus.GaugeVec) (gauges : gmap string nat) : Prop :=
  forall k a, gauges !! k = Some a ->
              prometheus.gaugeDesc <$> h !! a = Some (weatherDesc k).

(** What one turn of the loop over [gauges] does to the heap, and what
    it adds to the trace. *)
Definition update_heap (gauges : gmap string nat) (loc : string) (fc : forecast.Forecast)
    (h : list prometheus.GaugeVec) (key : string) : list prometheus.GaugeVec :=
  match gauges !! key with
  | None => h
  | Some a =>
      match getValueByFieldName key (forecast.Currently fc) with
      | (_, Some _) => h
      | (v, None) => write a (labelsOf loc fc) v h
      end
  end.

Definition update_events (gauges : gmap string nat) (fc : forecast.Forecast)
    (key : string) : list event :=
  match gauges !! key with
  | None => []
  | Some a =>
      match getValueByFieldName key (forecast.Currently fc) with
      | (_, Some err) => [Logged "Warning: skipping '%s': %v" [AString key; AError err]]
      | (_, None) => []
      end
  end.

(** The entries of location [loc] are as they were. *)
Definition kept (loc : string) : relation (state W) :=
  fun st st' => forall a lvs, head lvs = Some loc -> entry st' a lvs = entry st a lvs.
End TimerVocabulary.

(** The two gauges of [src/main.go], as a map from the field they hold to
    their address. *)
Definition two_gauges (weatherTemperatureGauge weatherApparentTemperatureGauge : nat)
  : gmap string nat :=
  <["temperature" := weatherTemperatureGauge]>
    (<["apparent_temperature" := weatherApparentTemperatureGauge]> ∅).

(** ** More scripted worlds *)

(** The binary64 values nearest to 53.36 and 15. *)
Definition f_53_36 : float64 := S754_finite false 7509752378640302 (-47).
Definition f_15 : float64 := S754_finite false 8444249301319680 (-49).

(** The forecast service answers for a point a little north of the one it
    was asked about. *)
Definition echoes_elsewhere : Script :=
  {| files := fun _ => Ok [];
     geocoder := knows_dublin;
     forecaster := fun _ _ _ => Ok (reading f_53_36 f_m6_26 f_12_3 "si");
     registrar := fun _ => None |}.

(** The first forecast is 12.3 degrees at (53.35, -6.26); every later one
    is 15 degrees at (53.36, -6.26). *)
Definition moving : Script :=
  {| files := fun _ => Ok [];
     geocoder := knows_dublin;
     forecaster := fun w _ _ =>
       if (w =? 0)%nat then Ok (reading f_53_35 f_m6_26 f_12_3 "si")
       else Ok (reading f_53_36 f_m6_26 f_15 "si");
     registrar := fun _ => None |}.

(** The first forecast is 12.3 degrees, every later one 15 degrees, at the
    same point. *)
Definition warming : Script :=
  {| files := fun _ => Ok [];
     geocoder := knows_dublin;
     forecaster := fun w _ _ =>
       if (w =? 0)%nat then Ok (reading f_53_35 f_m6_26 f_12_3 "si")
       else Ok (reading f_53_35 f_m6_26 f_15 "si");
     registrar := fun _ => None |}.

(** The sample of scenario A, as the collector built from [getDescs]
    sends it for a location spelled [loc]. *)
Definition sampleA (loc : string) (lat : string) : prometheus.Metric :=
  {| prometheus.desc :=
       {| prometheus.fqName := "weather_temperature";
          prometheus.help := "Weather forecast - temperature";
          prometheus.variableLabels := ["location"; "latitude"; "longitude"];
          prometheus.err := None |};
     prometheus.valType := prometheus.GaugeValue;
     prometheus.val := f_12_3;
     prometheus.labelValues := [loc; lat; "-6.260000"] |}.

(** Wherever the cycle comes to location [loc], [getWeather] fails: [body]
    is the cycle's work for one location, [getW] the [getWeather] call it
    makes after printing its first line. *)
Fixpoint fetch_fails {W : Type} (getW : string -> M W (result forecast.Forecast))
    (body : string -> M W unit) (loc : string) (locs : list string) (st : state W) : Prop :=
  match locs with
  | [] => True
  | l :: locs =>
      (l = loc ->
       exists err st1,
         getW l (add_event (Printed "Getting weather for %s\n" [AString l]) st)
         = (Returned (Err err), st1))
      /\ fetch_fails getW body loc locs (snd (body l st))
  end.

(** The timer on a scripted world: the gauges are made and registered,
    then the goroutine runs [n] turns. *)
Definition timerConfig (locations metrics : list string) : Timer.Config :=
  {| Timer.Locations := locations; Timer.Metrics := metrics;
     Timer.GoogleMapsAPIKey := "gmaps-key"; Timer.DarkskyAPIKey := "darksky-key" |}.

Definition timer_gauges (s : Script) (config : Timer.Config)
  : gmap string nat * state nat :=
  match Timer.new_gauges (H := scripted s) (Timer.Metrics config) ∅ (start 0) with
  | (Returned gauges, st) => (gauges, st)
  | (_, st) => (∅, st)
  end.

Definition timer_after (s : Script) (config : Timer.Config) (n : nat) : state nat :=
  let '(gauges, st) := timer_gauges s config in
  snd (Timer.cycles (H := scripted s) n defaultFlags config gauges st).

(** What a scrape on channel 1 exposes in a state. *)
Definition scrape (s : Script) (st : state nat) : list prometheus.Metric :=
  sent 1 (added st (snd (Gather (H := scripted s) 1 st))).

(** The process ended by [log.Fatalf], and the run from [st] never
    reached [http.ListenAndServe]. *)
Definition fatal_before_serving {W : Type} (st : state W) (r : outcome unit * state W)
  : Prop :=
  fst r = Exited 1 /\ server_started (added st (snd r)) = false.

(** The three labels of every gauge vector. *)
Definition gaugeLabels : list string := ["location"; "latitude"; "longitude"].

(** Worlds in which startup goes wrong. *)
Definition unreadable : Script :=
  {| files := fun _ => Err (errorString "open config.json: no such file or directory");
     geocoder := knows_dublin;
     forecaster := fun _ _ _ => Ok (reading f_53_35 f_m6_26 f_12_3 "si");
     registrar := fun _ => None |}.

Definition refusing : Script :=
  {| files := fun _ => Ok [];
     geocoder := knows_dublin;
     forecaster := fun _ _ _ => Ok (reading f_53_35 f_m6_26 f_12_3 "si");
     registrar := fun _ =>
       Some (errorString "duplicate metrics collector registration attempted") |}.

(** A decoder that finds the configuration [c] in any file, and one that
    finds none. *)
Definition parsed {Config : Type} (c : Config) : Unmarshal Config := fun _ => Ok c.
Definition unparsable {Config : Type} : Unmarshal Config :=
  fun _ => Err (errorString "unexpected end of JSON input").

Definition collectorConfig (locations metrics : list string) : Collector.Config :=
  {| Collector.Locations := locations; Collector.Metrics := metrics;
     Collector.GoogleMapsAPIKey := "gmaps-key"; Collector.DarkskyAPIKey := "darksky-key" |}.

Definition maingoConfig (locations : list string) : MainGo.Config :=
  {| MainGo.Locations := locations;
     MainGo.GoogleMapsAPIKey := "gmaps-key"; MainGo.DarkskyAPIKey := "darksky-key" |}.

(** Every registered collector is a gauge vector. *)
Definition only_gauges (r : list collector) : bool :=
  forallb (fun c => match c with GaugeVecAt _ => true | Weather _ => false end) r.

(** The first forecast is in SI units, every later one in US units. *)
Definition then_us : Script :=
  {| files := fun _ => Ok [];
     geocoder := knows_dublin;
     forecaster := fun w _ _ =>
       if (w =? 0)%nat then Ok (reading f_53_35 f_m6_26 f_12_3 "si")
       else Ok (reading f_53_35 f_m6_26 f_15 "us");
     registrar := fun _ => None |}.

(** The state in which the timer of a script works on its first location
    in cycle [n+1]: [n] cycles are done and the cycle's first line is
    logged. *)
Definition timer_in_cycle (s : Script) (config : Timer.Config) (n : nat) : state nat :=
  add_event (Logged "Fetching weather..." []) (timer_after s config n).

(** Every forecast the service returns has finite coordinates, as numbers
    decoded from JSON are. *)
Definition finite_forecasts {W : Type} `{Env W} : Prop :=
  forall key lat lng time units lang w fc w',
    forecast_Get key lat lng time units lang w = (Ok fc, w') ->
    is_finite (forecast.Latitude fc) = true /\ is_finite (forecast.Longitude fc) = true.

(** ** Vocabulary of the properties of the whole programs *)

(** [errors.Unwrap]: the error that [fmt.Errorf] wrapped with [%w]. *)
Definition Unwrap (e : error) : option error :=
  match e with
  | errorString _ => None
  | wrapError _ err => Some err
  end.

(** The addresses the geocoder was asked about in a trace, in order, and
    the keys it was asked with. *)
Definition geocoded (tr : list event) : list string :=
  omap (fun e => match e with GeocodeRequest _ address => Some address | _ => None end) tr.

Definition geocoder_keys (tr : list event) : list string :=
  omap (fun e => match e with GeocodeRequest key _ => Some key | _ => None end) tr.

(** The requests to the forecast service in a trace. *)
Definition is_forecast_request (e : event) : bool :=
  match e with ForecastRequest _ _ _ _ _ _ => true | _ => false end.

Definition forecast_requests (tr : list event) : list event :=
  List.filter is_forecast_request tr.

(** The sleeps of a trace. *)
Definition slept (tr : list event) : list Z :=
  omap (fun e => match e with Slept d => Some d | _ => None end) tr.

(** The forecast request [getWeather] makes for a location. *)
Definition forecast_request_for (darkskyAPIKey : string) (l : Location) : event :=
  ForecastRequest darkskyAPIKey (LatString l) (LngString l) "now" forecast.SI forecast.English.

(** The location [getLocation] reads off a geocoding result and its first
    address component. *)
Definition location_of (r0 : maps.GeocodingResult) (c0 : maps.AddressComponent) : Location :=
  {| Name := maps.LongName c0;
     Lat := maps.Lat (maps.Location (maps.Geometry r0));
     Lng := maps.Lng (maps.Location (maps.Geometry r0)) |}.

Section ProgramVocabulary.
Context {W : Type} `{Env W}.

(** A gauge vector as [NewGaugeVec] makes it for a key: no child yet. *)
Definition emptyVec (key : string) : prometheus.GaugeVec :=
  {| prometheus.gaugeDesc := weatherDesc key; prometheus.children := ∅ |}.

(** The store only grows: the registry and the vectors are the same, and
    every entry that was there is still there, with whatever value. *)
Definition grows : relation (state W) :=
  fun st st' =>
    registry st' = registry st
    /\ length (heap st') = length (heap st)
    /\ (forall a, prometheus.gaugeDesc <$> heap st' !! a
                  = prometheus.gaugeDesc <$> heap st !! a)
    /\ forall a lvs, is_Some (entry st a lvs) -> is_Some (entry st' a lvs).
End ProgramVocabulary.

(** A geocoder whose one result has no address component. *)
Definition nameless : maps.GeocodingResult :=
  {| maps.AddressComponents := [];
     maps.Geometry := {| maps.Location := {| maps.Lat := f_53_35; maps.Lng := f_m6_26 |} |} |}.

Definition knows_nameless : Script :=
  {| files := fun _ => Ok [];
     geocoder := fun _ _ => Ok [nameless];
     forecaster := fun _ _ _ => Ok (reading f_53_35 f_m6_26 f_12_3 "si");
     registrar := fun _ => None |}.

(** The geocoder is down, the forecast service is not asked. *)
Definition geocoder_down : Script :=
  {| files := fun _ => Ok [];
     geocoder := fun _ _ => Err (errorString "maps: REQUEST_DENIED");
     forecaster := fun _ _ _ => Ok (reading f_53_35 f_m6_26 f_12_3 "si");
     registrar := fun _ => None |}.

(** The forecast service is down. *)
Definition forecast_down : Script :=
  {| files := fun _ => Ok [];
     geocoder := knows_dublin;
     forecaster := fun _ _ _ => Err (errorString "darksky: 403 Forbidden");
     registrar := fun _ => None |}.

(** Events of the process itself: lines printed or logged and samples
    sent. *)
Definition local_event (e : event) : bool :=
  match e with
  | Printed _ _ | Logged _ _ | Sent _ _ => true
  | _ => false
  end.

(** One location's turn, the shape that the bodies of the three loops over
    the locations share: [getW] is the call of [getWeather], [upd] what is
    done with a forecast. *)
Definition turn {W : Type} (getW : string -> M W (result forecast.Forecast))
    (upd : string -> forecast.Forecast -> M W unit) (loc : string) : M W unit :=
  fmt_Printf "Getting weather for %s\n" [AString loc] ;;;
  r <- getW loc ;;
  match r with
  | Err err => log_Printf "Failed to get weather for '%s': %v" [AString loc; AError err]
  | Ok fc => upd loc fc
  end.

(** A trace in which the geocoder was asked about the addresses [locs], in
    this order, and the forecast service at most as often; nobody slept
    and no server was started. *)
Definition asked (locs : list string) (tr : list event) : Prop :=
  geocoded tr = locs
  /\ (length (forecast_requests tr) <= length locs)%nat
  /\ slept tr = []
  /\ server_started tr = false.

Section SampleVocabulary.
Context {W : Type} `{Env W}.

(** The sample that a forecast gives for a metric name, if the name is
    supported. *)
Definition sample_for (loc : string) (fc : forecast.Forecast) (key : string)
  : option prometheus.Metric :=
  match getValueByFieldName key (forecast.Currently fc) with
  | (v, None) => Some (sample (weatherDesc key) loc fc v)
  | (_, Some _) => None
  end.
End SampleVocabulary.

(** The sample a gauge vector collects for one of its children. *)
Definition child_sample (gv : prometheus.GaugeVec) (child : list string * float64)
  : prometheus.Metric :=
  {| prometheus.desc := prometheus.gaugeDesc gv;
     prometheus.valType := prometheus.GaugeValue;
     prometheus.val := child.2;
     prometheus.labelValues := child.1 |}.

(** Every registered collector is a gauge vector that is there. *)
Definition gauges_registered {W : Type} (st : state W) : Prop :=
  forall c, c ∈ registry st -> exists a, c = GaugeVecAt a /\ is_Some (heap st !! a).

(** *** Reading a coordinate back *)

(** The number a string of digits writes, after the digits [acc]. *)
Fixpoint digits_value (s : string) (acc : Z) : Z :=
  match s with
  | EmptyString => acc
  | String c r => digits_value r (10 * acc + (Z.of_nat (nat_of_ascii c) - 48))
  end.

(** A decimal string with six fractional digits, read back: whether it
    has a minus sign, and the number of millionths it writes. *)
Definition read_fixed6 (s : string) : option (bool * Z) :=
  if six_fractional_digits s then
    let '(ip, rest) := span_digits (strip_minus s) in
    match rest with
    | String "." fp =>
        Some (match s with String "-" _ => true | _ => false end,
              digits_value ip 0 * 10 ^ 6 + digits_value fp 0)
    | _ => None
    end
  else None.

(** [u] millionths, with sign [neg], are the finite [x] rounded to the
    nearest millionth: [x] is [(-1)^s * m * 2^e], and twice the distance
    between [u / 10^6] and [m * 2^e] is at most one millionth. *)
Definition nearest_millionth (x : float64) (neg : bool) (u : Z) : Prop :=
  match x with
  | S754_zero s => neg = s /\ u = 0
  | S754_finite s m e =>
      neg = s /\ 0 <= u
      /\ if 0 <=? e then u = Z.pos m * 2 ^ e * 10 ^ 6
         else Z.abs (2 * (u * 2 ^ (- e) - Z.pos m * 10 ^ 6)) <= 2 ^ (- e)
  | _ => False
  end.

(** One turn of the goroutine's loop, the shape the two timers share:
    [locs] are the configured locations and [d] the configured interval. *)
Definition one_cycle {W : Type} (getW : string -> M W (result forecast.Forecast))
    (upd : string -> forecast.Forecast -> M W unit) (locs : list string) (d : Z)
  : M W unit :=
  log_Printf "Fetching weather..." [] ;;;
  for_range locs (turn getW upd) ;;;
  log_Printf "Sleeping %s..." [ADuration d] ;;;
  time_Sleep d.

(** Whenever the geocoder finds something, its first result has an
    address component. *)
Definition components_named {W : Type} `{Env W} : Prop :=
  forall client r w,
    match (maps_Geocode client r w).1 with
    | Ok (r0 :: _) => maps.AddressComponents r0 <> []
    | _ => True
    end.

(** * Properties *)

(** ** Formatting *)

Section Formatting.

Lemma is_digit_digit (n : Z) : is_digit (digit n) = true.
Proof.
  unfold digit.
  assert (Hd : 0 <= n mod 10 < 10) by (apply Z.mod_pos_bound; lia).
  assert (Hn : (Z.to_nat (n mod 10) < 10)%nat) by lia.
  destruct (Z.to_nat (n mod 10)) as [|[|[|[|[|[|[|[|[|[|k]]]]]]]]]];
    try reflexivity; lia.
Qed.

Lemma all_digits_six_digits (n : Z) : all_digits (six_digits n) = true.
Proof. unfold six_digits; cbn [all_digits]. by rewrite !is_digit_digit. Qed.

Lemma length_six_digits (n : Z) : String.length (six_digits n) = 6%nat.
Proof. reflexivity. Qed.

Lemma all_digits_string_of_uint (d : Decimal.uint) :
  all_digits (NilEmpty.string_of_uint d) = true.
Proof. induction d; simpl; auto. Qed.

Lemma string_of_uint_nonempty (d : Decimal.uint) :
  d <> Decimal.Nil -> NilEmpty.string_of_uint d <> "".
Proof. destruct d; simpl; congruence. Qed.

Lemma decimal_digits (n : Z) : all_digits (decimal n) = true /\ decimal n <> "".
Proof.
  unfold decimal; split; [apply all_digits_string_of_uint|].
  apply string_of_uint_nonempty.
  destruct (Z.to_N n); simpl; [discriminate | apply DecimalPos.Unsigned.to_uint_nonnil].
Qed.

Lemma span_digits_point (ip fp : string) :
  all_digits ip = true -> span_digits (ip +:+ "." +:+ fp) = (ip, "." +:+ fp).
Proof.
  induction ip as [|c ip IH]; simpl; [reflexivity|].
  intros [Hc Hip]%andb_prop. rewrite Hc, (IH Hip). reflexivity.
Qed.

Lemma strip_minus_digit (c : ascii) (r : string) :
  is_digit c = true -> strip_minus (String c r) = String c r.
Proof.
  destruct c as [[] [] [] [] [] [] [] []]; try reflexivity; discriminate.
Qed.

Lemma six_fractional_digits_body (ip fp : string) :
  all_digits ip = true -> ip <> "" -> all_digits fp = true -> String.length fp = 6%nat ->
  (let '(ip, rest) := span_digits (ip +:+ "." +:+ fp) in
   negb (String.eqb ip "")
   && match rest with
      | String "." fp => all_digits fp && (String.length fp =? 6)%nat
      | _ => false
      end) = true.
Proof.
  intros Hip Hne Hfp Hlen. rewrite (span_digits_point _ _ Hip).
  destruct ip; [done|]. cbn [String.eqb negb andb].
  change ("." +:+ fp) with (String "."%char fp). cbv iota beta.
  rewrite Hfp, Hlen. reflexivity.
Qed.

Lemma six_fractional_digits_fixed6 (neg : bool) (u : Z) :
  six_fractional_digits (fixed6 neg u) = true.
Proof.
  unfold fixed6, six_fractional_digits.
  destruct (decimal_digits (u / 10 ^ 6)) as [Hd Hne].
  pose proof (six_fractional_digits_body _ (six_digits (u mod 10 ^ 6)) Hd Hne
                (all_digits_six_digits _) (length_six_digits _)) as Hu.
  destruct neg.
  - change (strip_minus ("-" +:+ ?s)) with s. exact Hu.
  - change (strip_minus ("" +:+ ?s)) with (strip_minus s).
    destruct (decimal (u / 10 ^ 6)) as [|c ip] eqn:E; [done|].
    cbn [all_digits] in Hd. apply andb_prop in Hd as [Hc Hip].
    change (String c ip +:+ ?s) with (String c (ip +:+ s)) in *.
    rewrite (strip_minus_digit c _ Hc). exact Hu.
Qed.

(** [%f] of a finite [float64] has exactly six fractional digits. *)
Lemma Sprintf_f_finite (x : float64) :
  is_finite x = true -> six_fractional_digits (Sprintf_f x) = true.
Proof.
  destruct x; simpl; try discriminate; intros _; apply six_fractional_digits_fixed6.
Qed.

End Formatting.
Example Sprintf_f_53_35 : Sprintf_f f_53_35 = "53.350000".
Proof. vm_compute. reflexivity. Qed.

Example Sprintf_f_m6_26 : Sprintf_f f_m6_26 = "-6.260000".
Proof. vm_compute. reflexivity. Qed.

Example Sprintf_f_tie : Sprintf_f (S754_finite false 1 (-7)) = "0.007812".
Proof. vm_compute. reflexivity. Qed.

Example Sprintf_f_small_negative : Sprintf_f (S754_finite true 1 (-60)) = "-0.000000".
Proof. vm_compute. reflexivity. Qed.

Example six_fractional_digits_ex :
  six_fractional_digits "53.350000" = true
  /\ six_fractional_digits "-6.260000" = true
  /\ six_fractional_digits "NaN" = false
  /\ six_fractional_digits "53.35" = false
  /\ six_fractional_digits ".350000" = false.
Proof. vm_compute. repeat split. Qed.

(** ** The machine *)

Section MachineFacts.
Context {W : Type} `{Env W}.
Implicit Types st : state W.

Lemma bind_Returned {A B} (m : M W A) (k : A -> M W B) st a st1 :
  m st = (Returned a, st1) -> bind m k st = k a st1.
Proof. unfold bind. by intros ->. Qed.

Lemma bind_Panicked {A B} (m : M W A) (k : A -> M W B) st msg st1 :
  m st = (Panicked msg, st1) -> bind m k st = (Panicked msg, st1).
Proof. unfold bind. by intros ->. Qed.

Lemma bind_Exited {A B} (m : M W A) (k : A -> M W B) st c st1 :
  m st = (Exited c, st1) -> bind m k st = (Exited c, st1).
Proof. unfold bind. by intros ->. Qed.

Lemma add_event_events e st : add_event e st = add_events [e] st.
Proof. reflexivity. Qed.

Lemma add_events_nil st : add_events [] st = st.
Proof. destruct st; unfold add_events; simpl. by rewrite app_nil_r. Qed.

Lemma add_events_app l1 l2 st :
  add_events l2 (add_events l1 st) = add_events (l1 ++ l2) st.
Proof. unfold add_events; simpl. by rewrite app_assoc. Qed.

Lemma added_app st evs st' : trace st' = trace st ++ evs -> added st st' = evs.
Proof. unfold added. intros ->. by rewrite drop_app_length. Qed.

Lemma for_range_app {A} (l1 l2 : list A) (body : A -> M W unit) :
  forall st, for_range (l1 ++ l2) body st
             = bind (for_range l1 body) (fun _ => for_range l2 body) st.
Proof.
  induction l1 as [|x l1 IH]; intros st; [reflexivity|].
  simpl. unfold bind. destruct (body x st) as [[a|msg|c] st1]; try reflexivity.
  rewrite IH. reflexivity.
Qed.

(** *** Relations every step keeps *)

Section Preserved.
Context (R : relation (state W)) `{!PreOrder R}.

Lemma preserves_ret {A} (a : A) : preserves R (ret a).
Proof. intros st o st' [= <- <-]. reflexivity. Qed.

Lemma preserves_panic {A} msg : preserves R (panic (A := A) msg).
Proof. intros st o st' [= <- <-]. reflexivity. Qed.

Lemma preserves_exit {A} c : preserves R (os_Exit (A := A) c).
Proof. intros st o st' [= <- <-]. reflexivity. Qed.

Lemma preserves_bind {A B} (m : M W A) (k : A -> M W B) :
  preserves R m -> (forall a, preserves R (k a)) -> preserves R (bind m k).
Proof.
  intros Hm Hk st o st'. unfold bind.
  destruct (m st) as [[a|msg|c] st1] eqn:E; intros E'.
  - etransitivity; [eapply Hm, E | eapply Hk, E'].
  - injection E' as <- <-. eapply Hm, E.
  - injection E' as <- <-. eapply Hm, E.
Qed.

Lemma preserves_for_range {A} (l : list A) (body : A -> M W unit) :
  (forall x, x ∈ l -> preserves R (body x)) -> preserves R (for_range l body).
Proof.
  induction l as [|x l IH]; intros Hb; simpl; [apply preserves_ret|].
  apply preserves_bind; [apply Hb; left | intros _; apply IH].
  intros y Hy. apply Hb. by right.
Qed.

Lemma preserves_emit e :
  (forall st, R st (add_event e st)) -> preserves R (emit e).
Proof. intros He st o st' [= <- <-]. apply He. Qed.

Lemma preserves_call {A} (f : W -> A * W) :
  (forall st w, R st (set_world w st)) -> preserves R (call f).
Proof.
  intros Hw st o st'. unfold call. destruct (f (world st)) as [a w].
  intros [= <- <-]. apply Hw.
Qed.
End Preserved.

#[global] Instance same_store_preorder : PreOrder (same_store (W := W)).
Proof.
  split; [by split|]. intros a b c [? ?] [? ?]. split; congruence.
Qed.

#[global] Instance adds_preorder ok : PreOrder (adds (W := W) ok).
Proof.
  split.
  - intros st. exists []. by rewrite app_nil_r.
  - intros a b c (l1 & E1 & F1) (l2 & E2 & F2). exists (l1 ++ l2).
    rewrite E2, E1, forallb_app, F1, F2, app_assoc. done.
Qed.

#[global] Instance others_kept_preorder loc : PreOrder (others_kept (W := W) loc).
Proof.
  split; [by repeat split|].
  intros a b c (L1 & D1 & E1) (L2 & D2 & E2). repeat split.
  - congruence.
  - intros x. by rewrite D2, D1.
  - intros x lvs Hl. by rewrite E2, E1.
Qed.
End MachineFacts.

(** ** The shared functions keep to themselves *)

Ltac preserve_step :=
  first
    [ apply preserves_ret; solve [typeclasses eauto]
    | apply preserves_panic; solve [typeclasses eauto]
    | apply preserves_exit; solve [typeclasses eauto]
    | apply preserves_emit; intros; apply quiet_event; reflexivity
    | apply preserves_call; intros; apply quiet_world
    | apply preserves_bind; [typeclasses eauto | | intros ?]
    | match goal with
      | |- preserves _ (match ?x with _ => _ end) => destruct x
      | |- preserves _ (if ?b then _ else _) => destruct b
      end ].
Ltac preserve := repeat preserve_step.

Section Quietness.
Context {W : Type} `{Env W}.
Implicit Types st : state W.

#[global] Instance same_store_quiet : Quiet (same_store (W := W)).
Proof. split; [apply _ | by split | by split]. Qed.

Lemma adds_chatter_quiet (ok : event -> bool) :
  (forall e, chatter e = true -> ok e = true) -> Quiet (adds (W := W) ok).
Proof.
  intros Hok. split; [apply _ | |].
  - intros e st He. exists [e]. simpl. by rewrite (Hok e He).
  - intros st w. exists []. simpl. by rewrite app_nil_r.
Qed.

#[global] Instance not_listening_quiet : Quiet (adds (W := W) not_listening).
Proof. apply adds_chatter_quiet. by intros []. Qed.

#[global] Instance not_sent_on_quiet ch : Quiet (adds (W := W) (not_sent_on ch)).
Proof. apply adds_chatter_quiet. by intros []. Qed.

#[global] Instance others_kept_quiet loc : Quiet (others_kept (W := W) loc).
Proof. split; [apply _ | by repeat split | by repeat split]. Qed.

Section Shared.
Context (R : relation (state W)) `{!Quiet R}.

Lemma log_Printf_quiet format args : preserves R (log_Printf format args).
Proof. unfold log_Printf. preserve. Qed.

Lemma fmt_Printf_quiet format args : preserves R (fmt_Printf format args).
Proof. unfold fmt_Printf. preserve. Qed.

Lemma log_Fatalf_quiet {A} format args : preserves R (log_Fatalf (A := A) format args).
Proof. unfold log_Fatalf, log_Printf. preserve. Qed.

Lemma time_Sleep_quiet d : preserves R (time_Sleep d).
Proof. unfold time_Sleep. preserve. Qed.

Lemma getLocation_quiet apikey locName : preserves R (getLocation apikey locName).
Proof. unfold getLocation, Geocode. preserve. Qed.

Lemma getWeather_quiet k1 k2 locName : preserves R (getWeather k1 k2 locName).
Proof.
  unfold getWeather, Get.
  apply preserves_bind; [apply _ | apply getLocation_quiet | intros ?]. preserve.
Qed.

Lemma Collector_getWeather_quiet k1 k2 locName :
  preserves R (Collector.getWeather k1 k2 locName).
Proof.
  unfold Collector.getWeather, Get, log_Printf.
  apply preserves_bind; [apply _ | apply getLocation_quiet | intros ?]. preserve.
Qed.

Lemma LoadConfig_quiet {Config} `{Unmarshal Config} filepath :
  preserves R (LoadConfig (Config := Config) filepath).
Proof. unfold LoadConfig, ReadFile. preserve. Qed.
End Shared.
End Quietness.

(** ** [getValueByFieldName] and [getWeather] *)

Section Extraction.
Context {W : Type} `{Env W}.
Implicit Types st : state W.

Lemma supported_cases (field : string) :
  field ∈ supported_fields ->
  field = "temperature" \/ field = "apparent_temperature" \/ field = "wind_speed"
  \/ field = "cloud_cover" \/ field = "humidity" \/ field = "precip_intensity".
Proof. unfold supported_fields. rewrite !elem_of_cons, elem_of_nil. tauto. Qed.

Lemma getValueByFieldName_unsupported (field : string) (dp : forecast.DataPoint) :
  field ∉ supported_fields ->
  getValueByFieldName field dp
  = (zero64, Some (errorString ("unsupported field '" +:+ field +:+ "'"))).
Proof.
  unfold supported_fields. rewrite !not_elem_of_cons.
  intros (H1 & H2 & H3 & H4 & H5 & H6 & _). unfold getValueByFieldName.
  apply String.eqb_neq in H1, H2, H3, H4, H5, H6.
  by rewrite H1, H2, H3, H4, H5, H6.
Qed.

Lemma getValueByFieldName_nil (field : string) (dp : forecast.DataPoint) v :
  getValueByFieldName field dp = (v, None) -> field ∈ supported_fields.
Proof.
  intros Hv. destruct (decide (field ∈ supported_fields)) as [|Hn]; [done|].
  by rewrite (getValueByFieldName_unsupported _ _ Hn) in Hv.
Qed.

Lemma getValueByFieldName_supported (field : string) (dp : forecast.DataPoint) :
  field ∈ supported_fields -> exists v, getValueByFieldName field dp = (v, None).
Proof.
  intros Hs. destruct (supported_cases _ Hs) as [->|[->|[->|[->|[->| ->]]]]]; by eexists.
Qed.

Lemma weatherDesc_valid (key : string) :
  key ∈ supported_fields -> prometheus.err (weatherDesc key) = None.
Proof.
  intros Hs. unfold weatherDesc, NewDesc; cbn [prometheus.err].
  rewrite IsValidMetricName_classic; [done|].
  destruct (supported_cases _ Hs) as [->|[->|[->|[->|[->| ->]]]]]; reflexivity.
Qed.

(** *** What [getWeather] answers *)

Lemma getWeather_resolution_fails k1 k2 loc st err st1 :
  getLocation k1 loc st = (Returned (Err err), st1) ->
  getWeather k1 k2 loc st
  = (Returned (Err (wrapError ("GMaps search failed: " +:+ Error err) err)), st1)
  /\ Collector.getWeather k1 k2 loc st
     = (Returned (Err (wrapError ("GMaps search failed: " +:+ Error err) err)), st1).
Proof.
  intros E. unfold getWeather, Collector.getWeather.
  by rewrite !(bind_Returned _ _ _ _ _ E).
Qed.

Lemma getWeather_fetch_fails k1 k2 loc st l st1 err st2 :
  getLocation k1 loc st = (Returned (Ok l), st1) ->
  Get k2 (LatString l) (LngString l) "now" forecast.SI forecast.English st1
  = (Returned (Err err), st2) ->
  getWeather k1 k2 loc st
  = (Returned (Err (wrapError ("forecast request failed: " +:+ Error err) err)), st2)
  /\ Collector.getWeather k1 k2 loc st
     = (Returned (Err (wrapError ("forecast request failed: " +:+ Error err) err)), st2).
Proof.
  intros E1 E2. unfold getWeather, Collector.getWeather.
  rewrite !(bind_Returned _ _ _ _ _ E1). cbv beta iota.
  by rewrite !(bind_Returned _ _ _ _ _ E2).
Qed.

Lemma getWeather_units_mismatch k1 k2 loc st l st1 fc st2 :
  getLocation k1 loc st = (Returned (Ok l), st1) ->
  Get k2 (LatString l) (LngString l) "now" forecast.SI forecast.English st1
  = (Returned (Ok fc), st2) ->
  forecast.Units (forecast.flags fc) <> forecast.SI ->
  getWeather k1 k2 loc st
  = (Returned (Err (errorString ("units are not SI: got "
                                 +:+ forecast.Units (forecast.flags fc)))), st2)
  /\ Collector.getWeather k1 k2 loc st
     = (Returned (Err (errorString ("units are not SI: got "
                                    +:+ forecast.Units (forecast.flags fc)))),
        add_event (Logged "Forecast: %+v" [AForecast fc]) st2).
Proof.
  intros E1 E2 Hu. unfold getWeather, Collector.getWeather.
  rewrite !(bind_Returned _ _ _ _ _ E1). cbv beta iota.
  rewrite !(bind_Returned _ _ _ _ _ E2). cbv beta iota.
  apply String.eqb_neq in Hu. unfold bind, log_Printf, emit. rewrite Hu. done.
Qed.

(** A forecast that [getWeather] hands on is one the forecast service
    sent for the resolved coordinates, and it is in SI units. *)
Lemma getWeather_Ok k1 k2 loc st fc st' :
  getWeather k1 k2 loc st = (Returned (Ok fc), st') ->
  forecast.Units (forecast.flags fc) = forecast.SI
  /\ exists l st1,
      getLocation k1 loc st = (Returned (Ok l), st1)
      /\ Get k2 (LatString l) (LngString l) "now" forecast.SI forecast.English st1
         = (Returned (Ok fc), st').
Proof.
  unfold getWeather, bind.
  destruct (getLocation k1 loc st) as [[[l|e]|?|?] st1] eqn:E1; try done.
  destruct (Get k2 _ _ _ _ _ st1) as [[[fc'|e]|?|?] st2] eqn:E2; try done.
  destruct (String.eqb _ _) eqn:Eu; simpl; [|done].
  intros [= -> ->]. apply String.eqb_eq in Eu. eauto.
Qed.

Lemma Collector_getWeather_Ok k1 k2 loc st fc st' :
  Collector.getWeather k1 k2 loc st = (Returned (Ok fc), st') ->
  forecast.Units (forecast.flags fc) = forecast.SI
  /\ exists l st1 st2,
      getLocation k1 loc st = (Returned (Ok l), st1)
      /\ Get k2 (LatString l) (LngString l) "now" forecast.SI forecast.English st1
         = (Returned (Ok fc), st2)
      /\ st' = add_event (Logged "Forecast: %+v" [AForecast fc]) st2.
Proof.
  unfold Collector.getWeather, bind.
  destruct (getLocation k1 loc st) as [[[l|e]|?|?] st1] eqn:E1; try done.
  destruct (Get k2 _ _ _ _ _ st1) as [[[fc'|e]|?|?] st2] eqn:E2; try done.
  unfold log_Printf, emit.
  destruct (String.eqb _ _) eqn:Eu; simpl; [|done].
  intros [= -> <-]. apply String.eqb_eq in Eu. eauto 10.
Qed.
End Extraction.

(** ** The collector *)

Section CollectorFacts.
Context {W : Type} `{Env W}.
Implicit Types st : state W.

Lemma sent_app ch (l1 l2 : list event) : sent ch (l1 ++ l2) = sent ch l1 ++ sent ch l2.
Proof. unfold sent. apply omap_app. Qed.

Lemma sent_none ch (evs : list event) : forallb (not_sent_on ch) evs = true -> sent ch evs = [].
Proof.
  induction evs as [|e evs IH]; [done|]. simpl.
  intros [He Hevs]%andb_prop. unfold sent in *. cbn [omap list_omap].
  rewrite (IH Hevs). destruct e as [| | | | |c m| | | |]; try done. simpl in He.
  by destruct (c =? ch)%nat.
Qed.

(** A run that sends nothing on [ch] leaves what was sent on [ch]. *)
Lemma adds_not_sent ch st st' :
  adds (not_sent_on ch) st st' -> sent ch (added st st') = [].
Proof. intros (evs & E & F). rewrite (added_app _ _ _ E). by apply sent_none. Qed.

Lemma getDescs_fold (metrics : list string) (acc : gmap string prometheus.Desc) k :
  foldl (fun descs key => <[key := weatherDesc key]> descs) acc metrics !! k
  = if decide (k ∈ metrics) then Some (weatherDesc k) else acc !! k.
Proof.
  revert acc. induction metrics as [|x metrics IH]; intros acc; cbn [foldl].
  - rewrite decide_False; [done | apply not_elem_of_nil].
  - rewrite IH. destruct (decide (k ∈ metrics)) as [Hin|Hn].
    + rewrite decide_True by (by right). done.
    + destruct (decide (k = x)) as [->|Hne].
      * rewrite lookup_insert_eq, decide_True by left. done.
      * rewrite lookup_insert_ne by done. rewrite decide_False; [done|].
        rewrite elem_of_cons. tauto.
Qed.

(** [getDescs] has one descriptor per configured metric, whatever the name. *)
Lemma getDescs_lookup (metrics : list string) k :
  Collector.getDescs metrics !! k
  = if decide (k ∈ metrics) then Some (weatherDesc k) else None.
Proof.
  unfold Collector.getDescs. fold weatherDesc.
  rewrite (getDescs_fold metrics ∅ k). by rewrite lookup_empty.
Qed.

Lemma MustNewConstMetric_ok (d : prometheus.Desc) loc fc v st :
  prometheus.err d = None -> length (prometheus.variableLabels d) = 3%nat ->
  MustNewConstMetric d prometheus.GaugeValue v (labelsOf loc fc) st
  = (Returned (sample d loc fc v), st).
Proof. unfold MustNewConstMetric. intros -> ->. reflexivity. Qed.

Lemma getDescs_sound metrics : sound_descs (Collector.getDescs metrics).
Proof.
  intros k d. rewrite getDescs_lookup. case_decide; [|done].
  intros [= <-] Hs. split; [by apply weatherDesc_valid | reflexivity].
Qed.

(** The loop over [wc.descs] runs to its end whatever the keys are: an
    unsupported key adds a log line, a supported one a sample. *)
Lemma collect_metrics_run descs ch loc fc (ks : list string) st :
  sound_descs descs ->
  for_range ks (fun k => match descs !! k with
                         | Some v => Collector.collect_metric ch loc fc k v
                         | None => ret tt
                         end) st
  = (Returned tt, add_events (flat_map (metric_events descs ch loc fc) ks) st).
Proof.
  intros Hd. revert st. induction ks as [|k ks IH]; intros st.
  - simpl. by rewrite add_events_nil.
  - cbn [for_range flat_map]. rewrite <- add_events_app.
    erewrite bind_Returned; [apply IH|].
    unfold metric_events, Collector.collect_metric.
    destruct (descs !! k) as [d|] eqn:Ek; [|by rewrite add_events_nil].
    destruct (getValueByFieldName k (forecast.Currently fc)) as [v [e|]] eqn:Ev; [done|].
    destruct (Hd k d Ek (getValueByFieldName_nil _ _ _ Ev)) as [He Hl].
    erewrite bind_Returned; [|by apply MustNewConstMetric_ok]. done.
Qed.

Lemma for_range_map_run {V} (m : gmap string V) (body : string -> V -> M W unit) st :
  for_range_map m body st
  = for_range (range_order (fst <$> map_to_list m) (world st)).1
      (fun k => match m !! k with Some v => body k v | None => ret tt end)
      (set_world (range_order (fst <$> map_to_list m) (world st)).2 st).
Proof.
  unfold for_range_map, bind, call.
  by destruct (range_order (fst <$> map_to_list m) (world st)).
Qed.

Lemma range_order_keys {V} (m : gmap string V) w k :
  k ∈ (range_order (fst <$> map_to_list m) w).1 <-> is_Some (m !! k).
Proof.
  rewrite (range_order_perm _ w), list_elem_of_fmap. split.
  - intros ([k' v] & -> & Hin). apply elem_of_map_to_list in Hin. by eexists.
  - intros [v Hv]. exists (k, v). split; [done|]. by apply elem_of_map_to_list.
Qed.

(** What [collect_location] does with a forecast it got. *)
Lemma collect_location_Ok wc ch loc st fc st1 :
  sound_descs (descs wc) ->
  Collector.getWeather (gmapsAPIKey wc) (darkskyAPIKey wc) loc
    (add_event (Printed "Getting weather for %s\n" [AString loc]) st)
  = (Returned (Ok fc), st1) ->
  let ks := range_order (fst <$> map_to_list (descs wc)) (world st1) in
  Collector.collect_location wc ch loc st
  = (Returned tt,
     add_events (flat_map (metric_events (descs wc) ch loc fc) ks.1)
                (set_world ks.2 st1)).
Proof.
  intros Hd Hw ks. unfold Collector.collect_location.
  unfold fmt_Printf, emit, bind at 1. cbv beta iota.
  rewrite (bind_Returned _ _ _ _ _ Hw). cbv beta iota.
  rewrite for_range_map_run. by apply collect_metrics_run.
Qed.

Lemma sent_metric_events descs ch loc fc (ks : list string) m :
  m ∈ sent ch (flat_map (metric_events descs ch loc fc) ks)
  <-> exists k d v, k ∈ ks /\ descs !! k = Some d
                    /\ getValueByFieldName k (forecast.Currently fc) = (v, None)
                    /\ m = sample d loc fc v.
Proof.
  induction ks as [|k ks IH].
  - simpl. split; [by intros ?%elem_of_nil|]. intros (k & d & v & Hk%elem_of_nil & _). done.
  - cbn [flat_map]. rewrite sent_app, elem_of_app, IH. split.
    + intros [Hm|(k' & d & v & Hk & Hrest)].
      * unfold metric_events in Hm.
        destruct (descs !! k) as [d|] eqn:Ek; [|by apply elem_of_nil in Hm].
        destruct (getValueByFieldName k _) as [v [e|]] eqn:Ev;
          [by apply elem_of_nil in Hm|].
        simpl in Hm. rewrite Nat.eqb_refl in Hm. apply list_elem_of_singleton in Hm.
        exists k, d, v. repeat split; [left | done..].
      * exists k', d, v. split; [by right | done].
    + intros (k' & d & v & Hk & Hd & Hv & ->).
      apply elem_of_cons in Hk as [->|Hk]; [left | right; by eauto 10].
      unfold metric_events. rewrite Hd, Hv. simpl. rewrite Nat.eqb_refl.
      by apply list_elem_of_singleton.
Qed.

(** The samples one location adds to a scrape: one per configured metric
    that the forecast supports, each for its own key. *)
Lemma collect_location_sent wc ch loc st fc st1 metrics :
  descs wc = Collector.getDescs metrics ->
  Collector.getWeather (gmapsAPIKey wc) (darkskyAPIKey wc) loc
    (add_event (Printed "Getting weather for %s\n" [AString loc]) st)
  = (Returned (Ok fc), st1) ->
  exists st',
    Collector.collect_location wc ch loc st = (Returned tt, st')
    /\ forall m, m ∈ sent ch (added st st')
                 <-> exists k v, k ∈ metrics
                                 /\ getValueByFieldName k (forecast.Currently fc) = (v, None)
                                 /\ m = sample (weatherDesc k) loc fc v.
Proof.
  intros Hdescs Hw. eexists. split.
  { apply collect_location_Ok; [|exact Hw]. rewrite Hdescs. apply getDescs_sound. }
  intros m.
  pose proof (Collector_getWeather_quiet (adds (not_sent_on ch)) _ _ _ _ _ _ Hw)
    as (evs & E & F).
  simpl in E.
  erewrite added_app; cycle 1.
  { cbn [add_events set_world trace]. rewrite E, <- !app_assoc. reflexivity. }
  rewrite !sent_app, (sent_none _ _ F). simpl.
  rewrite sent_metric_events. split.
  - intros (k & d & v & Hk & Hd & Hv & ->). rewrite Hdescs, getDescs_lookup in Hd.
    case_decide; [|done]. injection Hd as <-. eauto.
  - intros (k & v & Hk & Hv & ->). exists k, (weatherDesc k), v.
    repeat split; [|by rewrite Hdescs, getDescs_lookup, decide_True|done].
    apply range_order_keys. rewrite Hdescs, getDescs_lookup, decide_True; eauto.
Qed.
End CollectorFacts.

(** ** The store *)

Section StoreFacts.
Context {W : Type} `{Env W}.
Implicit Types st : state W.
Implicit Types h : list prometheus.GaugeVec.

Lemma length_write a lvs v h : length (write a lvs v h) = length h.
Proof. unfold write. destruct (h !! a); [apply length_insert | done]. Qed.

Lemma write_desc a lvs v h a' :
  prometheus.gaugeDesc <$> write a lvs v h !! a' = prometheus.gaugeDesc <$> h !! a'.
Proof.
  unfold write. destruct (h !! a) as [gv|] eqn:E; [|done].
  destruct (decide (a = a')) as [<-|Hne].
  - rewrite list_lookup_insert_eq by (by eapply lookup_lt_Some). by rewrite E.
  - by rewrite list_lookup_insert_ne.
Qed.

Lemma entry_write a lvs v h :
  is_Some (h !! a) -> entry_in (write a lvs v h) a lvs = Some v.
Proof.
  intros [gv E]. unfold entry_in, write. rewrite E.
  rewrite list_lookup_insert_eq by (by eapply lookup_lt_Some). simpl.
  apply lookup_insert_eq.
Qed.

Lemma entry_write_other a lvs v h a' lvs' :
  a' <> a \/ lvs' <> lvs -> entry_in (write a lvs v h) a' lvs' = entry_in h a' lvs'.
Proof.
  intros Hne. unfold entry_in, write. destruct (h !! a) as [gv|] eqn:E; [|done].
  destruct (decide (a = a')) as [<-|Ha].
  - rewrite list_lookup_insert_eq by (by eapply lookup_lt_Some). rewrite E. simpl.
    destruct Hne as [?|Hl]; [done|]. by rewrite lookup_insert_ne.
  - by rewrite list_lookup_insert_ne.
Qed.

Lemma write_write a lvs v v' h : write a lvs v (write a lvs v' h) = write a lvs v h.
Proof.
  unfold write. destruct (h !! a) as [gv|] eqn:E; [|by rewrite E].
  rewrite list_lookup_insert_eq by (by eapply lookup_lt_Some). simpl.
  rewrite list_insert_insert_eq. by rewrite insert_insert_eq.
Qed.

Lemma weatherDesc_inj k1 k2 : weatherDesc k1 = weatherDesc k2 -> k1 = k2.
Proof.
  intros E. apply (f_equal prometheus.fqName) in E. cbn in E. by simplify_eq.
Qed.

Lemma gauges_ok_inj h (gauges : gmap string nat) k1 k2 a :
  gauges_ok h gauges -> gauges !! k1 = Some a -> gauges !! k2 = Some a -> k1 = k2.
Proof.
  intros Hok H1 H2. apply weatherDesc_inj.
  pose proof (Hok _ _ H1) as E1. pose proof (Hok _ _ H2) as E2. congruence.
Qed.

Lemma gauges_ok_write h (gauges : gmap string nat) a lvs v :
  gauges_ok h gauges -> gauges_ok (write a lvs v h) gauges.
Proof. intros Hok k a' Hk. rewrite write_desc. by apply Hok. Qed.

Lemma gauges_ok_labels h (gauges : gmap string nat) k a :
  gauges_ok h gauges -> gauges !! k = Some a ->
  exists gv, h !! a = Some gv
             /\ length (prometheus.variableLabels (prometheus.gaugeDesc gv)) = 3%nat.
Proof.
  intros Hok Hk. specialize (Hok _ _ Hk).
  destruct (h !! a) as [gv|]; [|done]. injection Hok as E. exists gv. by rewrite E.
Qed.

(** [gauge.WithLabelValues(...).Set(v)] on a vector with three labels. *)
Lemma WithLabelValues_Set a loc fc v st gv :
  heap st !! a = Some gv ->
  length (prometheus.variableLabels (prometheus.gaugeDesc gv)) = 3%nat ->
  bind (WithLabelValues a (labelsOf loc fc)) (fun child => Set_ child v) st
  = (Returned tt, set_heap (write a (labelsOf loc fc) v (heap st)) st).
Proof.
  intros E Hl. unfold bind, WithLabelValues, Set_. rewrite E, Hl.
  change (length (labelsOf loc fc) =? 3)%nat with true. cbv iota.
  destruct (prometheus.children gv !! labelsOf loc fc) as [v0|] eqn:Ec;
    cbn [fst snd heap set_heap].
  - rewrite E. unfold write. by rewrite E.
  - rewrite list_lookup_insert_eq by (by eapply lookup_lt_Some).
    cbn [prometheus.gaugeDesc prometheus.children].
    unfold set_heap. cbn [world trace heap registry]. f_equal. f_equal.
    unfold write. rewrite E. rewrite list_insert_insert_eq. by rewrite insert_insert_eq.
Qed.

Lemma WithLabelValues_Set_then {B} a loc fc v st gv (k : unit -> M W B) :
  heap st !! a = Some gv ->
  length (prometheus.variableLabels (prometheus.gaugeDesc gv)) = 3%nat ->
  bind (WithLabelValues a (labelsOf loc fc)) (fun child => bind (Set_ child v) k) st
  = k tt (set_heap (write a (labelsOf loc fc) v (heap st)) st).
Proof.
  intros E Hl. pose proof (WithLabelValues_Set a loc fc v st gv E Hl) as E1.
  unfold bind in *. destruct (WithLabelValues a _ st) as [[child|?|?] st2]; try done.
  by rewrite E1.
Qed.
End StoreFacts.

(** ** The timer's loop over the gauges *)

Section TimerFacts.
Context {W : Type} `{Env W}.
Implicit Types st : state W.
Implicit Types h : list prometheus.GaugeVec.
Implicit Types gauges : gmap string nat.

Lemma set_heap_add_events hp evs st :
  set_heap hp (add_events evs st) = add_events evs (set_heap hp st).
Proof. reflexivity. Qed.

Lemma set_heap_set_heap hp hp' st : set_heap hp (set_heap hp' st) = set_heap hp st.
Proof. reflexivity. Qed.

Lemma set_heap_id st : set_heap (heap st) st = st.
Proof. by destruct st. Qed.

Lemma update_metric_run gauges loc fc k a st :
  gauges_ok (heap st) gauges -> gauges !! k = Some a ->
  Timer.update_metric loc fc k a st
  = (Returned tt, set_heap (update_heap gauges loc fc (heap st) k)
                           (add_events (update_events gauges fc k) st)).
Proof.
  intros Hok Hk. unfold Timer.update_metric, update_heap, update_events. rewrite Hk.
  destruct (getValueByFieldName k (forecast.Currently fc)) as [v [e|]] eqn:Ev.
  - rewrite set_heap_add_events, set_heap_id. reflexivity.
  - destruct (gauges_ok_labels _ _ _ _ Hok Hk) as (gv & E & Hl).
    rewrite add_events_nil. exact (WithLabelValues_Set _ _ _ _ _ _ E Hl).
Qed.

Lemma gauges_ok_update_heap gauges loc fc h k :
  gauges_ok h gauges -> gauges_ok (update_heap gauges loc fc h k) gauges.
Proof.
  intros Hok. unfold update_heap. destruct (gauges !! k); [|done].
  destruct (getValueByFieldName _ _) as [v [e|]]; [done|]. by apply gauges_ok_write.
Qed.

Lemma gauges_ok_foldl gauges loc fc (ks : list string) h :
  gauges_ok h gauges -> gauges_ok (foldl (update_heap gauges loc fc) h ks) gauges.
Proof.
  revert h. induction ks as [|k ks IH]; intros h Hok; [done|].
  cbn [foldl]. by apply IH, gauges_ok_update_heap.
Qed.

(** The loop over the gauges runs to its end, whatever the keys. *)
Lemma update_metrics_run gauges loc fc (ks : list string) st :
  gauges_ok (heap st) gauges ->
  for_range ks (fun k => match gauges !! k with
                         | Some a => Timer.update_metric loc fc k a
                         | None => ret tt
                         end) st
  = (Returned tt, set_heap (foldl (update_heap gauges loc fc) (heap st) ks)
                           (add_events (flat_map (update_events gauges fc) ks) st)).
Proof.
  revert st. induction ks as [|k ks IH]; intros st Hok.
  - cbn. by rewrite add_events_nil, set_heap_id.
  - cbn [for_range flat_map foldl].
    assert (Hstep :
      (match gauges !! k with
       | Some a => Timer.update_metric loc fc k a
       | None => ret tt
       end) st
      = (Returned tt, set_heap (update_heap gauges loc fc (heap st) k)
                               (add_events (update_events gauges fc k) st))).
    { destruct (gauges !! k) as [a|] eqn:Ek; [by apply update_metric_run|].
      unfold update_heap, update_events. rewrite Ek.
      by rewrite add_events_nil, set_heap_id. }
    rewrite (bind_Returned _ _ _ _ _ Hstep), IH.
    + by rewrite <- add_events_app.
    + by apply gauges_ok_update_heap.
Qed.

(** A write stays: later turns of the loop leave the entry of a key
    alone, or write the same value (two keys never share a vector). *)
Lemma foldl_update_keeps gauges loc fc (ks : list string) h k a v :
  gauges_ok h gauges -> gauges !! k = Some a ->
  getValueByFieldName k (forecast.Currently fc) = (v, None) ->
  entry_in h a (labelsOf loc fc) = Some v ->
  entry_in (foldl (update_heap gauges loc fc) h ks) a (labelsOf loc fc) = Some v.
Proof.
  intros Hok Hk Hv. revert h Hok. induction ks as [|k' ks IH]; intros h Hok He; [done|].
  cbn [foldl]. apply IH; [by apply gauges_ok_update_heap|].
  unfold update_heap. destruct (gauges !! k') as [a'|] eqn:Ek'; [|done].
  destruct (getValueByFieldName k' _) as [v' [e|]] eqn:Ev'; [done|].
  destruct (decide (a' = a)) as [->|Hne].
  - assert (k' = k) as -> by (by eapply gauges_ok_inj).
    assert (v' = v) as -> by congruence.
    apply entry_write. destruct (gauges_ok_labels _ _ _ _ Hok Hk) as (gv & E & _). eauto.
  - rewrite entry_write_other by (left; congruence). done.
Qed.

Lemma foldl_update_writes gauges loc fc (ks : list string) h k a v :
  gauges_ok h gauges -> k ∈ ks -> gauges !! k = Some a ->
  getValueByFieldName k (forecast.Currently fc) = (v, None) ->
  entry_in (foldl (update_heap gauges loc fc) h ks) a (labelsOf loc fc) = Some v.
Proof.
  intros Hok Hin Hk Hv. apply list_elem_of_split in Hin as (l1 & l2 & ->).
  rewrite foldl_app. cbn [foldl].
  pose proof (gauges_ok_foldl gauges loc fc l1 h Hok) as Hok1.
  apply (foldl_update_keeps gauges loc fc l2 _ k a v);
    [by apply gauges_ok_update_heap | done | done |].
  unfold update_heap. rewrite Hk, Hv. apply entry_write.
  destruct (gauges_ok_labels _ _ _ _ Hok1 Hk) as (gv & E & _). eauto.
Qed.

(** The loop touches no entry but those of the forecast's label values. *)
Lemma foldl_update_frame gauges loc fc (ks : list string) h a lvs :
  lvs <> labelsOf loc fc ->
  entry_in (foldl (update_heap gauges loc fc) h ks) a lvs = entry_in h a lvs.
Proof.
  intros Hne. revert h. induction ks as [|k ks IH]; intros h; [done|].
  cbn [foldl]. rewrite IH. unfold update_heap.
  destruct (gauges !! k); [|done].
  destruct (getValueByFieldName _ _) as [v [e|]]; [done|].
  by rewrite entry_write_other by (by right).
Qed.

(** Nor the entry of a vector that belongs to no supported key. *)
Lemma foldl_update_frame_gauge gauges loc fc (ks : list string) h a lvs :
  (forall k v, k ∈ ks -> gauges !! k = Some a ->
               getValueByFieldName k (forecast.Currently fc) = (v, None) -> False) ->
  entry_in (foldl (update_heap gauges loc fc) h ks) a lvs = entry_in h a lvs.
Proof.
  revert h. induction ks as [|k ks IH]; intros h Hno; [done|].
  cbn [foldl]. rewrite IH by (intros k' v' Hin; apply Hno; by right).
  unfold update_heap. destruct (gauges !! k) as [a'|] eqn:Ek; [|done].
  destruct (getValueByFieldName _ _) as [v [e|]] eqn:Ev; [done|].
  rewrite entry_write_other; [done|]. left. intros ->. eapply Hno; [left|done..].
Qed.

(** *** One location *)

Lemma update_location_Err config gauges loc st err st1 :
  getWeather (Timer.GoogleMapsAPIKey config) (Timer.DarkskyAPIKey config) loc
    (add_event (Printed "Getting weather for %s\n" [AString loc]) st)
  = (Returned (Err err), st1) ->
  Timer.update_location config gauges loc st
  = (Returned tt,
     add_event (Logged "Failed to get weather for '%s': %v" [AString loc; AError err]) st1).
Proof.
  intros Hw. unfold Timer.update_location.
  unfold fmt_Printf, emit, bind at 1. cbv beta iota.
  by rewrite (bind_Returned _ _ _ _ _ Hw).
Qed.

Lemma update_location_Ok config gauges loc st fc st1 :
  gauges_ok (heap st) gauges ->
  getWeather (Timer.GoogleMapsAPIKey config) (Timer.DarkskyAPIKey config) loc
    (add_event (Printed "Getting weather for %s\n" [AString loc]) st)
  = (Returned (Ok fc), st1) ->
  let ks := range_order (fst <$> map_to_list gauges) (world st1) in
  Timer.update_location config gauges loc st
  = (Returned tt,
     set_heap (foldl (update_heap gauges loc fc) (heap st) ks.1)
              (add_events (flat_map (update_events gauges fc) ks.1)
                          (set_world ks.2 st1))).
Proof.
  intros Hok Hw ks. unfold Timer.update_location.
  unfold fmt_Printf, emit, bind at 1. cbv beta iota.
  rewrite (bind_Returned _ _ _ _ _ Hw). cbv beta iota.
  destruct (getWeather_quiet same_store _ _ _ _ _ _ Hw) as [Hh _].
  cbn [heap add_event] in Hh.
  rewrite for_range_map_run, update_metrics_run; cbn [heap set_world]; rewrite Hh; done.
Qed.

Lemma others_kept_write loc a lvs v st :
  head lvs = Some loc -> others_kept loc st (set_heap (write a lvs v (heap st)) st).
Proof.
  intros Hl. split; [|split]; cbn [heap set_heap].
  - apply length_write.
  - intros a'. apply write_desc.
  - intros a' lvs' Hne. unfold entry. cbn [heap set_heap].
    apply entry_write_other. right. by intros ->.
Qed.

(** Setting a child under label values that start with [loc] changes the
    entries of [loc] only, however the call ends. *)
Lemma WithLabelValues_Set_others loc a lvs v :
  head lvs = Some loc ->
  preserves (others_kept loc)
    (bind (WithLabelValues a lvs) (fun child => Set_ (W := W) child v)).
Proof.
  intros Hl st o st'. unfold bind, WithLabelValues, Set_.
  destruct (heap st !! a) as [gv|] eqn:E; [|intros [= <- <-]; reflexivity].
  destruct (length lvs =? _)%nat; [|intros [= <- <-]; reflexivity].
  destruct (prometheus.children gv !! lvs) as [v0|] eqn:Ec; cbn [fst snd heap set_heap].
  - rewrite E. intros [= <- <-].
    pose proof (others_kept_write loc a lvs v st Hl) as Ho. unfold write in Ho.
    by rewrite E in Ho.
  - rewrite list_lookup_insert_eq by (by eapply lookup_lt_Some).
    intros [= <- <-]. cbn [prometheus.gaugeDesc prometheus.children].
    pose proof (others_kept_write loc a lvs v st Hl) as Ho. unfold write in Ho.
    rewrite E in Ho. unfold set_heap in *. cbn [world trace heap registry] in *.
    by rewrite list_insert_insert_eq, insert_insert_eq.
Qed.

Lemma update_metric_others loc fc k a :
  preserves (others_kept loc) (Timer.update_metric (W := W) loc fc k a).
Proof.
  unfold Timer.update_metric.
  destruct (getValueByFieldName k (forecast.Currently fc)) as [v [e|]].
  - apply log_Printf_quiet; apply _.
  - by apply WithLabelValues_Set_others.
Qed.

Lemma for_range_map_preserves {V} (R : relation (state W)) `{!Quiet R}
    (m : gmap string V) (body : string -> V -> M W unit) :
  (forall k v, preserves R (body k v)) -> preserves R (for_range_map m body).
Proof.
  intros Hb. unfold for_range_map.
  apply preserves_bind; [apply _ | apply preserves_call; intros; apply quiet_world |].
  intros ks. apply preserves_for_range; [apply _|]. intros k _.
  destruct (m !! k); [apply Hb | apply preserves_ret; apply _].
Qed.

(** Processing a location touches the entries of that location only:
    however it ends, every other entry is as it was. *)
Lemma update_location_others config gauges loc :
  preserves (others_kept loc) (Timer.update_location (H := H) config gauges loc).
Proof.
  unfold Timer.update_location.
  apply preserves_bind; [apply _ | apply fmt_Printf_quiet; apply _ | intros _].
  apply preserves_bind; [apply _ | apply getWeather_quiet; apply _ | intros [fc|err]].
  - apply for_range_map_preserves; [apply _|]. intros k a. apply update_metric_others.
  - apply log_Printf_quiet; apply _.
Qed.
End TimerFacts.

(** ** The two gauges of [src/main.go] *)

Section MainGoFacts.
Context {W : Type} `{Env W}.
Implicit Types st : state W.

Lemma MainGo_update_location_Err config t a loc st err st1 :
  getWeather (MainGo.GoogleMapsAPIKey config) (MainGo.DarkskyAPIKey config) loc
    (add_event (Printed "Getting weather for %s\n" [AString loc]) st)
  = (Returned (Err err), st1) ->
  MainGo.update_location config t a loc st
  = (Returned tt,
     add_event (Logged "Failed to get weather for '%s': %v" [AString loc; AError err]) st1).
Proof.
  intros Hw. unfold MainGo.update_location.
  unfold fmt_Printf, emit, bind at 1. cbv beta iota.
  by rewrite (bind_Returned _ _ _ _ _ Hw).
Qed.

Lemma two_gauges_distinct h t a : gauges_ok h (two_gauges t a) -> t <> a.
Proof.
  intros Hok ->.
  assert ("temperature" = "apparent_temperature") as E; [|done].
  eapply (gauges_ok_inj h (two_gauges a a)); [done| |]; unfold two_gauges.
  - apply lookup_insert_eq.
  - rewrite lookup_insert_ne by done. apply lookup_insert_eq.
Qed.

Lemma MainGo_update_location_Ok config t a loc st fc st1 :
  gauges_ok (heap st) (two_gauges t a) ->
  getWeather (MainGo.GoogleMapsAPIKey config) (MainGo.DarkskyAPIKey config) loc
    (add_event (Printed "Getting weather for %s\n" [AString loc]) st)
  = (Returned (Ok fc), st1) ->
  MainGo.update_location config t a loc st
  = (Returned tt,
     set_heap (write a (labelsOf loc fc)
                 (forecast.ApparentTemperature (forecast.Currently fc))
                 (write t (labelsOf loc fc)
                    (forecast.Temperature (forecast.Currently fc)) (heap st)))
              st1).
Proof.
  intros Hok Hw. unfold MainGo.update_location.
  unfold fmt_Printf, emit, bind at 1. cbv beta iota.
  rewrite (bind_Returned _ _ _ _ _ Hw). cbv beta iota.
  destruct (getWeather_quiet same_store _ _ _ _ _ _ Hw) as [Hh _].
  cbn [heap add_event] in Hh.
  assert (Ht : two_gauges t a !! "temperature" = Some t) by apply lookup_insert_eq.
  assert (Ha : two_gauges t a !! "apparent_temperature" = Some a).
  { unfold two_gauges. rewrite lookup_insert_ne by done. apply lookup_insert_eq. }
  rewrite <- Hh in Hok.
  destruct (gauges_ok_labels _ _ _ _ Hok Ht) as (gvt & Et & Lt).
  rewrite (WithLabelValues_Set_then t loc fc _ st1 gvt _ Et Lt).
  pose proof (gauges_ok_write _ _ t (labelsOf loc fc)
                (forecast.Temperature (forecast.Currently fc)) Hok) as Hok2.
  destruct (gauges_ok_labels _ _ _ _ Hok2 Ha) as (gva & Ea & La).
  etransitivity;
    [exact (WithLabelValues_Set a loc fc _
              (set_heap (write t (labelsOf loc fc)
                           (forecast.Temperature (forecast.Currently fc)) (heap st1)) st1)
              gva Ea La)|].
  cbn [heap set_heap]. by rewrite Hh.
Qed.

Lemma MainGo_two_sets_others loc t a lvs v1 v2 :
  head lvs = Some loc ->
  preserves (others_kept loc)
    (bind (WithLabelValues t lvs)
       (fun child => bind (Set_ child v1)
          (fun _ => bind (WithLabelValues a lvs) (fun child => Set_ (W := W) child v2)))).
Proof.
  intros Hl st o st' E.
  pose proof (WithLabelValues_Set_others loc t lvs v1 Hl st) as H1.
  unfold bind in E, H1 |- *.
  destruct (WithLabelValues t lvs st) as [[child|?|?] st1].
  - destruct (Set_ child v1 st1) as [[[]|?|?] st2] eqn:E2.
    + etransitivity; [by eapply H1|].
      eapply (WithLabelValues_Set_others loc a lvs v2 Hl). unfold bind. exact E.
    + injection E as <- <-. by eapply H1.
    + injection E as <- <-. by eapply H1.
  - injection E as <- <-. by eapply H1.
  - injection E as <- <-. by eapply H1.
Qed.

Lemma MainGo_update_location_others config t a loc :
  preserves (others_kept loc) (MainGo.update_location (H := H) config t a loc).
Proof.
  unfold MainGo.update_location.
  apply preserves_bind; [apply _ | apply fmt_Printf_quiet; apply _ | intros _].
  apply preserves_bind; [apply _ | apply getWeather_quiet; apply _ | intros [fc|err]].
  - by apply MainGo_two_sets_others.
  - apply log_Printf_quiet; apply _.
Qed.
End MainGoFacts.

(** ** The claims about extraction *)

Section ExtractionClaims.
Context {W : Type} `{Env W}.
Implicit Types st : state W.

(** C6: [getValueByFieldName] is a total function over a closed
    enumeration.  For each of the six names [temperature],
    [apparent_temperature], [wind_speed], [cloud_cover], [humidity] and
    [precip_intensity] it returns the field of that name of the data point
    and a nil error; for every other name it returns 0 and the error
    "unsupported field '<name>'".  It is a function of its two arguments
    alone: it reads and changes no state, and it cannot panic.  Its callers,
    the collector's and the timer's loop over the configured names, take
    the error as a reason to skip the name: they log a warning, change
    nothing else, and go on. *)
Theorem C6_getValueByFieldName_closed_enumeration
    (field : string) (dp : forecast.DataPoint) :
  getValueByFieldName "temperature" dp = (forecast.Temperature dp, None)
  /\ getValueByFieldName "apparent_temperature" dp = (forecast.ApparentTemperature dp, None)
  /\ getValueByFieldName "wind_speed" dp = (forecast.WindSpeed dp, None)
  /\ getValueByFieldName "cloud_cover" dp = (forecast.CloudCover dp, None)
  /\ getValueByFieldName "humidity" dp = (forecast.Humidity dp, None)
  /\ getValueByFieldName "precip_intensity" dp = (forecast.PrecipIntensity dp, None)
  /\ (field ∉ supported_fields ->
      getValueByFieldName field dp
      = (zero64, Some (errorString ("unsupported field '" +:+ field +:+ "'"))))
  /\ (field ∉ supported_fields ->
      forall (st : state W) (ch : nat) (loc : string)
             (fc : forecast.Forecast) (desc : prometheus.Desc) (gauge : nat),
        let warning :=
          Logged "Warning: skipping '%s': %v"
            [AString field;
             AError (errorString ("unsupported field '" +:+ field +:+ "'"))] in
        Collector.collect_metric ch loc fc field desc st
        = (Returned tt, add_event warning st)
        /\ Timer.update_metric loc fc field gauge st
           = (Returned tt, add_event warning st)).
Proof.
  do 6 (split; [reflexivity|]). split; [apply getValueByFieldName_unsupported|].
  intros Hn st ch loc fc desc gauge warning.
  unfold Collector.collect_metric, Timer.update_metric.
  rewrite (getValueByFieldName_unsupported field (forecast.Currently fc) Hn).
  split; reflexivity.
Qed.

Lemma observed_None_decode (field : string) (o : forecast.Observation) :
  field ∈ supported_fields -> observed field o = None ->
  getValueByFieldName field (forecast.decode o) = (zero64, None).
Proof.
  intros Hs. unfold observed, getValueByFieldName, forecast.decode.
  destruct (supported_cases _ Hs) as [->|[->|[->|[->|[->| ->]]]]];
    cbn; by intros ->.
Qed.

Lemma decode_with_zero (field : string) (o : forecast.Observation) :
  field ∈ supported_fields -> observed field o = None ->
  observed field (with_field field zero64 o) = Some zero64
  /\ forecast.decode (with_field field zero64 o) = forecast.decode o.
Proof.
  intros Hs. unfold observed, with_field, forecast.decode.
  destruct (supported_cases _ Hs) as [->|[->|[->|[->|[->| ->]]]]];
    cbn; by intros ->.
Qed.

(** C9: a supported metric whose field the forecast service left out reads
    as 0 with a nil error, exactly as a reading of 0 does (the two decode
    to the same data point), and the collector publishes a sample of value
    0 for it. *)
Theorem C9_missing_field_published_as_zero
    (field : string) (o : forecast.Observation) (wc : WeatherCollector)
    (metrics : list string) (ch : nat) (loc : string) (fc : forecast.Forecast)
    (st st1 : state W) :
  field ∈ supported_fields ->
  observed field o = None ->
  forecast.Currently fc = forecast.decode o ->
  descs wc = Collector.getDescs metrics ->
  field ∈ metrics ->
  Collector.getWeather (gmapsAPIKey wc) (darkskyAPIKey wc) loc
    (add_event (Printed "Getting weather for %s\n" [AString loc]) st)
  = (Returned (Ok fc), st1) ->
  getValueByFieldName field (forecast.decode o) = (zero64, None)
  /\ observed field (with_field field zero64 o) = Some zero64
  /\ forecast.decode (with_field field zero64 o) = forecast.decode o
  /\ exists st',
      Collector.collect_location wc ch loc st = (Returned tt, st')
      /\ sample (weatherDesc field) loc fc zero64 ∈ sent ch (added st st').
Proof.
  intros Hs Ho Hfc Hd Hm Hw.
  pose proof (observed_None_decode _ _ Hs Ho) as Hv.
  destruct (decode_with_zero _ _ Hs Ho) as [Hz Hdec].
  repeat split; try done.
  destruct (collect_location_sent wc ch loc st fc st1 metrics Hd Hw) as (st' & Hrun & Hsent).
  exists st'. split; [done|]. apply Hsent. exists field, zero64.
  by rewrite Hfc.
Qed.

End ExtractionClaims.

(** ** The claims about one location *)

Section LocationClaims.
Context {W : Type} `{Env W}.
Implicit Types st : state W.

Lemma collect_location_Err wc ch loc st err st1 :
  Collector.getWeather (gmapsAPIKey wc) (darkskyAPIKey wc) loc
    (add_event (Printed "Getting weather for %s\n" [AString loc]) st)
  = (Returned (Err err), st1) ->
  Collector.collect_location wc ch loc st
  = (Returned tt,
     add_event (Logged "Failed to get weather for '%s': %v" [AString loc; AError err]) st1).
Proof.
  intros Hw. unfold Collector.collect_location.
  unfold fmt_Printf, emit, bind at 1. cbv beta iota.
  by rewrite (bind_Returned _ _ _ _ _ Hw).
Qed.

(** A location whose forecast failed adds no sample to any channel. *)
Lemma collect_location_Err_sent wc ch loc st err st1 :
  Collector.getWeather (gmapsAPIKey wc) (darkskyAPIKey wc) loc
    (add_event (Printed "Getting weather for %s\n" [AString loc]) st)
  = (Returned (Err err), st1) ->
  sent ch (added st
             (add_event (Logged "Failed to get weather for '%s': %v"
                                [AString loc; AError err]) st1)) = [].
Proof.
  intros Hw. apply adds_not_sent.
  transitivity (add_event (Printed "Getting weather for %s\n" [AString loc]) st);
    [by apply quiet_event|].
  etransitivity; [exact (Collector_getWeather_quiet _ _ _ _ _ _ _ Hw)|].
  by apply quiet_event.
Qed.

(** C2: a forecast whose unit system is not SI is discarded whole.
    [getWeather] (both variants) returns the error "units are not SI: got
    <units>" and no forecast; the caller then logs and goes on to the next
    location: the timers leave every gauge as it was, and the collector
    sends no sample, for that location in that cycle. *)
Theorem C2_unit_mismatch_discards_reading
    (k1 k2 loc : string) (l : Location) (fc : forecast.Forecast) (st st1 st2 : state W) :
  getLocation k1 loc (add_event (Printed "Getting weather for %s\n" [AString loc]) st)
  = (Returned (Ok l), st1) ->
  Get k2 (LatString l) (LngString l) "now" forecast.SI forecast.English st1
  = (Returned (Ok fc), st2) ->
  forecast.Units (forecast.flags fc) <> forecast.SI ->
  let err := errorString ("units are not SI: got " +:+ forecast.Units (forecast.flags fc)) in
  let before := add_event (Printed "Getting weather for %s\n" [AString loc]) st in
  getWeather k1 k2 loc before = (Returned (Err err), st2)
  /\ Collector.getWeather k1 k2 loc before
     = (Returned (Err err), add_event (Logged "Forecast: %+v" [AForecast fc]) st2)
  /\ (forall (config : MainGo.Config) (t a : nat),
         MainGo.GoogleMapsAPIKey config = k1 -> MainGo.DarkskyAPIKey config = k2 ->
         exists st',
           MainGo.update_location config t a loc st = (Returned tt, st')
           /\ heap st' = heap st)
  /\ (forall (config : Timer.Config) (gauges : gmap string nat),
         Timer.GoogleMapsAPIKey config = k1 -> Timer.DarkskyAPIKey config = k2 ->
         exists st',
           Timer.update_location config gauges loc st = (Returned tt, st')
           /\ heap st' = heap st)
  /\ (forall (wc : WeatherCollector) (ch : nat),
         gmapsAPIKey wc = k1 -> darkskyAPIKey wc = k2 ->
         exists st',
           Collector.collect_location wc ch loc st = (Returned tt, st')
           /\ sent ch (added st st') = []).
Proof.
  intros Hl Hg Hu err before.
  destruct (getWeather_units_mismatch _ _ _ _ _ _ _ _ Hl Hg Hu) as [Hw Hc].
  split; [exact Hw|]. split; [exact Hc|].
  assert (Hh : heap st2 = heap st).
  { destruct (getWeather_quiet same_store _ _ _ _ _ _ Hw) as [Hh _]. exact Hh. }
  split; [|split].
  - intros config t a <- <-. eexists. split; [by apply MainGo_update_location_Err|].
    exact Hh.
  - intros config gauges <- <-. eexists. split; [by apply update_location_Err|].
    exact Hh.
  - intros wc ch <- <-. eexists. split; [by apply collect_location_Err|].
    exact (collect_location_Err_sent wc ch loc st _ _ Hc).
Qed.

End LocationClaims.

(** ** The claims about the store *)

Section StoreClaims.
Context {W : Type} `{Env W}.
Implicit Types st : state W.

#[global] Instance kept_preorder loc : PreOrder (kept (W := W) loc).
Proof.
  split; [by intros st a lvs _|].
  intros a b c H1 H2 x lvs Hl. by rewrite H2, H1.
Qed.

Lemma same_store_kept loc st st' : same_store st st' -> kept loc st st'.
Proof. intros [Hh _] a lvs _. unfold entry. by rewrite Hh. Qed.

Lemma others_kept_kept l loc st st' : l <> loc -> others_kept l st st' -> kept loc st st'.
Proof. intros Hne (_ & _ & He) a lvs Hl. apply He. rewrite Hl. congruence. Qed.

Lemma kept_event loc e st : kept loc st (add_event e st).
Proof. by intros a lvs _. Qed.

(** One cycle over the locations, where every fetch for [loc] fails. *)
Lemma for_range_kept (getW : string -> M W (result forecast.Forecast))
    (body : string -> M W unit) loc :
  (forall l, preserves (others_kept l) (body l)) ->
  (forall l st err st1,
      getW l (add_event (Printed "Getting weather for %s\n" [AString l]) st)
      = (Returned (Err err), st1) ->
      same_store st (snd (body l st))) ->
  forall locs st o st',
    for_range locs body st = (o, st') ->
    fetch_fails getW body loc locs st ->
    kept loc st st'.
Proof.
  intros Hothers Hfail locs. induction locs as [|l locs IH]; intros st o st'.
  - intros [= <- <-] _. reflexivity.
  - cbn [for_range fetch_fails]. unfold bind. intros Hrun [Hl Hrest].
    assert (Hstep : kept loc st (snd (body l st))).
    { destruct (decide (l = loc)) as [Heq|Hne].
      - destruct (Hl Heq) as (err & st1 & Hw). apply same_store_kept. by eapply Hfail.
      - apply (others_kept_kept l); [done|]. eapply Hothers. apply surjective_pairing. }
    destruct (body l st) as [[[]|msg|c] st1]; cbn [snd] in *.
    + etransitivity; [exact Hstep | by eapply IH].
    + by injection Hrun as <- <-.
    + by injection Hrun as <- <-.
Qed.

Lemma sleep_same_store flags st o st' :
  bind (log_Printf (W := W) "Sleeping %s..." [ADuration (flagSleepInterval flags)])
       (fun _ => time_Sleep (flagSleepInterval flags)) st = (o, st') ->
  same_store st st'.
Proof.
  revert st o st'. change (preserves same_store
    (bind (log_Printf (W := W) "Sleeping %s..." [ADuration (flagSleepInterval flags)])
          (fun _ => time_Sleep (flagSleepInterval flags)))).
  apply preserves_bind; [apply _ | apply log_Printf_quiet; apply _ | intros _].
  apply time_Sleep_quiet; apply _.
Qed.

Lemma timer_cycle_kept flags config gauges loc st o st' :
  Timer.cycle flags config gauges st = (o, st') ->
  fetch_fails
    (getWeather (Timer.GoogleMapsAPIKey config) (Timer.DarkskyAPIKey config))
    (Timer.update_location config gauges) loc (Timer.Locations config)
    (add_event (Logged "Fetching weather..." []) st) ->
  kept loc st st'.
Proof.
  intros Hrun Hf. unfold Timer.cycle in Hrun.
  unfold log_Printf at 1, emit, bind at 1 in Hrun. cbv beta iota in Hrun.
  transitivity (add_event (Logged "Fetching weather..." []) st); [apply kept_event|].
  unfold bind at 1 in Hrun.
  assert (Hloop : forall o1 st1,
             for_range (Timer.Locations config) (Timer.update_location config gauges)
               (add_event (Logged "Fetching weather..." []) st) = (o1, st1) ->
             kept loc (add_event (Logged "Fetching weather..." []) st) st1).
  { intros o1 st1 Efor. eapply for_range_kept; [| |exact Efor|exact Hf].
    - intros l. apply update_location_others.
    - intros l st0 err st2 Hw. rewrite (update_location_Err _ _ _ _ _ _ Hw). cbn [snd].
      destruct (getWeather_quiet same_store _ _ _ _ _ _ Hw) as [Hh Hr]. by split. }
  destruct (for_range _ _ _) as [[[]|msg|c] st1] eqn:Efor.
  - transitivity st1; [by eapply Hloop|].
    apply same_store_kept. by eapply sleep_same_store.
  - injection Hrun as <- <-. by eapply Hloop.
  - injection Hrun as <- <-. by eapply Hloop.
Qed.

Lemma maingo_cycle_kept flags config t a loc st o st' :
  MainGo.cycle flags config t a st = (o, st') ->
  fetch_fails
    (getWeather (MainGo.GoogleMapsAPIKey config) (MainGo.DarkskyAPIKey config))
    (MainGo.update_location config t a) loc (MainGo.Locations config)
    (add_event (Logged "Fetching weather..." []) st) ->
  kept loc st st'.
Proof.
  intros Hrun Hf. unfold MainGo.cycle in Hrun.
  unfold log_Printf at 1, emit, bind at 1 in Hrun. cbv beta iota in Hrun.
  transitivity (add_event (Logged "Fetching weather..." []) st); [apply kept_event|].
  unfold bind at 1 in Hrun.
  assert (Hloop : forall o1 st1,
             for_range (MainGo.Locations config) (MainGo.update_location config t a)
               (add_event (Logged "Fetching weather..." []) st) = (o1, st1) ->
             kept loc (add_event (Logged "Fetching weather..." []) st) st1).
  { intros o1 st1 Efor. eapply for_range_kept; [| |exact Efor|exact Hf].
    - intros l. apply MainGo_update_location_others.
    - intros l st0 err st2 Hw. rewrite (MainGo_update_location_Err _ _ _ _ _ _ _ Hw).
      cbn [snd]. destruct (getWeather_quiet same_store _ _ _ _ _ _ Hw) as [Hh Hr]. by split. }
  destruct (for_range _ _ _) as [[[]|msg|c] st1] eqn:Efor.
  - transitivity st1; [by eapply Hloop|].
    apply same_store_kept. by eapply sleep_same_store.
  - injection Hrun as <- <-. by eapply Hloop.
  - injection Hrun as <- <-. by eapply Hloop.
Qed.

(** C4: in a cycle where every fetch for a location fails, no entry of
    that location is written or changed: after the cycle, each entry of
    the location is what it was before (an entry of an earlier cycle stays,
    an absent one stays absent), whatever the cycle did for the other
    locations and however it ended.  A fetch fails, that is [getWeather]
    returns an error, when the location is not resolved and when the
    forecast request fails. *)
Theorem C4_failed_location_keeps_its_entries :
  (forall (flags : Flags) (config : Timer.Config) (gauges : gmap string nat)
          (loc : string) (st : state W) (o : outcome unit) (st' : state W),
      Timer.cycle flags config gauges st = (o, st') ->
      fetch_fails
        (getWeather (Timer.GoogleMapsAPIKey config) (Timer.DarkskyAPIKey config))
        (Timer.update_location config gauges) loc (Timer.Locations config)
        (add_event (Logged "Fetching weather..." []) st) ->
      forall (gauge : nat) (lvs : list string),
        head lvs = Some loc -> entry st' gauge lvs = entry st gauge lvs)
  /\ (forall (flags : Flags) (config : MainGo.Config) (t a : nat)
             (loc : string) (st : state W) (o : outcome unit) (st' : state W),
         MainGo.cycle flags config t a st = (o, st') ->
         fetch_fails
           (getWeather (MainGo.GoogleMapsAPIKey config) (MainGo.DarkskyAPIKey config))
           (MainGo.update_location config t a) loc (MainGo.Locations config)
           (add_event (Logged "Fetching weather..." []) st) ->
         forall (gauge : nat) (lvs : list string),
           head lvs = Some loc -> entry st' gauge lvs = entry st gauge lvs)
  /\ (forall (k1 k2 loc : string) (st : state W) (err : error) (st1 : state W),
         getLocation k1 loc st = (Returned (Err err), st1) ->
         exists err', getWeather k1 k2 loc st = (Returned (Err err'), st1))
  /\ (forall (k1 k2 loc : string) (st : state W) (l : Location) (st1 : state W)
             (err : error) (st2 : state W),
         getLocation k1 loc st = (Returned (Ok l), st1) ->
         Get k2 (LatString l) (LngString l) "now" forecast.SI forecast.English st1
         = (Returned (Err err), st2) ->
         exists err', getWeather k1 k2 loc st = (Returned (Err err'), st2)).
Proof.
  split; [|split; [|split]].
  - intros flags config gauges loc st o st' Hrun Hf. by eapply timer_cycle_kept.
  - intros flags config t a loc st o st' Hrun Hf. by eapply maingo_cycle_kept.
  - intros k1 k2 loc st err st1 Hl. eexists.
    exact (proj1 (getWeather_resolution_fails k1 k2 loc st err st1 Hl)).
  - intros k1 k2 loc st l st1 err st2 Hl Hg. eexists.
    exact (proj1 (getWeather_fetch_fails k1 k2 loc st l st1 err st2 Hl Hg)).
Qed.
End StoreClaims.

(** ** Last write wins, per tuple of label values *)

Section LastWrite.
Context {W : Type} `{Env W}.
Implicit Types st : state W.

Lemma timer_update_entries config gauges loc fc st st1 :
  gauges_ok (heap st) gauges ->
  getWeather (Timer.GoogleMapsAPIKey config) (Timer.DarkskyAPIKey config) loc
    (add_event (Printed "Getting weather for %s\n" [AString loc]) st)
  = (Returned (Ok fc), st1) ->
  exists st',
    Timer.update_location config gauges loc st = (Returned tt, st')
    /\ gauges_ok (heap st') gauges
    /\ (forall k a v, gauges !! k = Some a ->
          getValueByFieldName k (forecast.Currently fc) = (v, None) ->
          entry st' a (labelsOf loc fc) = Some v)
    /\ (forall a lvs, lvs <> labelsOf loc fc -> entry st' a lvs = entry st a lvs).
Proof.
  intros Hok Hw. eexists. split; [by apply update_location_Ok|].
  unfold entry. cbn [heap set_heap]. split; [by apply gauges_ok_foldl|]. split.
  - intros k a v Hk Hv. apply (foldl_update_writes gauges loc fc _ _ k a v); [done| |done..].
    apply range_order_keys. eauto.
  - intros a lvs Hne. by apply foldl_update_frame.
Qed.

Lemma maingo_update_entries config t a loc fc st st1 :
  gauges_ok (heap st) (two_gauges t a) ->
  getWeather (MainGo.GoogleMapsAPIKey config) (MainGo.DarkskyAPIKey config) loc
    (add_event (Printed "Getting weather for %s\n" [AString loc]) st)
  = (Returned (Ok fc), st1) ->
  exists st',
    MainGo.update_location config t a loc st = (Returned tt, st')
    /\ gauges_ok (heap st') (two_gauges t a)
    /\ entry st' t (labelsOf loc fc) = Some (forecast.Temperature (forecast.Currently fc))
    /\ entry st' a (labelsOf loc fc)
       = Some (forecast.ApparentTemperature (forecast.Currently fc))
    /\ (forall g lvs, lvs <> labelsOf loc fc -> entry st' g lvs = entry st g lvs).
Proof.
  intros Hok Hw. eexists. split; [by apply MainGo_update_location_Ok|].
  unfold entry. cbn [heap set_heap].
  pose proof (two_gauges_distinct _ _ _ Hok) as Hne.
  assert (Ht : two_gauges t a !! "temperature" = Some t) by apply lookup_insert_eq.
  assert (Ha : two_gauges t a !! "apparent_temperature" = Some a).
  { unfold two_gauges. rewrite lookup_insert_ne by done. apply lookup_insert_eq. }
  destruct (gauges_ok_labels _ _ _ _ Hok Ht) as (gvt & Et & _).
  pose proof (gauges_ok_write _ _ t (labelsOf loc fc)
                (forecast.Temperature (forecast.Currently fc)) Hok) as Hok2.
  destruct (gauges_ok_labels _ _ _ _ Hok2 Ha) as (gva & Ea & _).
  split; [by apply gauges_ok_write|]. split; [|split].
  - rewrite entry_write_other by (by left). apply entry_write. eauto.
  - apply entry_write. eauto.
  - intros g lvs Hl. by rewrite !entry_write_other by (by right).
Qed.

End LastWrite.


(** ** Where the coordinates of a sample come from *)


(** ** What a run adds to the trace *)

Section Traces.
Context {W : Type} `{Env W}.
Implicit Types st : state W.

Lemma adds_emit ok e : ok e = true -> preserves (adds (W := W) ok) (emit e).
Proof. intros He st o st' [= <- <-]. exists [e]. simpl. by rewrite He. Qed.

(** A step that leaves the trace alone adds nothing. *)
Lemma adds_silent {A} ok (m : M W A) :
  (forall st, trace (snd (m st)) = trace st) -> preserves (adds ok) m.
Proof.
  intros Hm st o st' E. exists []. specialize (Hm st). rewrite E in Hm.
  simpl in *. by rewrite app_nil_r.
Qed.

Lemma adds_call {A} ok (f : W -> A * W) : preserves (adds ok) (call f).
Proof. apply adds_silent. intros st. unfold call. by destruct (f (world st)). Qed.

Lemma server_not_started st st' :
  adds not_listening st st' -> server_started (added st st') = false.
Proof.
  intros (evs & E & F). rewrite (added_app _ _ _ E). unfold server_started. clear E.
  induction evs as [|e evs IH]; [done|]. simpl in *.
  apply andb_prop in F as [He F]. rewrite (IH F).
  unfold not_listening in He. by destruct (listening e).
Qed.

Lemma upstream_calls_none st st' :
  adds not_upstream st st' -> upstream_calls (added st st') = [].
Proof.
  intros (evs & E & F). rewrite (added_app _ _ _ E). unfold upstream_calls. clear E.
  induction evs as [|e evs IH]; [done|]. simpl in *.
  apply andb_prop in F as [He F]. rewrite (IH F).
  unfold not_upstream in He. by destruct (upstream e).
Qed.

Lemma NewGaugeVec_adds ok opts labelNames :
  preserves (adds ok) (NewGaugeVec (H := H) opts labelNames).
Proof. by apply adds_silent. Qed.

Lemma GaugeVec_Describe_adds ok gauge :
  preserves (adds ok) (GaugeVec_Describe (W := W) gauge).
Proof.
  apply adds_silent. intros st. unfold GaugeVec_Describe. by destruct (heap st !! gauge).
Qed.

Lemma Register_adds ok describe c :
  preserves (adds ok) describe -> preserves (adds ok) (Register (H := H) describe c).
Proof.
  intros Hd. unfold Register.
  apply preserves_bind; [apply _ | done | intros ds].
  apply preserves_bind; [apply _ | apply adds_call | intros [err|]].
  - apply preserves_ret; apply _.
  - by apply adds_silent.
Qed.

(** Collecting starts no server. *)
Lemma Collect_not_listening wc ch :
  preserves (adds not_listening) (Collector.Collect (H := H) wc ch).
Proof.
  unfold Collector.Collect. apply preserves_for_range; [apply _|]. intros loc _.
  unfold Collector.collect_location.
  apply preserves_bind; [apply _ | apply fmt_Printf_quiet; apply _ | intros _].
  apply preserves_bind;
    [apply _ | apply Collector_getWeather_quiet; apply _ | intros [fc|err]].
  - apply for_range_map_preserves; [apply _|]. intros k d.
    unfold Collector.collect_metric.
    destruct (getValueByFieldName k (forecast.Currently fc)) as [v [e|]].
    + apply log_Printf_quiet; apply _.
    + apply preserves_bind; [apply _ | | intros m; by apply adds_emit].
      unfold MustNewConstMetric. destruct (prometheus.err d); [apply preserves_panic; apply _|].
      destruct (_ =? _)%nat; [apply preserves_ret | apply preserves_panic]; apply _.
  - apply log_Printf_quiet; apply _.
Qed.

Lemma Describe_not_listening wc :
  preserves (adds not_listening) (Collector.Describe (H := H) wc).
Proof.
  intros st o st' E. unfold Collector.Describe in E.
  destruct (Collector.Collect wc Collector.describeChan st) as [[[]|msg|c] st1] eqn:Ec;
    injection E as <- <-; by eapply Collect_not_listening.
Qed.

(** *** [LoadConfig] *)

Lemma LoadConfig_read_fails {Config} `{Unmarshal Config} filepath st err st1 :
  ReadFile filepath st = (Returned (Err err), st1) ->
  LoadConfig (Config := Config) filepath st
  = (Returned (Err (wrapError ("failed to read config file: " +:+ Error err) err)), st1).
Proof. intros E. unfold LoadConfig. by rewrite (bind_Returned _ _ _ _ _ E). Qed.

Lemma LoadConfig_parse_fails {Config} `{Unmarshal Config} filepath st data err st1 :
  ReadFile filepath st = (Returned (Ok data), st1) ->
  json_Unmarshal (T := Config) data = Err err ->
  LoadConfig (Config := Config) filepath st
  = (Returned (Err (wrapError ("failed to unmarshal JSON config: " +:+ Error err) err)), st1).
Proof.
  intros E Hj. unfold LoadConfig. rewrite (bind_Returned _ _ _ _ _ E). cbv beta iota.
  by rewrite Hj.
Qed.

Lemma LoadConfig_not_listening {Config} `{Unmarshal Config} filepath st o st1 :
  LoadConfig (Config := Config) filepath st = (o, st1) -> adds not_listening st st1.
Proof. apply (LoadConfig_quiet (adds not_listening)). Qed.
End Traces.

(** ** Startup *)

Section Running.
Context {W : Type}.
Implicit Types st : state W.

Lemma run_ret {A B} (a : A) (k : A -> M W B) st : bind (ret a) k st = k a st.
Proof. reflexivity. Qed.

Lemma run_emit {B} e (k : unit -> M W B) st : bind (emit e) k st = k tt (add_event e st).
Proof. reflexivity. Qed.

Lemma run_fmt_Printf {B} format args (k : unit -> M W B) st :
  bind (fmt_Printf format args) k st = k tt (add_event (Printed format args) st).
Proof. reflexivity. Qed.

Lemma run_log_Printf {B} format args (k : unit -> M W B) st :
  bind (log_Printf format args) k st = k tt (add_event (Logged format args) st).
Proof. reflexivity. Qed.

Lemma run_log_Fatalf {A} format args st :
  log_Fatalf (A := A) format args st = (Exited 1, add_event (Logged format args) st).
Proof. reflexivity. Qed.

Lemma run_bind_log_Fatalf {A B} format args (k : A -> M W B) st :
  bind (log_Fatalf format args) k st = (Exited 1, add_event (Logged format args) st).
Proof. reflexivity. Qed.

Lemma run_http_Handle {B} pattern (k : unit -> M W B) st :
  bind (http_Handle pattern) k st = k tt (add_event (Handled pattern) st).
Proof. reflexivity. Qed.
End Running.

Ltac run :=
  repeat first
    [ rewrite run_ret | rewrite run_fmt_Printf | rewrite run_log_Printf
    | rewrite run_bind_log_Fatalf | rewrite run_log_Fatalf | rewrite run_http_Handle
    | rewrite run_emit ];
  cbv beta iota.

Section Startup.
Context {W : Type} `{Env W}.
Implicit Types st : state W.

Lemma fatal_intro st st1 e st' :
  adds not_listening st st1 -> st' = add_event e st1 -> chatter e = true ->
  fatal_before_serving st (Exited 1, st').
Proof.
  intros Ha -> He. split; [done|]. apply server_not_started. cbn [snd].
  etransitivity; [exact Ha|]. by apply quiet_event.
Qed.

Section CollectorMain.
Context `{Unmarshal Collector.Config}.

Lemma collector_main_load_fails flags st err st1 :
  LoadConfig (Config := Collector.Config) (flagConfigFile flags) st
  = (Returned (Err err), st1) ->
  fatal_before_serving st (Collector.main flags st).
Proof.
  intros HL. unfold Collector.main. rewrite (bind_Returned _ _ _ _ _ HL). run.
  eapply fatal_intro; [by eapply LoadConfig_not_listening | reflexivity | reflexivity].
Qed.

Lemma collector_main_no_location flags st config st1 :
  LoadConfig (flagConfigFile flags) st = (Returned (Ok config), st1) ->
  Collector.Locations config = [] ->
  fatal_before_serving st (Collector.main flags st).
Proof.
  intros HL Hl. unfold Collector.main. rewrite (bind_Returned _ _ _ _ _ HL). run.
  rewrite Hl. cbn [length Nat.eqb]. run.
  eapply fatal_intro; [|reflexivity|reflexivity].
  etransitivity; [by eapply LoadConfig_not_listening|].
  etransitivity; by apply quiet_event.
Qed.

Lemma collector_main_no_metric flags st config st1 :
  LoadConfig (flagConfigFile flags) st = (Returned (Ok config), st1) ->
  Collector.Metrics config = [] ->
  fatal_before_serving st (Collector.main flags st).
Proof.
  intros HL Hm. unfold Collector.main. rewrite (bind_Returned _ _ _ _ _ HL). run. rewrite Hm.
  destruct (Collector.Locations config) as [|l ls]; cbn [length Nat.eqb]; run.
  - eapply fatal_intro; [|reflexivity|reflexivity].
    etransitivity; [by eapply LoadConfig_not_listening|].
    etransitivity; by apply quiet_event.
  - eapply fatal_intro; [|reflexivity|reflexivity].
    etransitivity; [by eapply LoadConfig_not_listening|].
    etransitivity; by apply quiet_event.
Qed.

Lemma collector_main_register_fails flags st config st1 err st2 :
  LoadConfig (flagConfigFile flags) st = (Returned (Ok config), st1) ->
  Collector.Locations config <> [] ->
  Collector.Metrics config <> [] ->
  let wc := Collector.NewWeatherCollector (Collector.Locations config)
              (Collector.getDescs (Collector.Metrics config))
              (Collector.GoogleMapsAPIKey config) (Collector.DarkskyAPIKey config) in
  Register (Collector.Describe wc) (Weather wc)
    (add_event (Printed "Metrics (%d): %s"
                  [AInt (Z.of_nat (length (Collector.Metrics config)));
                   AStrings (Collector.Metrics config)])
       (add_event (Printed "Locations (%d): %s\n"
                     [AInt (Z.of_nat (length (Collector.Locations config)));
                      AStrings (Collector.Locations config)]) st1))
  = (Returned (Some err), st2) ->
  fatal_before_serving st (Collector.main flags st).
Proof.
  intros HL Hl Hm wc HR. unfold Collector.main. rewrite (bind_Returned _ _ _ _ _ HL). run.
  destruct (Collector.Locations config) as [|l ls] eqn:El; [done|].
  destruct (Collector.Metrics config) as [|m ms] eqn:Em; [done|].
  cbn [length Nat.eqb]. run. fold wc. rewrite (bind_Returned _ _ _ _ _ HR). run.
  eapply (fatal_intro st st2); [|reflexivity|reflexivity].
  etransitivity; [by eapply LoadConfig_not_listening|].
  etransitivity;
    [|eapply (Register_adds not_listening); [apply Describe_not_listening | exact HR]].
  etransitivity; by apply quiet_event.
Qed.
End CollectorMain.

Section TimerMain.
Context `{Unmarshal Timer.Config}.

Lemma new_gauges_app (pre post : list string) :
  forall (gauges : gmap string nat) st,
    Timer.new_gauges (pre ++ post) gauges st
    = bind (Timer.new_gauges pre gauges) (fun g => Timer.new_gauges post g) st.
Proof.
  induction pre as [|key pre IH]; intros gauges st; [reflexivity|].
  cbn [app Timer.new_gauges]. unfold bind in *.
  destruct (NewGaugeVec _ _ st) as [[gauge|?|?] s1]; [|done..].
  destruct (Register _ _ s1) as [[[err|]|?|?] s2]; first [done | apply IH].
Qed.

Lemma new_gauges_not_listening (metrics : list string) :
  forall (gauges : gmap string nat),
    preserves (adds not_listening) (Timer.new_gauges (H := H) metrics gauges).
Proof.
  induction metrics as [|key metrics IH]; intros gauges; cbn [Timer.new_gauges].
  - apply preserves_ret; apply _.
  - apply preserves_bind; [apply _ | apply NewGaugeVec_adds | intros gauge].
    apply preserves_bind;
      [apply _ | apply Register_adds, GaugeVec_Describe_adds | intros [err|]].
    + apply log_Fatalf_quiet; apply _.
    + apply IH.
Qed.

Lemma timer_main_load_fails flags st err st1 :
  LoadConfig (Config := Timer.Config) (flagConfigFile flags) st
  = (Returned (Err err), st1) ->
  fatal_before_serving st (Timer.main flags st).
Proof.
  intros HL. unfold Timer.main. rewrite (bind_Returned _ _ _ _ _ HL). run.
  eapply fatal_intro; [by eapply LoadConfig_not_listening | reflexivity | reflexivity].
Qed.

Lemma timer_main_no_location flags st config st1 :
  LoadConfig (flagConfigFile flags) st = (Returned (Ok config), st1) ->
  Timer.Locations config = [] ->
  fatal_before_serving st (Timer.main flags st).
Proof.
  intros HL Hl. unfold Timer.main. rewrite (bind_Returned _ _ _ _ _ HL). run.
  rewrite Hl. cbn [length Nat.eqb]. run.
  eapply fatal_intro; [|reflexivity|reflexivity].
  etransitivity; [by eapply LoadConfig_not_listening|].
  etransitivity; by apply quiet_event.
Qed.

Lemma timer_main_no_metric flags st config st1 :
  LoadConfig (flagConfigFile flags) st = (Returned (Ok config), st1) ->
  Timer.Metrics config = [] ->
  fatal_before_serving st (Timer.main flags st).
Proof.
  intros HL Hm. unfold Timer.main. rewrite (bind_Returned _ _ _ _ _ HL). run. rewrite Hm.
  destruct (Timer.Locations config) as [|l ls]; cbn [length Nat.eqb]; run.
  - eapply fatal_intro; [|reflexivity|reflexivity].
    etransitivity; [by eapply LoadConfig_not_listening|].
    etransitivity; by apply quiet_event.
  - eapply fatal_intro; [|reflexivity|reflexivity].
    etransitivity; [by eapply LoadConfig_not_listening|].
    etransitivity; by apply quiet_event.
Qed.

(** The gauge of [key] is the first that the registry refuses. *)
Lemma timer_main_register_fails flags st config st1 pre key post gauges st2 err st3 :
  LoadConfig (flagConfigFile flags) st = (Returned (Ok config), st1) ->
  Timer.Locations config <> [] ->
  Timer.Metrics config = pre ++ key :: post ->
  Timer.new_gauges pre ∅
    (add_event (Printed "Metrics (%d): %s"
                  [AInt (Z.of_nat (length (Timer.Metrics config)));
                   AStrings (Timer.Metrics config)])
       (add_event (Printed "Locations (%d): %s\n"
                     [AInt (Z.of_nat (length (Timer.Locations config)));
                      AStrings (Timer.Locations config)]) st1))
  = (Returned gauges, st2) ->
  Register (GaugeVec_Describe (length (heap st2))) (GaugeVecAt (length (heap st2)))
    (snd (NewGaugeVec
            {| prometheus.Name := "weather_" +:+ key;
               prometheus.Help := "Weather forecast - " +:+ underscores_to_spaces key |}
            gaugeLabels st2))
  = (Returned (Some err), st3) ->
  fatal_before_serving st (Timer.main flags st).
Proof.
  intros HL Hl Hm Hpre HR. unfold Timer.main. rewrite (bind_Returned _ _ _ _ _ HL). run.
  destruct (Timer.Locations config) as [|l ls] eqn:El; [done|].
  assert (Hlen : (length (Timer.Metrics config) =? 0)%nat = false).
  { rewrite Hm, length_app. cbn [length]. apply Nat.eqb_neq. lia. }
  rewrite Hlen. cbn [length Nat.eqb]. run.
  assert (Hng : Timer.new_gauges (Timer.Metrics config) ∅
                  (add_event (Printed "Metrics (%d): %s"
                                [AInt (Z.of_nat (length (Timer.Metrics config)));
                                 AStrings (Timer.Metrics config)])
                     (add_event (Printed "Locations (%d): %s\n"
                                   [AInt (Z.of_nat (length (l :: ls))); AStrings (l :: ls)])
                        st1))
                = (Exited 1,
                   add_event (Logged "Failed to register weather %s gauge: %v"
                                [AString key; AError err]) st3)).
  { rewrite Hm at 1. rewrite new_gauges_app.
    rewrite (bind_Returned _ _ _ _ _ Hpre). cbn [Timer.new_gauges].
    unfold bind at 1. cbn [NewGaugeVec]. cbn [NewGaugeVec snd] in HR.
    rewrite (bind_Returned _ _ _ _ _ HR). reflexivity. }
  rewrite (bind_Exited _ _ _ _ _ Hng).
  eapply (fatal_intro st st3); [|reflexivity|reflexivity].
  etransitivity; [by eapply LoadConfig_not_listening|].
  transitivity st2.
  - etransitivity; [|by eapply new_gauges_not_listening].
    etransitivity; by apply quiet_event.
  - etransitivity; [|eapply (Register_adds not_listening);
                      [apply GaugeVec_Describe_adds | exact HR]].
    eapply (NewGaugeVec_adds not_listening). apply surjective_pairing.
Qed.
End TimerMain.

Section MainGoMain.
Context `{Unmarshal MainGo.Config}.

Lemma maingo_main_load_fails flags st err st1 :
  LoadConfig (Config := MainGo.Config) (flagConfigFile flags) st
  = (Returned (Err err), st1) ->
  fatal_before_serving st (MainGo.main flags st).
Proof.
  intros HL. unfold MainGo.main. rewrite (bind_Returned _ _ _ _ _ HL). run.
  eapply fatal_intro; [by eapply LoadConfig_not_listening | reflexivity | reflexivity].
Qed.

(** The state in which [main] registers its two gauges: the configuration
    is printed and the two vectors are made. *)
Lemma maingo_main_register_fails flags st config st1 :
  LoadConfig (flagConfigFile flags) st = (Returned (Ok config), st1) ->
  let t := length (heap st1) in
  let a := (length (heap st1) + 1)%nat in
  let made :=
    set_heap ((heap st1
               ++ [ {| prometheus.gaugeDesc :=
                         NewDesc "weather_temperature" "Weather forecast - temperature"
                                 gaugeLabels;
                       prometheus.children := ∅ |} ])
              ++ [ {| prometheus.gaugeDesc :=
                        NewDesc "weather_apparent_temperature"
                                "Weather forecast - apparent temperature" gaugeLabels;
                      prometheus.children := ∅ |} ])
      (add_event (Printed "Locations: %s\n" [AStrings (MainGo.Locations config)]) st1) in
  (forall err st2,
      Register (GaugeVec_Describe t) (GaugeVecAt t) made = (Returned (Some err), st2) ->
      fatal_before_serving st (MainGo.main flags st))
  /\ (forall st2 err st3,
         Register (GaugeVec_Describe t) (GaugeVecAt t) made = (Returned None, st2) ->
         Register (GaugeVec_Describe a) (GaugeVecAt a) st2 = (Returned (Some err), st3) ->
         fatal_before_serving st (MainGo.main flags st)).
Proof.
  intros HL t a made.
  assert (Hmain : MainGo.main flags st
    = bind (Register (GaugeVec_Describe t) (GaugeVecAt t))
        (fun err =>
           bind (match err with
                 | Some err =>
                     log_Fatalf "Failed to register weather temperature gauge gauge: %v"
                       [AError err]
                 | None => ret tt
                 end)
             (fun _ =>
                bind (Register (GaugeVec_Describe a) (GaugeVecAt a))
                  (fun err =>
                     bind (match err with
                           | Some err =>
                               log_Fatalf
                                 "Failed to register weather temperature gauge gauge: %v"
                                 [AError err]
                           | None => ret tt
                           end)
                       (fun _ =>
                          bind (emit Spawned)
                            (fun _ =>
                               bind (http_Handle (flagPath flags))
                                 (fun _ =>
                                    bind (log_Printf "Starting server on %s"
                                            [AString (flagListen flags)])
                                      (fun _ => http_ListenAndServe (flagListen flags)))))))) made).
  { unfold MainGo.main. rewrite (bind_Returned _ _ _ _ _ HL). run.
    unfold bind at 1. cbn [NewGaugeVec]. unfold bind at 1. cbn [NewGaugeVec heap set_heap].
    rewrite length_app. reflexivity. }
  assert (Hmade : adds not_listening st made).
  { etransitivity; [by eapply LoadConfig_not_listening|].
    transitivity (add_event (Printed "Locations: %s\n" [AStrings (MainGo.Locations config)])
                    st1); [by apply quiet_event|].
    exists []. split; [cbn; by rewrite app_nil_r | done]. }
  split.
  - intros err st2 HR. rewrite Hmain. rewrite (bind_Returned _ _ _ _ _ HR). run.
    eapply (fatal_intro st st2); [|reflexivity|reflexivity].
    etransitivity; [exact Hmade|].
    eapply (Register_adds not_listening); [apply GaugeVec_Describe_adds | exact HR].
  - intros st2 err st3 HR1 HR2. rewrite Hmain. rewrite (bind_Returned _ _ _ _ _ HR1). run.
    rewrite (bind_Returned _ _ _ _ _ HR2). run.
    eapply (fatal_intro st st3); [|reflexivity|reflexivity].
    etransitivity; [exact Hmade|].
    etransitivity;
      [eapply (Register_adds not_listening); [apply GaugeVec_Describe_adds | exact HR1]|].
    eapply (Register_adds not_listening); [apply GaugeVec_Describe_adds | exact HR2].
Qed.
End MainGoMain.
End Startup.

(** ** The claims about startup and about scrapes *)

Section StartupClaims.
Context {W : Type} `{Env W}.
Implicit Types st : state W.

(** C7: startup failures are fatal, and the server is not started.  In the
    two programs with a configurable metric list (the two files of
    part_000), [main] ends in [log.Fatalf] before [http.ListenAndServe]
    when the configuration cannot be loaded, when the location list is
    empty, when the metric list is empty, and when the registry refuses a
    collector.  In [src/main.go], which has no metric list and does not
    look at the length of the location list, [main] does so when the
    configuration cannot be loaded and when the registry refuses one of
    the two gauges.  [LoadConfig] fails when the file cannot be read and
    when its content cannot be decoded. *)
Theorem C7_startup_failures_are_fatal :
  (forall (U : Unmarshal Collector.Config) (flags : Flags) (st : state W),
      (forall err st1,
          LoadConfig (flagConfigFile flags) st = (Returned (Err err), st1) ->
          fatal_before_serving st (Collector.main flags st))
      /\ (forall config st1,
             LoadConfig (flagConfigFile flags) st = (Returned (Ok config), st1) ->
             Collector.Locations config = [] ->
             fatal_before_serving st (Collector.main flags st))
      /\ (forall config st1,
             LoadConfig (flagConfigFile flags) st = (Returned (Ok config), st1) ->
             Collector.Metrics config = [] ->
             fatal_before_serving st (Collector.main flags st))
      /\ (forall config st1 err st2,
             LoadConfig (flagConfigFile flags) st = (Returned (Ok config), st1) ->
             Collector.Locations config <> [] ->
             Collector.Metrics config <> [] ->
             (let wc := Collector.NewWeatherCollector (Collector.Locations config)
                          (Collector.getDescs (Collector.Metrics config))
                          (Collector.GoogleMapsAPIKey config)
                          (Collector.DarkskyAPIKey config) in
              Register (Collector.Describe wc) (Weather wc)
                (add_event (Printed "Metrics (%d): %s"
                              [AInt (Z.of_nat (length (Collector.Metrics config)));
                               AStrings (Collector.Metrics config)])
                   (add_event (Printed "Locations (%d): %s\n"
                                 [AInt (Z.of_nat (length (Collector.Locations config)));
                                  AStrings (Collector.Locations config)]) st1))
              = (Returned (Some err), st2)) ->
             fatal_before_serving st (Collector.main flags st)))
  /\ (forall (U : Unmarshal Timer.Config) (flags : Flags) (st : state W),
         (forall err st1,
             LoadConfig (flagConfigFile flags) st = (Returned (Err err), st1) ->
             fatal_before_serving st (Timer.main flags st))
         /\ (forall config st1,
                LoadConfig (flagConfigFile flags) st = (Returned (Ok config), st1) ->
                Timer.Locations config = [] ->
                fatal_before_serving st (Timer.main flags st))
         /\ (forall config st1,
                LoadConfig (flagConfigFile flags) st = (Returned (Ok config), st1) ->
                Timer.Metrics config = [] ->
                fatal_before_serving st (Timer.main flags st))
         /\ (forall config st1 pre key post gauges st2 err st3,
                LoadConfig (flagConfigFile flags) st = (Returned (Ok config), st1) ->
                Timer.Locations config <> [] ->
                Timer.Metrics config = pre ++ key :: post ->
                Timer.new_gauges pre ∅
                  (add_event (Printed "Metrics (%d): %s"
                                [AInt (Z.of_nat (length (Timer.Metrics config)));
                                 AStrings (Timer.Metrics config)])
                     (add_event (Printed "Locations (%d): %s\n"
                                   [AInt (Z.of_nat (length (Timer.Locations config)));
                                    AStrings (Timer.Locations config)]) st1))
                = (Returned gauges, st2) ->
                Register (GaugeVec_Describe (length (heap st2)))
                  (GaugeVecAt (length (heap st2)))
                  (snd (NewGaugeVec
                          {| prometheus.Name := "weather_" +:+ key;
                             prometheus.Help :=
                               "Weather forecast - " +:+ underscores_to_spaces key |}
                          gaugeLabels st2))
                = (Returned (Some err), st3) ->
                fatal_before_serving st (Timer.main flags st)))
  /\ (forall (U : Unmarshal MainGo.Config) (flags : Flags) (st : state W),
         (forall err st1,
             LoadConfig (flagConfigFile flags) st = (Returned (Err err), st1) ->
             fatal_before_serving st (MainGo.main flags st))
         /\ (forall config st1,
                LoadConfig (flagConfigFile flags) st = (Returned (Ok config), st1) ->
                let t := length (heap st1) in
                let a := (length (heap st1) + 1)%nat in
                let made :=
                  set_heap ((heap st1
                             ++ [ {| prometheus.gaugeDesc :=
                                       NewDesc "weather_temperature"
                                               "Weather forecast - temperature" gaugeLabels;
                                     prometheus.children := ∅ |} ])
                            ++ [ {| prometheus.gaugeDesc :=
                                      NewDesc "weather_apparent_temperature"
                                              "Weather forecast - apparent temperature"
                                              gaugeLabels;
                                    prometheus.children := ∅ |} ])
                    (add_event (Printed "Locations: %s\n"
                                  [AStrings (MainGo.Locations config)]) st1) in
                (forall err st2,
                    Register (GaugeVec_Describe t) (GaugeVecAt t) made
                    = (Returned (Some err), st2) ->
                    fatal_before_serving st (MainGo.main flags st))
                /\ (forall st2 err st3,
                       Register (GaugeVec_Describe t) (GaugeVecAt t) made
                       = (Returned None, st2) ->
                       Register (GaugeVec_Describe a) (GaugeVecAt a) st2
                       = (Returned (Some err), st3) ->
                       fatal_before_serving st (MainGo.main flags st))))
  /\ (forall (Config : Type) (U : Unmarshal Config) (filepath : string) (st : state W),
         (forall err st1,
             ReadFile filepath st = (Returned (Err err), st1) ->
             exists err', LoadConfig (Config := Config) filepath st
                          = (Returned (Err err'), st1))
         /\ (forall data err st1,
                ReadFile filepath st = (Returned (Ok data), st1) ->
                json_Unmarshal (T := Config) data = Err err ->
                exists err', LoadConfig (Config := Config) filepath st
                             = (Returned (Err err'), st1))).
Proof.
  split; [|split; [|split]].
  - intros U flags st. split; [|split; [|split]].
    + intros; by eapply collector_main_load_fails.
    + intros; by eapply collector_main_no_location.
    + intros; by eapply collector_main_no_metric.
    + intros config st1 err st2 HL Hl Hm HR.
      by eapply (collector_main_register_fails flags st config st1 err st2).
  - intros U flags st. split; [|split; [|split]].
    + intros; by eapply timer_main_load_fails.
    + intros; by eapply timer_main_no_location.
    + intros; by eapply timer_main_no_metric.
    + intros; by eapply timer_main_register_fails.
  - intros U flags st. split.
    + intros; by eapply maingo_main_load_fails.
    + intros config st1 HL. by apply (maingo_main_register_fails flags st config st1 HL).
  - intros Config U filepath st. split.
    + intros err st1 E. eexists. by apply LoadConfig_read_fails.
    + intros data err st1 E Hj. eexists. by eapply LoadConfig_parse_fails.
Qed.
End StartupClaims.

(** ** What a scrape does *)

Section ScrapeFacts.
Context {W : Type} `{Env W}.
Implicit Types st : state W.

Lemma for_range_send {A} ch (xs : list A) (f : A -> prometheus.Metric) st :
  for_range xs (fun x => send ch (f x)) st
  = (Returned tt, add_events (Sent ch <$> (f <$> xs)) st).
Proof.
  revert st. induction xs as [|x xs IH]; intros st.
  - cbn. by rewrite add_events_nil.
  - cbn [for_range fmap list_fmap].
    rewrite (bind_Returned _ _ _ tt (add_event (Sent ch (f x)) st)) by reflexivity.
    by rewrite IH, add_event_events, add_events_app.
Qed.

(** A gauge vector collects by sending, and does nothing else. *)
Lemma GaugeVec_Collect_sends gauge ch st :
  exists o ms, GaugeVec_Collect gauge ch st = (o, add_events (Sent ch <$> ms) st).
Proof.
  unfold GaugeVec_Collect. destruct (heap st !! gauge) as [gv|].
  - eexists _, _. apply for_range_send.
  - exists (Panicked "invalid memory address or nil pointer dereference"), [].
    by rewrite add_events_nil.
Qed.

Lemma Gather_gauges_sends ch (r : list collector) st :
  only_gauges r = true ->
  exists o ms,
    for_range r (fun c => match c with
                          | GaugeVecAt gauge => GaugeVec_Collect gauge ch
                          | Weather wc => Collector.Collect wc ch
                          end) st
    = (o, add_events (Sent ch <$> ms) st).
Proof.
  revert st. induction r as [|c r IH]; intros st Hr.
  - exists (Returned tt), []. cbn. by rewrite add_events_nil.
  - cbn in Hr. destruct c as [gauge|wc]; [|done].
    cbn [for_range]. unfold bind.
    destruct (GaugeVec_Collect_sends gauge ch st) as (o & ms & ->).
    destruct o as [[]|msg|c]; [|by eauto..].
    destruct (IH (add_events (Sent ch <$> ms) st) Hr) as (o' & ms' & ->).
    exists o', (ms ++ ms'). by rewrite add_events_app, fmap_app.
Qed.

Lemma upstream_calls_sent ch (ms : list prometheus.Metric) :
  upstream_calls (Sent ch <$> ms) = [].
Proof. induction ms as [|m ms IH]; [done|]. exact IH. Qed.


(** *** The collector goes upstream on every scrape *)

Lemma getLocation_trace apikey locName client st o st' :
  maps_NewClient apikey = Ok client ->
  getLocation apikey locName st = (o, st') ->
  trace st' = trace st ++ [GeocodeRequest (maps.APIKey client) locName].
Proof.
  intros Hc. unfold getLocation, Geocode. rewrite Hc.
  unfold bind, emit, call. cbn [maps.Address world add_event].
  destruct (maps_Geocode _ _ _) as [[[|r0 rs]|e] w]; cbn.
  - by intros [= <- <-].
  - destruct (maps.AddressComponents r0); by intros [= <- <-].
  - by intros [= <- <-].
Qed.

Lemma Collector_getWeather_trace k1 k2 loc client st o st' :
  maps_NewClient k1 = Ok client ->
  Collector.getWeather k1 k2 loc st = (o, st') ->
  exists evs, trace st' = trace st ++ GeocodeRequest (maps.APIKey client) loc :: evs.
Proof.
  intros Hc. unfold Collector.getWeather. unfold bind at 1.
  destruct (getLocation k1 loc st) as [[[l|e]|msg|c] s1] eqn:El;
    pose proof (getLocation_trace _ _ _ _ _ _ Hc El) as Ht.
  - intros E.
    assert (Hrest : adds not_listening s1 st').
    { revert E. generalize s1 o st'.
      change (preserves (adds not_listening)
        (bind (Get k2 (LatString l) (LngString l) "now" forecast.SI forecast.English)
           (fun fc => match fc with
                      | Ok fc =>
                          bind (log_Printf "Forecast: %+v" [AForecast fc])
                            (fun _ =>
                               if negb (String.eqb (forecast.Units (forecast.flags fc))
                                                   forecast.SI)
                               then ret (Err (errorString
                                                ("units are not SI: got "
                                                 +:+ forecast.Units (forecast.flags fc))))
                               else ret (Ok fc))
                      | Err err =>
                          ret (Err (wrapError ("forecast request failed: " +:+ Error err) err))
                      end))).
      unfold Get, log_Printf. preserve. }
    destruct Hrest as (evs & E2 & _). exists evs. by rewrite E2, Ht, <- app_assoc.
  - intros [= <- <-]. by exists [].
  - intros [= <- <-]. by exists [].
  - intros [= <- <-]. by exists [].
Qed.

Lemma collect_location_not_listening wc ch loc :
  preserves (adds not_listening) (Collector.collect_location (H := H) wc ch loc).
Proof.
  pose proof (Collect_not_listening
                {| descs := descs wc; locations := [loc];
                   gmapsAPIKey := gmapsAPIKey wc; darkskyAPIKey := darkskyAPIKey wc |} ch)
    as Hc.
  intros st o st' E. eapply Hc. unfold Collector.Collect. cbn [locations for_range].
  unfold bind. unfold Collector.collect_location in *. cbn [descs gmapsAPIKey darkskyAPIKey].
  rewrite E. by destruct o as [[]|?|?].
Qed.

(** Whatever the configuration, if it names a location and the geocoding
    client can be made, collecting begins with a request to the geocoder
    for the first location. *)
Lemma Collect_calls_geocoder wc ch loc rest client st :
  locations wc = loc :: rest ->
  maps_NewClient (gmapsAPIKey wc) = Ok client ->
  exists evs,
    added st (snd (Collector.Collect wc ch st))
    = Printed "Getting weather for %s\n" [AString loc]
      :: GeocodeRequest (maps.APIKey client) loc :: evs.
Proof.
  intros Hl Hc. unfold Collector.Collect. rewrite Hl. cbn [for_range].
  assert (Hfirst : forall o s1,
             Collector.collect_location wc ch loc st = (o, s1) ->
             exists evs, trace s1 = trace st ++ Printed "Getting weather for %s\n" [AString loc]
                                    :: GeocodeRequest (maps.APIKey client) loc :: evs).
  { intros o s1. unfold Collector.collect_location. rewrite run_fmt_Printf.
    unfold bind at 1.
    destruct (Collector.getWeather _ _ _ _) as [[r|msg|c] s0] eqn:Ew;
      destruct (Collector_getWeather_trace _ _ _ _ _ _ _ Hc Ew) as (evs & Ht);
      cbn [trace add_event] in Ht.
    - intros E.
      assert (Hrest : adds not_listening s0 s1).
      { destruct r as [fc|err].
        - revert E. generalize s0 o s1.
          change (preserves (adds not_listening)
                    (for_range_map (descs wc) (Collector.collect_metric ch loc fc))).
          apply for_range_map_preserves; [apply _|]. intros k d.
          unfold Collector.collect_metric.
          destruct (getValueByFieldName k (forecast.Currently fc)) as [v [e|]].
          + apply log_Printf_quiet; apply _.
          + apply preserves_bind; [apply _ | | intros m; by apply adds_emit].
            unfold MustNewConstMetric.
            destruct (prometheus.err d); [apply preserves_panic; apply _|].
            destruct (_ =? _)%nat; [apply preserves_ret | apply preserves_panic]; apply _.
        - by eapply (log_Printf_quiet (adds not_listening)). }
      destruct Hrest as (evs2 & E2 & _). exists (evs ++ evs2).
      rewrite E2, Ht, <- !app_assoc. reflexivity.
    - intros [= <- <-]. exists evs. rewrite Ht, <- app_assoc. reflexivity.
    - intros [= <- <-]. exists evs. rewrite Ht, <- app_assoc. reflexivity. }
  unfold bind.
  destruct (Collector.collect_location wc ch loc st) as [[[]|msg|c] s1] eqn:E1;
    destruct (Hfirst _ _ eq_refl) as (evs & Ht); cbn [snd].
  - destruct (for_range rest _ s1) as [o2 s2] eqn:E2. cbn [snd].
    assert (Hrest : adds not_listening s1 s2).
    { eapply (preserves_for_range (adds not_listening)); [|exact E2].
      intros l _. apply collect_location_not_listening. }
    destruct Hrest as (evs2 & Et2 & _). exists (evs ++ evs2).
    apply added_app. rewrite Et2, Ht, <- !app_assoc. reflexivity.
  - exists evs. by apply added_app.
  - exists evs. by apply added_app.
Qed.
End ScrapeFacts.

(** C1 on the collector (first file of part_000): the program is started
    on scenario A, and one scrape is served.  Serving it asks the geocoder
    for Dublin and the forecast service for (53.350000, -6.260000): the
    read request does go upstream. *)
Theorem C1_collector_scrape_goes_upstream :
  let main := Collector.main (H := scripted scenarioA)
                (H0 := parsed (collectorConfig ["Dublin"] ["temperature"]))
                defaultFlags (start 0) in
  let st := snd main in
  let st' := snd (Gather (H := scripted scenarioA) 1 st) in
  fst main = Returned tt
  /\ server_started (trace st) = true
  /\ upstream_calls (added st st')
     = [GeocodeRequest "gmaps-key" "Dublin";
        ForecastRequest "darksky-key" "53.350000" "-6.260000" "now" "si" "en"]
  /\ sent 1 (added st st') = [sampleA "Dublin" "53.350000"].
Proof. repeat split; vm_compute; reflexivity. Qed.

(** The same scenario on the timer with configurable metrics: after
    startup and one cycle, a scrape exposes the same sample and calls
    nothing. *)
Example timer_scrape_scenarioA :
  let config := timerConfig ["Dublin"] ["temperature"] in
  let st := timer_after scenarioA config 1 in
  let st' := snd (Gather (H := scripted scenarioA) 1 st) in
  only_gauges (registry st) = true
  /\ upstream_calls (added st st') = []
  /\ world st' = world st
  /\ sent 1 (added st st') = [sampleA "Dublin" "53.350000"].
Proof. repeat split; vm_compute; reflexivity. Qed.

(** ** Every sample of a scrape *)

Section ScrapeSamples.
Context {W : Type} `{Env W}.
Implicit Types st : state W.

Lemma added_trans ok ok' st s1 st' :
  adds ok st s1 -> adds ok' s1 st' -> added st st' = added st s1 ++ added s1 st'.
Proof.
  intros (e1 & E1 & _) (e2 & E2 & _).
  rewrite (added_app _ _ _ E1), (added_app _ _ _ E2).
  apply added_app. by rewrite E2, E1, app_assoc.
Qed.

Lemma Get_answer key lat lng time units lang st fc st' :
  Get key lat lng time units lang st = (Returned (Ok fc), st') ->
  exists w w', forecast_Get key lat lng time units lang w = (Ok fc, w').
Proof.
  unfold Get, bind, emit, call. cbn [world add_event].
  destruct (forecast_Get _ _ _ _ _ _ (world st)) as [r w'] eqn:E.
  intros [= -> <-]. eauto.
Qed.

(** What one location adds to a scrape, however its turn ends: samples of
    one forecast in SI units that the service returned, one per
    configured name that [getValueByFieldName] accepts. *)
Lemma collect_location_samples wc ch loc metrics st o st' :
  descs wc = Collector.getDescs metrics ->
  Collector.collect_location wc ch loc st = (o, st') ->
  forall m, m ∈ sent ch (added st st') ->
    exists fc k v,
      k ∈ metrics
      /\ getValueByFieldName k (forecast.Currently fc) = (v, None)
      /\ m = sample (weatherDesc k) loc fc v
      /\ forecast.Units (forecast.flags fc) = forecast.SI
      /\ exists lat lng w w',
          forecast_Get (darkskyAPIKey wc) lat lng "now" forecast.SI forecast.English w
          = (Ok fc, w').
Proof.
  intros Hd Hrun m Hm.
  destruct (Collector.getWeather (gmapsAPIKey wc) (darkskyAPIKey wc) loc
              (add_event (Printed "Getting weather for %s\n" [AString loc]) st))
    as [[[fc|err]|msg|c] s1] eqn:Ew.
  - destruct (collect_location_sent wc ch loc st fc s1 metrics Hd Ew) as (s2 & E2 & Hsent).
    rewrite E2 in Hrun. pose proof (f_equal snd Hrun) as Hs. cbn in Hs. subst st'.
    destruct (proj1 (Hsent m) Hm) as (k & v & Hk & Hv & Hmeq).
    destruct (Collector_getWeather_Ok _ _ _ _ _ _ Ew) as (Hu & l & t1 & t2 & _ & Hg & _).
    destruct (Get_answer _ _ _ _ _ _ _ _ _ Hg) as (w & w' & Hf).
    exists fc, k, v. eauto 10.
  - rewrite (collect_location_Err _ _ _ _ _ _ Ew) in Hrun. pose proof (f_equal snd Hrun) as Hs. cbn in Hs. subst st'.
    rewrite (collect_location_Err_sent wc ch loc st err s1 Ew) in Hm.
    by apply elem_of_nil in Hm.
  - unfold Collector.collect_location in Hrun. rewrite run_fmt_Printf in Hrun.
    rewrite (bind_Panicked _ _ _ _ _ Ew) in Hrun. pose proof (f_equal snd Hrun) as Hs. cbn in Hs. subst st'.
    rewrite adds_not_sent in Hm; [by apply elem_of_nil in Hm|].
    transitivity (add_event (Printed "Getting weather for %s\n" [AString loc]) st);
      [by apply quiet_event|].
    exact (Collector_getWeather_quiet _ _ _ _ _ _ _ Ew).
  - unfold Collector.collect_location in Hrun. rewrite run_fmt_Printf in Hrun.
    rewrite (bind_Exited _ _ _ _ _ Ew) in Hrun. pose proof (f_equal snd Hrun) as Hs. cbn in Hs. subst st'.
    rewrite adds_not_sent in Hm; [by apply elem_of_nil in Hm|].
    transitivity (add_event (Printed "Getting weather for %s\n" [AString loc]) st);
      [by apply quiet_event|].
    exact (Collector_getWeather_quiet _ _ _ _ _ _ _ Ew).
Qed.

Lemma for_range_collect_samples wc ch metrics (locs : list string) :
  descs wc = Collector.getDescs metrics ->
  forall st o st',
    for_range locs (Collector.collect_location wc ch) st = (o, st') ->
    forall m, m ∈ sent ch (added st st') ->
      exists loc fc k v,
        loc ∈ locs /\ k ∈ metrics
        /\ getValueByFieldName k (forecast.Currently fc) = (v, None)
        /\ m = sample (weatherDesc k) loc fc v
        /\ forecast.Units (forecast.flags fc) = forecast.SI
        /\ exists lat lng w w',
            forecast_Get (darkskyAPIKey wc) lat lng "now" forecast.SI forecast.English w
            = (Ok fc, w').
Proof.
  intros Hd. induction locs as [|loc locs IH]; intros st o st'.
  - intros [= <- <-] m Hm. unfold added in Hm. rewrite drop_all in Hm.
    by apply elem_of_nil in Hm.
  - cbn [for_range]. unfold bind.
    destruct (Collector.collect_location wc ch loc st) as [o1 s1] eqn:E1.
    pose proof (collect_location_samples wc ch loc metrics st o1 s1 Hd E1) as Hfirst.
    pose proof (collect_location_not_listening wc ch loc st o1 s1 E1) as Ha1.
    assert (Hone : forall m, m ∈ sent ch (added st s1) ->
              exists loc' fc k v,
                loc' ∈ loc :: locs /\ k ∈ metrics
                /\ getValueByFieldName k (forecast.Currently fc) = (v, None)
                /\ m = sample (weatherDesc k) loc' fc v
                /\ forecast.Units (forecast.flags fc) = forecast.SI
                /\ exists lat lng w w',
                    forecast_Get (darkskyAPIKey wc) lat lng "now"
                      forecast.SI forecast.English w = (Ok fc, w')).
    { intros m Hm. destruct (Hfirst m Hm) as (fc & k & v & Hrest).
      exists loc, fc, k, v. split; [left | exact Hrest]. }
    destruct o1 as [[]|msg|c].
    + intros Hrest m Hm.
      assert (Ha2 : adds not_listening s1 st').
      { eapply (preserves_for_range (adds not_listening)); [|exact Hrest].
        intros l _. apply collect_location_not_listening. }
      rewrite (added_trans _ _ _ _ _ Ha1 Ha2), sent_app, elem_of_app in Hm.
      destruct Hm as [Hm|Hm]; [by apply Hone|].
      destruct (IH _ _ _ Hrest m Hm) as (loc' & fc & k & v & Hin & Hrest').
      exists loc', fc, k, v. split; [by right | exact Hrest'].
    + intros [= <- <-]. exact Hone.
    + intros [= <- <-]. exact Hone.
Qed.

End ScrapeSamples.


(** ** The gauges [main] makes *)

Section GaugesMade.
Context {W : Type} `{Env W}.
Implicit Types st : state W.

Lemma Register_GaugeVec_heap gauge st o st' :
  Register (GaugeVec_Describe gauge) (GaugeVecAt gauge) st = (o, st') -> heap st' = heap st.
Proof.
  unfold Register, bind, GaugeVec_Describe, call.
  destruct (heap st !! gauge); [|by intros [= <- <-]].
  cbn [world]. destruct (prometheus_Register _ _) as [[e|] w]; by intros [= <- <-].
Qed.

Lemma gauges_ok_new (h : list prometheus.GaugeVec) (gauges : gmap string nat) key :
  gauges_ok h gauges ->
  gauges_ok (h ++ [ {| prometheus.gaugeDesc := weatherDesc key; prometheus.children := ∅ |} ])
            (<[key := length h]> gauges).
Proof.
  intros Hok k a. destruct (decide (key = k)) as [->|Hne].
  - rewrite lookup_insert_eq. intros [= <-]. by rewrite list_lookup_middle.
  - rewrite lookup_insert_ne by done. intros Hk. specialize (Hok _ _ Hk).
    destruct (h !! a) as [gv|] eqn:E; [|done].
    by rewrite (lookup_app_l_Some _ _ _ _ E).
Qed.

(** The loop of [main] leaves [gauges] a map from each key to a vector made
    for it. *)
Lemma new_gauges_ok (metrics : list string) :
  forall (gauges g' : gmap string nat) st st',
    gauges_ok (heap st) gauges ->
    Timer.new_gauges metrics gauges st = (Returned g', st') ->
    gauges_ok (heap st') g'.
Proof.
  induction metrics as [|key metrics IH]; intros gauges g' st st' Hok; cbn [Timer.new_gauges].
  - by intros [= <- <-].
  - unfold bind at 1. cbn [NewGaugeVec]. unfold bind at 1.
    destruct (Register _ _ _) as [[[err|]|msg|c] s1] eqn:ER; try done.
    apply IH. rewrite (Register_GaugeVec_heap _ _ _ _ ER). cbn [heap set_heap].
    by apply gauges_ok_new.
Qed.
End GaugesMade.

(** The gauges of the scripted timer are sound. *)
Lemma timer_gauges_ok (s : Script) (config : Timer.Config) :
  gauges_ok (H := scripted s) (heap (timer_gauges s config).2) (timer_gauges s config).1.
Proof.
  unfold timer_gauges.
  destruct (Timer.new_gauges _ _ _) as [[g| |] st] eqn:E; cbn [fst snd].
  - eapply (new_gauges_ok (H := scripted s)); [|exact E].
    intros k a Hk. by rewrite lookup_empty in Hk.
  - intros k a Hk. by rewrite lookup_empty in Hk.
  - intros k a Hk. by rewrite lookup_empty in Hk.
Qed.

(** ** The theorems at work on the scripted worlds *)

Lemma C6_witness_bogus_field :
  ("bogus_field" ∉ supported_fields)
  /\ getValueByFieldName "bogus_field" (forecast.decode (only_temperature f_12_3))
     = (zero64, Some (errorString "unsupported field 'bogus_field'"))
  /\ Collector.collect_metric 1 "Dublin" (reading f_53_35 f_m6_26 f_12_3 forecast.SI)
       "bogus_field" (weatherDesc (H := scripted scenarioA) "bogus_field") (start 0)
     = (Returned tt,
        add_event (Logged "Warning: skipping '%s': %v"
                     [AString "bogus_field";
                      AError (errorString "unsupported field 'bogus_field'")])
          (start 0)).
Proof.
  assert (Hn : "bogus_field" ∉ supported_fields).
  { unfold supported_fields. rewrite !not_elem_of_cons.
    repeat split; try discriminate. apply not_elem_of_nil. }
  pose proof (C6_getValueByFieldName_closed_enumeration (W := nat) "bogus_field"
                (forecast.decode (only_temperature f_12_3)))
    as (_ & _ & _ & _ & _ & _ & Hvalue & Hcallers).
  split; [exact Hn|]. split; [exact (Hvalue Hn)|].
  exact (proj1 (Hcallers Hn (start 0) 1%nat "Dublin"
                  (reading f_53_35 f_m6_26 f_12_3 forecast.SI)
                  (weatherDesc (H := scripted scenarioA) "bogus_field") 0%nat)).
Defined.

Lemma C9_witness_apparent_temperature :
  let wc := demoCollector (H := scripted scenarioA) ["Dublin"]
              ["temperature"; "apparent_temperature"] in
  let fc := reading f_53_35 f_m6_26 f_12_3 "si" in
  let o := only_temperature f_12_3 in
  getValueByFieldName "apparent_temperature" (forecast.decode o) = (zero64, None)
  /\ observed "apparent_temperature" (with_field "apparent_temperature" zero64 o)
     = Some zero64
  /\ forecast.decode (with_field "apparent_temperature" zero64 o) = forecast.decode o
  /\ exists st',
      Collector.collect_location (H := scripted scenarioA) wc 1 "Dublin" (start 0)
      = (Returned tt, st')
      /\ sample (weatherDesc (H := scripted scenarioA) "apparent_temperature")
                "Dublin" fc zero64
         ∈ sent 1 (added (start 0) st').
Proof.
  intros wc fc o.
  apply (C9_missing_field_published_as_zero (H := scripted scenarioA)
           "apparent_temperature" o wc ["temperature"; "apparent_temperature"] 1 "Dublin" fc
           (start 0)
           (snd (Collector.getWeather (H := scripted scenarioA) "gmaps-key" "darksky-key"
                   "Dublin"
                   (add_event (Printed "Getting weather for %s\n" [AString "Dublin"])
                      (start 0))))).
  - unfold supported_fields. repeat constructor.
  - reflexivity.
  - reflexivity.
  - reflexivity.
  - repeat constructor.
  - vm_compute. reflexivity.
Defined.

Lemma C2_witness_scenarioB :
  let st := start 0 in
  let fc := reading f_53_35 f_m6_26 f_12_3 "us" in
  let err := errorString "units are not SI: got us" in
  let before := add_event (Printed "Getting weather for %s\n" [AString "Dublin"]) st in
  fst (getWeather (H := scripted scenarioB) "gmaps-key" "darksky-key" "Dublin" before)
  = Returned (Err err)
  /\ fst (Collector.getWeather (H := scripted scenarioB) "gmaps-key" "darksky-key"
            "Dublin" before)
     = Returned (Err err)
  /\ (exists st',
        Timer.update_location (H := scripted scenarioB)
          (timerConfig ["Dublin"] ["temperature"]) {["temperature" := 0%nat]} "Dublin" st
        = (Returned tt, st')
        /\ heap st' = heap st)
  /\ (exists st',
        Collector.collect_location (H := scripted scenarioB)
          (demoCollector (H := scripted scenarioB) ["Dublin"] ["temperature"]) 1 "Dublin" st
        = (Returned tt, st')
        /\ sent 1 (added st st') = []).
Proof.
  intros st fc err before.
  destruct (C2_unit_mismatch_discards_reading (H := scripted scenarioB)
              "gmaps-key" "darksky-key" "Dublin"
              {| Name := "Dublin"; Lat := f_53_35; Lng := f_m6_26 |} fc st
              (snd (getLocation (H := scripted scenarioB) "gmaps-key" "Dublin" before))
              (snd (getWeather (H := scripted scenarioB) "gmaps-key" "darksky-key"
                      "Dublin" before)))
    as (Hw & Hc & _ & Ht & Hcol).
  - vm_compute. reflexivity.
  - vm_compute. reflexivity.
  - discriminate.
  - split; [exact (f_equal fst Hw)|]. split; [exact (f_equal fst Hc)|]. split.
    + by apply (Ht (timerConfig ["Dublin"] ["temperature"])).
    + by apply (Hcol (demoCollector (H := scripted scenarioB) ["Dublin"] ["temperature"])).
Defined.

Lemma scripted_finite_forecasts : finite_forecasts (H := scripted scenarioA).
Proof. intros key lat lng time units lang w fc w' [= <- _]. by split. Qed.



(** A location whose first forecast was published and whose second comes in
    the wrong units keeps the entry of the first cycle through the
    second. *)
Lemma C4_witness_stale_entry :
  let config := timerConfig ["Dublin"] ["temperature"] in
  let gauges := (timer_gauges then_us config).1 in
  let st := timer_after then_us config 1 in
  let st' := snd (Timer.cycle (H := scripted then_us) defaultFlags config gauges st) in
  entry st 0 ["Dublin"; "53.350000"; "-6.260000"] = Some f_12_3
  /\ (forall gauge lvs, head lvs = Some "Dublin" -> entry st' gauge lvs = entry st gauge lvs)
  /\ entry st' 0 ["Dublin"; "53.350000"; "-6.260000"] = Some f_12_3.
Proof.
  intros config gauges st st'.
  assert (Hkept : forall gauge lvs,
             head lvs = Some "Dublin" -> entry st' gauge lvs = entry st gauge lvs).
  { apply (proj1 (C4_failed_location_keeps_its_entries (H := scripted then_us))
             defaultFlags config gauges "Dublin" st
             (fst (Timer.cycle (H := scripted then_us) defaultFlags config gauges st)) st').
    - apply surjective_pairing.
    - cbn [fetch_fails Timer.Locations config timerConfig]. split; [|exact I].
      intros _.
      exists (errorString "units are not SI: got us"),
        (snd (getWeather (H := scripted then_us) "gmaps-key" "darksky-key" "Dublin"
                (add_event (Printed "Getting weather for %s\n" [AString "Dublin"])
                   (add_event (Logged "Fetching weather..." []) st)))).
      vm_compute. reflexivity. }
  assert (Hst : entry st 0 ["Dublin"; "53.350000"; "-6.260000"] = Some f_12_3)
    by (vm_compute; reflexivity).
  split; [exact Hst|]. split; [exact Hkept|].
  rewrite Hkept by reflexivity. exact Hst.
Defined.


Lemma C7_witness_startup :
  fatal_before_serving (start 0)
    (Collector.main (H := scripted unreadable)
       (H0 := parsed (collectorConfig ["Dublin"] ["temperature"])) defaultFlags (start 0))
  /\ fatal_before_serving (start 0)
       (Collector.main (H := scripted scenarioA) (H0 := unparsable) defaultFlags (start 0))
  /\ fatal_before_serving (start 0)
       (Collector.main (H := scripted scenarioA)
          (H0 := parsed (collectorConfig [] ["temperature"])) defaultFlags (start 0))
  /\ fatal_before_serving (start 0)
       (Timer.main (H := scripted scenarioA)
          (H0 := parsed (timerConfig ["Dublin"] [])) defaultFlags (start 0))
  /\ fatal_before_serving (start 0)
       (Timer.main (H := scripted refusing)
          (H0 := parsed (timerConfig ["Dublin"] ["temperature"])) defaultFlags (start 0))
  /\ fatal_before_serving (start 0)
       (MainGo.main (H := scripted refusing)
          (H0 := parsed (maingoConfig ["Dublin"])) defaultFlags (start 0)).
Proof.
  split; [|split; [|split; [|split; [|split]]]].
  - destruct (proj1 (C7_startup_failures_are_fatal (H := scripted unreadable))
                (parsed (collectorConfig ["Dublin"] ["temperature"])) defaultFlags (start 0))
      as (Hload & _).
    apply (Hload (wrapError
                    "failed to read config file: open config.json: no such file or directory"
                    (errorString "open config.json: no such file or directory"))
                 (add_event (FileRead "config.json") (start 0))).
    vm_compute. reflexivity.
  - destruct (proj1 (C7_startup_failures_are_fatal (H := scripted scenarioA))
                unparsable defaultFlags (start 0))
      as (Hload & _).
    apply (Hload (wrapError
                    "failed to unmarshal JSON config: unexpected end of JSON input"
                    (errorString "unexpected end of JSON input"))
                 (add_event (FileRead "config.json") (start 0))).
    vm_compute. reflexivity.
  - destruct (proj1 (C7_startup_failures_are_fatal (H := scripted scenarioA))
                (parsed (collectorConfig [] ["temperature"])) defaultFlags (start 0))
      as (_ & Hloc & _).
    apply (Hloc (collectorConfig [] ["temperature"])
                (add_event (FileRead "config.json") (start 0))); reflexivity.
  - destruct (proj1 (proj2 (C7_startup_failures_are_fatal (H := scripted scenarioA)))
                (parsed (timerConfig ["Dublin"] [])) defaultFlags (start 0))
      as (_ & _ & Hmet & _).
    apply (Hmet (timerConfig ["Dublin"] [])
                (add_event (FileRead "config.json") (start 0))); reflexivity.
  - destruct (proj1 (proj2 (C7_startup_failures_are_fatal (H := scripted refusing)))
                (parsed (timerConfig ["Dublin"] ["temperature"])) defaultFlags (start 0))
      as (_ & _ & _ & Hreg).
    eapply (Hreg (timerConfig ["Dublin"] ["temperature"])
                 (add_event (FileRead "config.json") (start 0)) [] "temperature" [] ∅).
    + reflexivity.
    + discriminate.
    + reflexivity.
    + reflexivity.
    + reflexivity.
  - destruct (proj1 (proj2 (proj2 (C7_startup_failures_are_fatal (H := scripted refusing))))
                (parsed (maingoConfig ["Dublin"])) defaultFlags (start 0))
      as (_ & Hreg).
    eapply (proj1 (Hreg (maingoConfig ["Dublin"])
                        (add_event (FileRead "config.json") (start 0)) eq_refl)).
    reflexivity.
Defined.

(** With a sound configuration in scenario A, each of the three programs
    gets as far as serving. *)
Example mains_serve_scenarioA :
  (let r := Timer.main (H := scripted scenarioA)
              (H0 := parsed (timerConfig ["Dublin"] ["temperature"])) defaultFlags (start 0) in
   fst r = Returned tt /\ server_started (trace (snd r)) = true
   /\ registry (snd r) = [GaugeVecAt 0])
  /\ (let r := MainGo.main (H := scripted scenarioA)
                 (H0 := parsed (maingoConfig ["Dublin"])) defaultFlags (start 0) in
      fst r = Returned tt /\ server_started (trace (snd r)) = true
      /\ registry (snd r) = [GaugeVecAt 0; GaugeVecAt 1])
  /\ (let r := Collector.main (H := scripted scenarioA)
                 (H0 := parsed (collectorConfig ["Dublin"] ["temperature"]))
                 defaultFlags (start 0) in
      fst r = Returned tt /\ server_started (trace (snd r)) = true).
Proof. repeat split; vm_compute; reflexivity. Qed.

(** [src/main.go] has no check of the location list: with no location it
    serves, and every cycle is empty. *)
Example maingo_serves_without_locations :
  let r := MainGo.main (H := scripted scenarioA) (H0 := parsed (maingoConfig []))
             defaultFlags (start 0) in
  fst r = Returned tt /\ server_started (trace (snd r)) = true.
Proof. repeat split; vm_compute; reflexivity. Qed.


(** The collector's scrape in scenario A begins at the geocoder. *)
Lemma Collect_geocoder_witness :
  let wc := demoCollector (H := scripted scenarioA) ["Dublin"] ["temperature"] in
  exists evs,
    added (start 0) (snd (Collector.Collect (H := scripted scenarioA) wc 1 (start 0)))
    = Printed "Getting weather for %s\n" [AString "Dublin"]
      :: GeocodeRequest "gmaps-key" "Dublin" :: evs.
Proof.
  intros wc.
  exact (Collect_calls_geocoder (H := scripted scenarioA) wc 1%nat "Dublin" []
           {| maps.APIKey := "gmaps-key" |} (start 0) eq_refl eq_refl).
Defined.

(** ** The requests to the two upstream services *)

Section Requests.
Context {W : Type} `{Env W}.
Implicit Types st : state W.

Lemma added_refl st : added st st = [].
Proof. unfold added. by rewrite drop_all. Qed.

Lemma added_add_events st evs : added st (add_events evs st) = evs.
Proof. by apply added_app. Qed.

Lemma added_trace st st' evs :
  trace st' = trace st ++ evs -> added st st' = evs.
Proof. apply added_app. Qed.

(** [getLocation], run: one request to the geocoder, then a look at the
    first result and at its first address component. *)
Lemma getLocation_run apikey locName client st :
  maps_NewClient apikey = Ok client ->
  getLocation apikey locName st
  = (match (maps_Geocode client {| maps.Address := locName |} (world st)).1 with
     | Err err => Returned (Err err)
     | Ok [] => Returned (Err (errorString ("no location found for '" +:+ locName +:+ "'")))
     | Ok (r0 :: _) =>
         match maps.AddressComponents r0 with
         | [] => Panicked "runtime error: index out of range [0] with length 0"
         | c0 :: _ => Returned (Ok (location_of r0 c0))
         end
     end,
     set_world (maps_Geocode client {| maps.Address := locName |} (world st)).2
       (add_event (GeocodeRequest (maps.APIKey client) locName) st)).
Proof.
  intros Hc. unfold getLocation. rewrite Hc. unfold Geocode, bind, emit, call.
  cbn [world add_event maps.Address].
  destruct (maps_Geocode client _ (world st)) as [[[|r0 rs]|err] w1]; cbn [fst snd]; try done.
  by destruct (maps.AddressComponents r0).
Qed.

Lemma getLocation_no_client apikey locName err st :
  maps_NewClient apikey = Err err ->
  getLocation apikey locName st = (Returned (Err err), st).
Proof. intros Hc. unfold getLocation. by rewrite Hc. Qed.

Lemma Get_run key lat lng time units lang st :
  Get key lat lng time units lang st
  = (Returned (forecast_Get key lat lng time units lang (world st)).1,
     set_world (forecast_Get key lat lng time units lang (world st)).2
       (add_event (ForecastRequest key lat lng time units lang) st)).
Proof.
  unfold Get, bind, emit, call. cbn [world add_event].
  by destruct (forecast_Get _ _ _ _ _ _ (world st)).
Qed.

(** What a run of [getWeather] adds to the trace, in the variant that does
    not log: the request to the geocoder and, if a location came of it,
    the request to the forecast service. *)
Lemma getWeather_added k1 k2 loc client st :
  maps_NewClient k1 = Ok client ->
  added st (getWeather k1 k2 loc st).2
  = GeocodeRequest (maps.APIKey client) loc
    :: match (getLocation k1 loc st).1 with
       | Returned (Ok l) => [forecast_request_for k2 l]
       | _ => []
       end.
Proof.
  intros Hc. unfold getWeather, bind. rewrite (getLocation_run _ _ _ _ Hc). cbn [fst snd].
  set (a := maps_Geocode client _ (world st)).
  destruct a.1 as [[|r0 rs]|err] eqn:Ea; cbn [ret snd];
    try (apply added_trace; reflexivity).
  destruct (maps.AddressComponents r0) as [|c0 cs]; cbn [ret snd];
    try (apply added_trace; reflexivity).
  rewrite Get_run. cbn [fst snd].
  destruct (forecast_Get _ _ _ _ _ _ _).1 as [fc|err]; cbn [ret snd].
  - destruct (negb _); apply added_trace; cbn; by rewrite <- app_assoc.
  - apply added_trace; cbn; by rewrite <- app_assoc.
Qed.

Lemma Collector_getWeather_added k1 k2 loc client st :
  maps_NewClient k1 = Ok client ->
  upstream_calls (added st (Collector.getWeather k1 k2 loc st).2)
  = GeocodeRequest (maps.APIKey client) loc
    :: match (getLocation k1 loc st).1 with
       | Returned (Ok l) => [forecast_request_for k2 l]
       | _ => []
       end.
Proof.
  intros Hc. unfold Collector.getWeather, bind. rewrite (getLocation_run _ _ _ _ Hc).
  cbn [fst snd]. set (a := maps_Geocode client _ (world st)).
  destruct a.1 as [[|r0 rs]|err] eqn:Ea; cbn [ret snd];
    try (erewrite added_trace by reflexivity; reflexivity).
  destruct (maps.AddressComponents r0) as [|c0 cs]; cbn [ret snd];
    try (erewrite added_trace by reflexivity; reflexivity).
  rewrite Get_run. cbn [fst snd].
  destruct (forecast_Get _ _ _ _ _ _ _).1 as [fc|err]; cbn [ret snd].
  - unfold log_Printf, emit. destruct (negb _); cbn [ret snd];
      (erewrite added_trace by (cbn; rewrite <- !app_assoc; reflexivity)); reflexivity.
  - erewrite added_trace by (cbn; rewrite <- !app_assoc; reflexivity). reflexivity.
Qed.

Lemma getWeather_no_client k1 k2 loc err st :
  maps_NewClient k1 = Err err ->
  getWeather k1 k2 loc st
  = (Returned (Err (wrapError ("GMaps search failed: " +:+ Error err) err)), st)
  /\ Collector.getWeather k1 k2 loc st
     = (Returned (Err (wrapError ("GMaps search failed: " +:+ Error err) err)), st).
Proof.
  intros Hc. unfold getWeather, Collector.getWeather, bind.
  by rewrite (getLocation_no_client _ _ _ _ Hc).
Qed.

(** [getWeather], in both variants, asks the geocoder once about the
    location as it is spelled, with the client made for the maps key.  It
    asks the forecast service once, and only if the geocoder's answer has
    a first result with an address component: for that result's
    coordinates printed with [%f], the time "now", SI units and English,
    with the forecast key.  Later results are not looked at.  If no client
    can be made, nothing is asked. *)
Theorem getWeather_upstream_requests (k1 k2 loc : string) (st : state W) :
  let asked := upstream_calls (added st (getWeather k1 k2 loc st).2) in
  upstream_calls (added st (Collector.getWeather k1 k2 loc st).2) = asked
  /\ match maps_NewClient k1 with
     | Err _ => asked = []
     | Ok client =>
         match (maps_Geocode client {| maps.Address := loc |} (world st)).1 with
         | Ok (r0 :: _) =>
             match maps.AddressComponents r0 with
             | c0 :: _ =>
                 asked = [GeocodeRequest (maps.APIKey client) loc;
                          ForecastRequest k2
                            (Sprintf_f (maps.Lat (maps.Location (maps.Geometry r0))))
                            (Sprintf_f (maps.Lng (maps.Location (maps.Geometry r0))))
                            "now" "si" "en"]
             | [] => asked = [GeocodeRequest (maps.APIKey client) loc]
             end
         | _ => asked = [GeocodeRequest (maps.APIKey client) loc]
         end
     end.
Proof.
  intros asked. subst asked.
  destruct (maps_NewClient k1) as [client|err] eqn:Hc.
  - rewrite (Collector_getWeather_added _ _ _ _ _ Hc), (getWeather_added _ _ _ _ _ Hc).
    rewrite (getLocation_run _ _ _ _ Hc). cbn [fst].
    destruct (maps_Geocode client _ (world st)).1 as [[|r0 rs]|e]; try (split; reflexivity).
    destruct (maps.AddressComponents r0); split; reflexivity.
  - destruct (getWeather_no_client k1 k2 loc err st Hc) as [-> ->].
    cbn [snd]. by rewrite added_refl.
Qed.
End Requests.

(** ** One pass over the locations *)

Section Passes.
Context {W : Type} `{Env W}.
Implicit Types st : state W.

Lemma geocoded_app (l1 l2 : list event) : geocoded (l1 ++ l2) = geocoded l1 ++ geocoded l2.
Proof. apply omap_app. Qed.

Lemma slept_app (l1 l2 : list event) : slept (l1 ++ l2) = slept l1 ++ slept l2.
Proof. apply omap_app. Qed.

Lemma forecast_requests_app (l1 l2 : list event) :
  forecast_requests (l1 ++ l2) = forecast_requests l1 ++ forecast_requests l2.
Proof. apply List.filter_app. Qed.

Lemma local_events (evs : list event) :
  forallb local_event evs = true ->
  geocoded evs = [] /\ forecast_requests evs = [] /\ slept evs = []
  /\ upstream_calls evs = [] /\ server_started evs = false.
Proof.
  induction evs as [|e evs IH]; [done|]. cbn [forallb].
  intros [He Hevs]%andb_prop. destruct e; try done; apply IH, Hevs.
Qed.

(** What the loops over the metrics add is local. *)
Lemma for_range_map_adds {V} ok (m : gmap string V) (body : string -> V -> M W unit) :
  (forall k v, preserves (adds ok) (body k v)) ->
  preserves (adds ok) (for_range_map (H := H) m body).
Proof.
  intros Hbody. unfold for_range_map. apply preserves_bind; [typeclasses eauto| |].
  - apply adds_call.
  - intros ks. apply preserves_for_range; [typeclasses eauto|].
    intros k _. destruct (m !! k); [apply Hbody|]. apply preserves_ret. typeclasses eauto.
Qed.

Lemma WithLabelValues_adds ok gauge lvs :
  preserves (adds ok) (WithLabelValues (W := W) gauge lvs).
Proof.
  apply adds_silent. intros st. unfold WithLabelValues.
  destruct (heap st !! gauge) as [gv|]; [|done].
  destruct (_ =? _)%nat; [|done]. by destruct (prometheus.children gv !! lvs).
Qed.

Lemma Set_adds ok child v : preserves (adds ok) (Set_ (W := W) child v).
Proof.
  apply adds_silent. intros st. unfold Set_. by destruct (heap st !! child.1).
Qed.

Lemma update_metric_local loc fc k a :
  preserves (adds local_event) (Timer.update_metric (W := W) loc fc k a).
Proof.
  unfold Timer.update_metric.
  destruct (getValueByFieldName k (forecast.Currently fc)) as [v [err|]].
  - by apply adds_emit.
  - apply preserves_bind; [typeclasses eauto|apply WithLabelValues_adds|].
    intros child. apply Set_adds.
Qed.

Lemma MustNewConstMetric_adds ok d vt v lvs :
  preserves (adds ok) (MustNewConstMetric (W := W) d vt v lvs).
Proof.
  apply adds_silent. intros st. unfold MustNewConstMetric.
  destruct (prometheus.err d); [done|]. by destruct (_ =? _)%nat.
Qed.

Lemma collect_metric_local ch loc fc k d :
  preserves (adds local_event) (Collector.collect_metric (W := W) ch loc fc k d).
Proof.
  unfold Collector.collect_metric.
  destruct (getValueByFieldName k (forecast.Currently fc)) as [v [err|]].
  - by apply adds_emit.
  - apply preserves_bind; [typeclasses eauto|apply MustNewConstMetric_adds|].
    intros m. by apply adds_emit.
Qed.

(** *** One location's turn, in any of the three loops *)
Section Turn.
Variable getW : string -> M W (result forecast.Forecast).
Variable upd : string -> forecast.Forecast -> M W unit.

Lemma asked_app l1 l2 tr1 tr2 : asked l1 tr1 -> asked l2 tr2 -> asked (l1 ++ l2) (tr1 ++ tr2).
Proof.
  intros (G1 & F1 & S1 & L1) (G2 & F2 & S2 & L2).
  unfold asked. rewrite geocoded_app, forecast_requests_app, slept_app, !length_app, G1, G2, S1, S2.
  repeat split; [lia|]. unfold server_started in *. by rewrite existsb_app, L1, L2.
Qed.

Lemma asked_local evs : forallb local_event evs = true -> asked [] evs.
Proof.
  intros (G & F & S & _ & L)%local_events. unfold asked. rewrite G, F, S, L. done.
Qed.

Hypothesis getW_asks :
  forall loc st, exists evs, trace (getW loc st).2 = trace st ++ evs /\ asked [loc] evs.
Hypothesis upd_local : forall loc fc, preserves (adds local_event) (upd loc fc).

Lemma turn_asks loc st :
  exists evs, trace (turn getW upd loc st).2 = trace st ++ evs /\ asked [loc] evs.
Proof.
  unfold turn. rewrite run_fmt_Printf. set (s0 := add_event _ st).
  destruct (getW_asks loc s0) as (evs & Ht & Ha).
  unfold bind. destruct (getW loc s0) as [o s1] eqn:Ew. cbn [snd] in Ht |- *.
  assert (Hend : forall st' evs', trace st' = trace s1 ++ evs' ->
            forallb local_event evs' = true ->
            exists evs0, trace st' = trace st ++ evs0 /\ asked [loc] evs0).
  { intros st' evs' E' L'.
    exists ([Printed "Getting weather for %s\n" [AString loc]] ++ evs ++ evs').
    split; [rewrite E', Ht; subst s0; cbn; by rewrite <- !app_assoc|].
    change [loc] with ([] ++ [loc] ++ ([] : list string)).
    apply asked_app; [by apply asked_local|]. apply asked_app; [done|by apply asked_local]. }
  destruct o as [[fc|err]|msg|c]; cbn [snd].
  - destruct (upd loc fc s1) as [o' st'] eqn:Eu. cbn [snd].
    destruct (upd_local loc fc s1 o' st' Eu) as (evs' & E' & L'). by eapply Hend.
  - eapply (Hend _ [_]); [reflexivity|done].
  - eapply (Hend _ []); [by rewrite app_nil_r|done].
  - eapply (Hend _ []); [by rewrite app_nil_r|done].
Qed.

(** A pass over the locations asks the geocoder about each location it
    comes to, once, in the order of the list, and the forecast service at
    most as often. *)
Lemma pass_asks (locs : list string) :
  forall st,
    exists evs done_,
      trace (for_range locs (turn getW upd) st).2 = trace st ++ evs
      /\ asked done_ evs
      /\ done_ `prefix_of` locs
      /\ ((for_range locs (turn getW upd) st).1 = Returned tt -> done_ = locs).
Proof.
  induction locs as [|loc locs IH]; intros st.
  - exists [], []. cbn [for_range ret fst snd]. rewrite app_nil_r.
    split; [done|]. split; [by apply asked_local|]. done.
  - cbn [for_range]. unfold bind.
    destruct (turn_asks loc st) as (evs1 & E1 & A1).
    destruct (turn getW upd loc st) as [o s1] eqn:Et. cbn [snd] in E1.
    destruct o as [[]|msg|c]; cbn [fst snd].
    + destruct (IH s1) as (evs2 & d2 & E2 & A2 & P2 & R2).
      exists (evs1 ++ evs2), ([loc] ++ d2). split; [|split; [|split]].
      * by rewrite E2, E1, app_assoc.
      * by apply asked_app.
      * by apply prefix_cons.
      * intros Hr. by rewrite (R2 Hr).
    + exists evs1, [loc]. split; [done|]. split; [done|]. split; [|done].
      apply prefix_cons, prefix_nil.
    + exists evs1, [loc]. split; [done|]. split; [done|]. split; [|done].
      apply prefix_cons, prefix_nil.
Qed.
End Turn.
End Passes.

(** ** The requests of a cycle and of a scrape *)

Section CycleRequests.
Context {W : Type} `{Env W}.
Implicit Types st : state W.

Lemma run_extends {A} (m : M W A) st :
  preserves (adds not_listening) m -> exists evs, trace (m st).2 = trace st ++ evs.
Proof.
  intros Hm. destruct (m st) as [o st'] eqn:E.
  destruct (Hm st o st' E) as (evs & Et & _). by exists evs.
Qed.

Lemma getWeather_asks k1 k2 client :
  maps_NewClient k1 = Ok client ->
  forall loc st, exists evs, trace (getWeather k1 k2 loc st).2 = trace st ++ evs
                             /\ asked [loc] evs.
Proof.
  intros Hc loc st.
  destruct (run_extends (getWeather k1 k2 loc) st) as (evs & Et);
    [apply getWeather_quiet; typeclasses eauto|].
  exists evs. split; [done|].
  pose proof (getWeather_added k1 k2 loc client st Hc) as Ha.
  rewrite (added_app _ _ _ Et) in Ha. rewrite Ha.
  destruct (getLocation k1 loc st).1 as [[l|e]|msg|c]; repeat split; cbn; lia.
Qed.

Lemma Collector_getWeather_asks k1 k2 client :
  maps_NewClient k1 = Ok client ->
  forall loc st, exists evs, trace (Collector.getWeather k1 k2 loc st).2 = trace st ++ evs
                             /\ asked [loc] evs.
Proof.
  intros Hc loc st. unfold Collector.getWeather, bind.
  rewrite (getLocation_run _ _ _ _ Hc). set (a := maps_Geocode client _ (world st)).
  destruct a.1 as [[|r0 rs]|err] eqn:Ea; cbn [ret snd];
    try (eexists [_]; split; [reflexivity|repeat split; cbn; lia]).
  destruct (maps.AddressComponents r0) as [|c0 cs]; cbn [ret snd];
    try (eexists [_]; split; [reflexivity|repeat split; cbn; lia]).
  rewrite Get_run. cbn [fst snd].
  destruct (forecast_Get _ _ _ _ _ _ _).1 as [fc|err]; cbn [ret snd].
  - unfold log_Printf, emit. destruct (negb _); cbn [ret snd];
      (eexists [_; _; _]; split; [cbn; by rewrite <- !app_assoc|repeat split; cbn; lia]).
  - eexists [_; _]; split; [cbn; by rewrite <- !app_assoc|repeat split; cbn; lia].
Qed.

(** *** The loop of the goroutine, in both timers *)
Section Goroutine.
Variable getW : string -> M W (result forecast.Forecast).
Variable upd : string -> forecast.Forecast -> M W unit.
Variable locs : list string.
Variable d : Z.
Hypothesis getW_asks :
  forall loc st, exists evs, trace (getW loc st).2 = trace st ++ evs /\ asked [loc] evs.
Hypothesis upd_local : forall loc fc, preserves (adds local_event) (upd loc fc).

Lemma one_cycle_asks st :
  exists evs,
    trace (one_cycle getW upd locs d st).2 = trace st ++ evs
    /\ geocoded evs `prefix_of` locs
    /\ (length (forecast_requests evs) <= length (geocoded evs))%nat
    /\ server_started evs = false
    /\ match (one_cycle getW upd locs d st).1 with
       | Returned _ => geocoded evs = locs /\ slept evs = [d]
       | _ => slept evs = []
       end.
Proof.
  unfold one_cycle. rewrite run_log_Printf. set (s0 := add_event _ st).
  destruct (pass_asks getW upd getW_asks upd_local locs s0)
    as (evs & dn & Et & (G & F & S & L) & P & R).
  destruct (for_range locs (turn getW upd) s0) as [o s1] eqn:Ep.
  cbn [fst snd] in Et, R.
  destruct o as [[]|msg|c].
  - rewrite (bind_Returned _ _ _ _ _ Ep), run_log_Printf.
    unfold time_Sleep, emit. cbn [fst snd].
    exists ([Logged "Fetching weather..." []] ++ evs
            ++ [Logged "Sleeping %s..." [ADuration d]; Slept d]).
    split; [cbn [trace add_event]; rewrite Et; subst s0; cbn; by rewrite <- !app_assoc|].
    rewrite !geocoded_app, !forecast_requests_app, !slept_app, G, S.
    cbn. rewrite !app_nil_r, (R eq_refl).
    split; [done|]. split; [rewrite <- (R eq_refl); lia|]. split; [|done].
    unfold server_started in *. rewrite existsb_app, L. done.
  - rewrite (bind_Panicked _ _ _ _ _ Ep). cbn [fst snd].
    exists ([Logged "Fetching weather..." []] ++ evs).
    split; [rewrite Et; subst s0; cbn; by rewrite <- !app_assoc|].
    rewrite !geocoded_app, !forecast_requests_app, !slept_app, G, S. cbn.
    split; [done|]. split; [lia|]. done.
  - rewrite (bind_Exited _ _ _ _ _ Ep). cbn [fst snd].
    exists ([Logged "Fetching weather..." []] ++ evs).
    split; [rewrite Et; subst s0; cbn; by rewrite <- !app_assoc|].
    rewrite !geocoded_app, !forecast_requests_app, !slept_app, G, S. cbn.
    split; [done|]. split; [lia|]. done.
Qed.

End Goroutine.

(** Cycle after cycle. *)
Lemma many_cycles_ask (cyc : M W unit) (cs : nat -> M W unit) (locs : list string) (d : Z) :
  (forall st, cs O st = (Returned tt, st)) ->
  (forall n st, cs (S n) st = bind cyc (fun _ => cs n) st) ->
  (forall st, exists evs,
      trace (cyc st).2 = trace st ++ evs
      /\ geocoded evs `prefix_of` locs
      /\ (length (forecast_requests evs) <= length (geocoded evs))%nat
      /\ server_started evs = false
      /\ match (cyc st).1 with
         | Returned _ => geocoded evs = locs /\ slept evs = [d]
         | _ => slept evs = []
         end) ->
  forall n st, exists evs,
    trace (cs n st).2 = trace st ++ evs
    /\ geocoded evs `prefix_of` mjoin (replicate n locs)
    /\ (length (forecast_requests evs) <= length (geocoded evs))%nat
    /\ server_started evs = false
    /\ ((cs n st).1 = Returned tt ->
        geocoded evs = mjoin (replicate n locs) /\ slept evs = replicate n d).
Proof.
  intros H0 HS Hcyc. induction n as [|n IH]; intros st.
  - exists []. rewrite H0. cbn. rewrite app_nil_r. repeat split; done.
  - rewrite HS. destruct (Hcyc st) as (evs1 & E1 & P1 & F1 & L1 & R1).
    destruct (cyc st) as [o s1] eqn:Ec. cbn [fst snd] in E1, R1.
    destruct o as [[]|msg|c].
    + rewrite (bind_Returned _ _ _ _ _ Ec). destruct R1 as [G1 S1].
      destruct (IH s1) as (evs2 & E2 & P2 & F2 & L2 & R2).
      exists (evs1 ++ evs2).
      rewrite geocoded_app, forecast_requests_app, slept_app, !length_app, G1, S1.
      cbn [replicate mjoin list_join].
      split; [by rewrite E2, E1, app_assoc|].
      split; [by apply prefix_app|]. split; [rewrite G1 in F1; lia|].
      split; [unfold server_started in *; by rewrite existsb_app, L1, L2|].
      intros Hr. destruct (R2 Hr) as [-> ->]. done.
    + rewrite (bind_Panicked _ _ _ _ _ Ec). cbn [fst snd]. exists evs1.
      split; [done|]. split; [|done]. cbn [replicate mjoin list_join].
      by apply prefix_app_r.
    + rewrite (bind_Exited _ _ _ _ _ Ec). cbn [fst snd]. exists evs1.
      split; [done|]. split; [|done]. cbn [replicate mjoin list_join].
      by apply prefix_app_r.
Qed.

(** What the loops do with a forecast is local. *)
Lemma timer_update_local (gauges : gmap string nat) loc fc :
  preserves (adds local_event) (for_range_map gauges (Timer.update_metric loc fc)).
Proof. apply for_range_map_adds. intros k a. apply update_metric_local. Qed.

Lemma maingo_update_local (t a : nat) loc (fc : forecast.Forecast) :
  preserves (adds (W := W) local_event)
    (child <- WithLabelValues t
                [loc; Sprintf_f (forecast.Latitude fc); Sprintf_f (forecast.Longitude fc)] ;;
     Set_ child (forecast.Temperature (forecast.Currently fc)) ;;;
     child <- WithLabelValues a
                [loc; Sprintf_f (forecast.Latitude fc); Sprintf_f (forecast.Longitude fc)] ;;
     Set_ child (forecast.ApparentTemperature (forecast.Currently fc))).
Proof.
  apply preserves_bind; [typeclasses eauto|apply WithLabelValues_adds|]. intros c1.
  apply preserves_bind; [typeclasses eauto|apply Set_adds|]. intros _.
  apply preserves_bind; [typeclasses eauto|apply WithLabelValues_adds|]. intros c2.
  apply Set_adds.
Qed.

Lemma collector_update_local (descs : gmap string prometheus.Desc) ch loc fc :
  preserves (adds local_event) (for_range_map descs (Collector.collect_metric ch loc fc)).
Proof. apply for_range_map_adds. intros k a. apply collect_metric_local. Qed.

(** In both timers, the goroutine asks the geocoder about every configured
    location in every cycle, in the order of the configuration, once per
    occurrence: after [n] cycles that returned it has asked about the
    whole list [n] times, and slept [n] times for the configured interval.
    However the run ends, what it has asked about is a prefix of that; the
    forecast service was asked at most as often as the geocoder, and no
    server was started. *)
Theorem timers_geocode_every_location_every_cycle :
  (forall (flags : Flags) (config : Timer.Config) (gauges : gmap string nat)
          (client : maps.Client) (n : nat) (st : state W),
      maps_NewClient (Timer.GoogleMapsAPIKey config) = Ok client ->
      let r := Timer.cycles n flags config gauges st in
      let tr := added st r.2 in
      geocoded tr `prefix_of` mjoin (replicate n (Timer.Locations config))
      /\ (length (forecast_requests tr) <= length (geocoded tr))%nat
      /\ server_started tr = false
      /\ (r.1 = Returned tt ->
          geocoded tr = mjoin (replicate n (Timer.Locations config))
          /\ slept tr = replicate n (flagSleepInterval flags)))
  /\ (forall (flags : Flags) (config : MainGo.Config) (t a : nat)
             (client : maps.Client) (n : nat) (st : state W),
         maps_NewClient (MainGo.GoogleMapsAPIKey config) = Ok client ->
         let r := MainGo.cycles n flags config t a st in
         let tr := added st r.2 in
         geocoded tr `prefix_of` mjoin (replicate n (MainGo.Locations config))
         /\ (length (forecast_requests tr) <= length (geocoded tr))%nat
         /\ server_started tr = false
         /\ (r.1 = Returned tt ->
             geocoded tr = mjoin (replicate n (MainGo.Locations config))
             /\ slept tr = replicate n (flagSleepInterval flags))).
Proof.
  split.
  - intros flags config gauges client n st Hc r tr.
    destruct (many_cycles_ask (Timer.cycle flags config gauges)
                (fun n => Timer.cycles n flags config gauges)
                (Timer.Locations config) (flagSleepInterval flags)
                (fun _ => eq_refl) (fun _ _ => eq_refl)
                (one_cycle_asks
                   (getWeather (Timer.GoogleMapsAPIKey config) (Timer.DarkskyAPIKey config))
                   (fun loc fc => for_range_map gauges (Timer.update_metric loc fc))
                   (Timer.Locations config) (flagSleepInterval flags)
                   (getWeather_asks _ _ client Hc)
                   (timer_update_local gauges))
                n st) as (evs & Et & Hrest).
    subst tr r. by rewrite (added_app _ _ _ Et).
  - intros flags config t a client n st Hc r tr.
    destruct (many_cycles_ask (MainGo.cycle flags config t a)
                (fun n => MainGo.cycles n flags config t a)
                (MainGo.Locations config) (flagSleepInterval flags)
                (fun _ => eq_refl) (fun _ _ => eq_refl)
                (one_cycle_asks
                   (getWeather (MainGo.GoogleMapsAPIKey config) (MainGo.DarkskyAPIKey config))
                   (fun loc fc =>
                      child <- WithLabelValues t
                                 [loc; Sprintf_f (forecast.Latitude fc);
                                  Sprintf_f (forecast.Longitude fc)] ;;
                      Set_ child (forecast.Temperature (forecast.Currently fc)) ;;;
                      child <- WithLabelValues a
                                 [loc; Sprintf_f (forecast.Latitude fc);
                                  Sprintf_f (forecast.Longitude fc)] ;;
                      Set_ child (forecast.ApparentTemperature (forecast.Currently fc)))
                   (MainGo.Locations config) (flagSleepInterval flags)
                   (getWeather_asks _ _ client Hc)
                   (maingo_update_local t a))
                n st) as (evs & Et & Hrest).
    subst tr r. by rewrite (added_app _ _ _ Et).
Qed.

(** Every run of the collector's [Collect], one per scrape and one at
    registration (through [Describe]), asks the geocoder about every
    configured location, in order, once per occurrence, and the forecast
    service at most as often: nothing is kept from one scrape to the
    next. *)
Theorem Collect_geocodes_every_location
    (wc : WeatherCollector) (ch : nat) (client : maps.Client) (st : state W) :
  maps_NewClient (gmapsAPIKey wc) = Ok client ->
  (let r := Collector.Collect wc ch st in
   let tr := added st r.2 in
   geocoded tr `prefix_of` locations wc
   /\ (length (forecast_requests tr) <= length (geocoded tr))%nat
   /\ (r.1 = Returned tt -> geocoded tr = locations wc))
  /\ (let r := Collector.Describe wc st in
      let tr := added st r.2 in
      geocoded tr `prefix_of` locations wc
      /\ (length (forecast_requests tr) <= length (geocoded tr))%nat
      /\ (forall ds, r.1 = Returned ds -> geocoded tr = locations wc)).
Proof.
  intros Hc.
  destruct (pass_asks
              (Collector.getWeather (gmapsAPIKey wc) (darkskyAPIKey wc))
              (fun loc fc => for_range_map (descs wc) (Collector.collect_metric ch loc fc))
              (Collector_getWeather_asks _ _ client Hc)
              (collector_update_local (descs wc) ch) (locations wc) st)
    as (evs & dn & Et & (G & F & _ & _) & P & R).
  destruct (pass_asks
              (Collector.getWeather (gmapsAPIKey wc) (darkskyAPIKey wc))
              (fun loc fc => for_range_map (descs wc)
                               (Collector.collect_metric Collector.describeChan loc fc))
              (Collector_getWeather_asks _ _ client Hc)
              (collector_update_local (descs wc) Collector.describeChan) (locations wc) st)
    as (evs' & dn' & Et' & (G' & F' & _ & _) & P' & R').
  split.
  - cbn zeta. change (for_range (locations wc) _) with (Collector.Collect wc ch) in Et, R.
    rewrite (added_app _ _ _ Et), G. split; [done|]. split; [exact F|exact R].
  - cbn zeta.
    change (for_range (locations wc) _)
      with (Collector.Collect wc Collector.describeChan) in Et', R'.
    unfold Collector.Describe.
    destruct (Collector.Collect wc Collector.describeChan st) as [[[]|msg|c] s1];
      cbn [fst snd] in *; rewrite (added_app _ _ _ Et'), G';
      (split; [done|]); (split; [exact F'|]); intros ds; try done.
    intros _. by apply R'.
Qed.
End CycleRequests.

(** ** The store only grows *)

Section Growth.
Context {W : Type} `{Env W}.
Implicit Types st : state W.

#[local] Instance grows_preorder : PreOrder (grows (W := W)).
Proof.
  split.
  - intros st. repeat split; done.
  - intros s1 s2 s3 (R1 & L1 & D1 & E1) (R2 & L2 & D2 & E2). split; [congruence|].
    split; [congruence|]. split; [intros a; by rewrite D2|]. intros a lvs Hs. by apply E2, E1.
Qed.

#[local] Instance grows_quiet : Quiet (grows (W := W)).
Proof. split; [typeclasses eauto|intros e st _|intros st w]; repeat split; done. Qed.

Lemma grows_write a lvs v st : grows st (set_heap (write a lvs v (heap st)) st).
Proof.
  split; [done|]. split; [apply length_write|]. split; [intros a'; apply write_desc|].
  intros a' lvs' Hs. unfold entry in *. cbn [heap set_heap].
  destruct (decide (a' = a /\ lvs' = lvs)) as [[-> ->]|Hne].
  - rewrite entry_write; [done|]. unfold entry_in in Hs.
    destruct (heap st !! a); [done|]. by destruct Hs.
  - rewrite entry_write_other; [done|].
    destruct (decide (a' = a)); [right|left]; naive_solver.
Qed.

Lemma WithLabelValues_grows gauge lvs : preserves grows (WithLabelValues (W := W) gauge lvs).
Proof.
  intros st o st'. unfold WithLabelValues.
  destruct (heap st !! gauge) as [gv|] eqn:Eg; [|by intros [= <- <-]].
  destruct (_ =? _)%nat; [|by intros [= <- <-]].
  destruct (prometheus.children gv !! lvs); intros [= <- <-]; [done|].
  pose proof (grows_write gauge lvs zero64 st) as Hg. unfold write in Hg. by rewrite Eg in Hg.
Qed.

Lemma Set_grows child v : preserves grows (Set_ (W := W) child v).
Proof.
  intros st o st'. unfold Set_.
  destruct (heap st !! child.1) as [gv|] eqn:Eg; intros [= <- <-]; [|done].
  pose proof (grows_write child.1 child.2 v st) as Hg. unfold write in Hg. by rewrite Eg in Hg.
Qed.

Lemma update_metric_grows loc fc k a : preserves grows (Timer.update_metric (W := W) loc fc k a).
Proof.
  unfold Timer.update_metric.
  destruct (getValueByFieldName k (forecast.Currently fc)) as [v [err|]].
  - apply log_Printf_quiet. typeclasses eauto.
  - apply preserves_bind; [typeclasses eauto|apply WithLabelValues_grows|].
    intros child. apply Set_grows.
Qed.

Lemma timer_update_location_grows config gauges loc :
  preserves grows (Timer.update_location (H := H) config gauges loc).
Proof.
  unfold Timer.update_location.
  apply preserves_bind; [typeclasses eauto|apply fmt_Printf_quiet; typeclasses eauto|].
  intros _. apply preserves_bind; [typeclasses eauto|apply getWeather_quiet; typeclasses eauto|].
  intros [fc|err]; [|apply log_Printf_quiet; typeclasses eauto].
  apply for_range_map_preserves; [typeclasses eauto|]. intros k a. apply update_metric_grows.
Qed.

Lemma maingo_update_location_grows config t a loc :
  preserves grows (MainGo.update_location (H := H) config t a loc).
Proof.
  unfold MainGo.update_location.
  apply preserves_bind; [typeclasses eauto|apply fmt_Printf_quiet; typeclasses eauto|].
  intros _. apply preserves_bind; [typeclasses eauto|apply getWeather_quiet; typeclasses eauto|].
  intros [fc|err]; [|apply log_Printf_quiet; typeclasses eauto].
  apply preserves_bind; [typeclasses eauto|apply WithLabelValues_grows|]. intros c1.
  apply preserves_bind; [typeclasses eauto|apply Set_grows|]. intros _.
  apply preserves_bind; [typeclasses eauto|apply WithLabelValues_grows|]. intros c2.
  apply Set_grows.
Qed.

Lemma cycle_shape_grows (locs : list string) (body : string -> M W unit) (d : Z) :
  (forall loc, preserves grows (body loc)) ->
  preserves grows
    (log_Printf "Fetching weather..." [] ;;;
     for_range locs body ;;;
     log_Printf "Sleeping %s..." [ADuration d] ;;;
     time_Sleep d).
Proof.
  intros Hbody.
  apply preserves_bind; [typeclasses eauto|apply log_Printf_quiet; typeclasses eauto|].
  intros _. apply preserves_bind; [typeclasses eauto| |].
  - apply preserves_for_range; [typeclasses eauto|]. intros loc _. apply Hbody.
  - intros _. apply preserves_bind; [typeclasses eauto|apply log_Printf_quiet; typeclasses eauto|].
    intros _. apply time_Sleep_quiet. typeclasses eauto.
Qed.

(** In both timers the goroutine never takes anything out of the store.
    After any number of cycles, however they went and however the run
    ended, the registry holds the collectors it held, the gauge vectors
    are the same vectors with the same descriptors, and every entry that
    was exposed before is still exposed: a series that was written once
    stays until the process ends. *)
Theorem cycles_never_drop_an_entry
    (n : nat) (flags : Flags) (st : state W) :
  (forall (config : Timer.Config) (gauges : gmap string nat),
      grows st (Timer.cycles n flags config gauges st).2)
  /\ (forall (config : MainGo.Config) (t a : nat),
         grows st (MainGo.cycles n flags config t a st).2).
Proof.
  split.
  - intros config gauges. revert st.
    assert (Hc : preserves grows (Timer.cycle (H := H) flags config gauges)).
    { apply cycle_shape_grows. intros loc. apply timer_update_location_grows. }
    induction n as [|n' IH]; intros st; [reflexivity|].
    cbn [Timer.cycles]. unfold bind.
    destruct (Timer.cycle flags config gauges st) as [[[]|msg|c] s1] eqn:E;
      pose proof (Hc _ _ _ E) as H1; cbn [snd]; [|done..].
    etransitivity; [exact H1|apply IH].
  - intros config t a. revert st.
    assert (Hc : preserves grows (MainGo.cycle (H := H) flags config t a)).
    { apply cycle_shape_grows. intros loc. apply maingo_update_location_grows. }
    induction n as [|n' IH]; intros st; [reflexivity|].
    cbn [MainGo.cycles]. unfold bind.
    destruct (MainGo.cycle flags config t a st) as [[[]|msg|c] s1] eqn:E;
      pose proof (Hc _ _ _ E) as H1; cbn [snd]; [|done..].
    etransitivity; [exact H1|apply IH].
Qed.
End Growth.

(** ** Startup, when it succeeds *)

Section Serving.
Context {W : Type} `{Env W}.
Implicit Types st : state W.

(** [LoadConfig], run: the file is read once, then decoded. *)
Lemma LoadConfig_run {Config} `{Unmarshal Config} filepath st :
  LoadConfig (Config := Config) filepath st
  = (Returned
       match (ioutil_ReadFile filepath (world st)).1 with
       | Err err => Err (wrapError ("failed to read config file: " +:+ Error err) err)
       | Ok data =>
           match json_Unmarshal data with
           | Err err => Err (wrapError ("failed to unmarshal JSON config: " +:+ Error err) err)
           | Ok config => Ok config
           end
       end,
     set_world (ioutil_ReadFile filepath (world st)).2 (add_event (FileRead filepath) st)).
Proof.
  unfold LoadConfig, ReadFile, bind, emit, call. cbn [world add_event].
  destruct (ioutil_ReadFile filepath (world st)) as [[data|err] w]; cbn [fst snd]; [|done].
  by destruct (json_Unmarshal data).
Qed.

Lemma Register_GaugeVec_run gauge gv st :
  heap st !! gauge = Some gv ->
  Register (GaugeVec_Describe gauge) (GaugeVecAt gauge) st
  = match (prometheus_Register [prometheus.gaugeDesc gv] (world st)).1 with
    | Some err =>
        (Returned (Some err),
         set_world (prometheus_Register [prometheus.gaugeDesc gv] (world st)).2 st)
    | None =>
        (Returned None,
         add_collector (GaugeVecAt gauge)
           (set_world (prometheus_Register [prometheus.gaugeDesc gv] (world st)).2 st))
    end.
Proof.
  intros Hg. unfold Register, GaugeVec_Describe, bind, call. rewrite Hg.
  by destruct (prometheus_Register _ (world st)) as [[err|] w].
Qed.

(** The loop that makes the timer's gauges, when every registration is
    accepted: one new vector per name of the list, in order, each without
    a child, each registered; no line is printed. *)
Lemma new_gauges_run (metrics : list string) :
  forall (gauges g' : gmap string nat) st st',
    Timer.new_gauges metrics gauges st = (Returned g', st') ->
    heap st' = heap st ++ (emptyVec <$> metrics)
    /\ registry st' = registry st ++ (GaugeVecAt <$> seq (length (heap st)) (length metrics))
    /\ trace st' = trace st.
Proof.
  induction metrics as [|key metrics IH]; intros gauges g' st st'; cbn [Timer.new_gauges].
  - intros [= <- <-]. cbn. by rewrite !app_nil_r.
  - unfold bind at 1. cbn [NewGaugeVec]. unfold bind at 1.
    rewrite (Register_GaugeVec_run _ (emptyVec key)); cycle 1.
    { cbn [heap set_heap]. by apply list_lookup_middle. }
    cbn [world set_heap].
    destruct (prometheus_Register _ (world st)).1 as [err|]; [by rewrite run_log_Fatalf|].
    intros Hrest. apply IH in Hrest as (Hh & Hr & Ht).
    cbn [heap registry trace add_collector set_world set_heap] in Hh, Hr, Ht.
    rewrite Hh, Hr, Ht, length_app, <- !app_assoc. cbn [length fmap list_fmap seq].
    split; [done|]. split; [|done]. by rewrite Nat.add_1_r.
Qed.

(** A scrape of vectors that have no child sends nothing. *)
Lemma Gather_empty ch (r : list collector) st :
  (forall c, c ∈ r ->
     exists a gv, c = GaugeVecAt a /\ heap st !! a = Some gv /\ prometheus.children gv = ∅) ->
  for_range r (fun c => match c with
                        | GaugeVecAt gauge => GaugeVec_Collect gauge ch
                        | Weather wc => Collector.Collect wc ch
                        end) st
  = (Returned tt, st).
Proof.
  induction r as [|c r IH]; intros Hr; [done|].
  cbn [for_range]. destruct (Hr c) as (a & gv & -> & Ha & Hc); [left|].
  unfold bind, GaugeVec_Collect. rewrite Ha, Hc, map_to_list_empty. cbn [for_range ret].
  apply IH. intros c Hin. apply Hr. by right.
Qed.

Lemma Gather_fresh ch st (h : list prometheus.GaugeVec) (keys : list string) st' :
  registry st' = GaugeVecAt <$> seq (length h) (length keys) ->
  heap st' = h ++ (emptyVec <$> keys) ->
  Gather ch st' = (Returned tt, st').
Proof.
  intros Hr Hh. unfold Gather. apply Gather_empty. rewrite Hr.
  intros c (a & -> & Ha)%list_elem_of_fmap. apply elem_of_seq in Ha as [Hlo Hhi].
  destruct (lookup_lt_is_Some_2 keys (a - length h)) as [k Hk]; [lia|].
  exists a, (emptyVec k). split; [done|]. split; [|done].
  rewrite Hh, lookup_app_r by lia. by rewrite list_lookup_fmap, Hk.
Qed.

Section TimerServing.
Context `{Unmarshal Timer.Config}.

End TimerServing.

Section MainGoServing.
Context `{Unmarshal MainGo.Config}.

End MainGoServing.

(** The collector's [Collect] and [Describe] leave the store alone. *)
Lemma for_range_map_same_store {V} (m : gmap string V) (body : string -> V -> M W unit) :
  (forall k v, preserves same_store (body k v)) ->
  preserves same_store (for_range_map (H := H) m body).
Proof. apply for_range_map_preserves. typeclasses eauto. Qed.

Lemma collect_metric_same_store ch loc fc k d :
  preserves same_store (Collector.collect_metric (W := W) ch loc fc k d).
Proof.
  unfold Collector.collect_metric.
  destruct (getValueByFieldName k (forecast.Currently fc)) as [v [err|]].
  - apply log_Printf_quiet. typeclasses eauto.
  - apply preserves_bind; [typeclasses eauto| |].
    + intros st o st'. unfold MustNewConstMetric.
      destruct (prometheus.err d); [by intros [= <- <-]|].
      destruct (_ =? _)%nat; by intros [= <- <-].
    + intros m st o st' [= <- <-]. done.
Qed.

Lemma Collect_same_store wc ch : preserves same_store (Collector.Collect (H := H) wc ch).
Proof.
  unfold Collector.Collect. apply preserves_for_range; [typeclasses eauto|].
  intros loc _. unfold Collector.collect_location.
  apply preserves_bind; [typeclasses eauto|apply fmt_Printf_quiet; typeclasses eauto|].
  intros _.
  apply preserves_bind;
    [typeclasses eauto|apply Collector_getWeather_quiet; typeclasses eauto|].
  intros [fc|err]; [|apply log_Printf_quiet; typeclasses eauto].
  apply for_range_map_same_store. intros k d. apply collect_metric_same_store.
Qed.

Lemma Register_accepted describe c st st' :
  Register (H := H) describe c st = (Returned None, st') ->
  exists ds sa, describe st = (Returned ds, sa)
                /\ heap st' = heap sa /\ trace st' = trace sa
                /\ registry st' = registry sa ++ [c].
Proof.
  unfold Register, bind, call.
  destruct (describe st) as [[ds| |] sa]; try done.
  destruct (prometheus_Register ds (world sa)) as [[err|] w]; [done|].
  intros [= <-]. by exists ds, sa.
Qed.

Section CollectorServing.
Context `{Unmarshal Collector.Config}.

(** When [main] of the collector gets to serve, the configuration was
    loaded and names at least one location and one metric; [main] has
    made no gauge vector and has registered one collector, made of the
    configured locations, the descriptors of the configured metric names
    and the two keys.  Between printing the two lists and mounting the
    handler it has run [Collect] once, for the registration: before the
    server listens, the geocoder was asked about every location. *)
Theorem collector_main_serving (flags : Flags) (st st' : state W) :
  Collector.main flags st = (Returned tt, st') ->
  exists config st1 evs,
    LoadConfig (flagConfigFile flags) st = (Returned (Ok config), st1)
    /\ Collector.Locations config <> []
    /\ Collector.Metrics config <> []
    /\ heap st' = heap st
    /\ registry st'
       = registry st
         ++ [Weather (Collector.NewWeatherCollector (Collector.Locations config)
                        (Collector.getDescs (Collector.Metrics config))
                        (Collector.GoogleMapsAPIKey config)
                        (Collector.DarkskyAPIKey config))]
    /\ added st st'
       = [FileRead (flagConfigFile flags);
          Printed "Locations (%d): %s\n"
            [AInt (Z.of_nat (length (Collector.Locations config)));
             AStrings (Collector.Locations config)];
          Printed "Metrics (%d): %s"
            [AInt (Z.of_nat (length (Collector.Metrics config)));
             AStrings (Collector.Metrics config)]]
         ++ evs
         ++ [Handled (flagPath flags);
             Logged "Starting server on %s" [AString (flagListen flags)];
             Listening (flagListen flags)]
    /\ server_started evs = false
    /\ (forall client,
          maps_NewClient (Collector.GoogleMapsAPIKey config) = Ok client ->
          geocoded evs = Collector.Locations config).
Proof.
  unfold Collector.main. unfold bind at 1. rewrite LoadConfig_run.
  set (r := match (ioutil_ReadFile _ _).1 with Err _ => _ | Ok _ => _ end).
  set (s1 := set_world _ _).
  destruct r as [config|err] eqn:Er; [|by rewrite run_log_Fatalf].
  run.
  destruct (length (Collector.Locations config) =? 0)%nat eqn:El; [by run|].
  destruct (length (Collector.Metrics config) =? 0)%nat eqn:Em; [by run|].
  run. set (s2 := add_event _ (add_event _ s1)).
  set (wc := Collector.NewWeatherCollector _ _ _ _).
  unfold bind at 1.
  destruct (Register (Collector.Describe wc) (Weather wc) s2) as [o s3] eqn:ER.
  destruct o as [[err|]|msg|c]; [by run| |done|done].
  run. unfold http_ListenAndServe, emit. intros [= <-].
  destruct (Register_accepted _ _ _ _ ER) as (ds & sa & Ed & Hh & Ht & Hr).
  unfold Collector.Describe in Ed.
  destruct (Collector.Collect wc Collector.describeChan s2) as [o sc] eqn:Ec.
  destruct o as [[]|msg|c]; try done. injection Ed as _ <-.
  destruct (Collect_same_store wc _ _ _ _ Ec) as [Hh2 Hr2].
  destruct (Collect_not_listening wc _ _ _ _ Ec) as (evs & Et & Hl).
  exists config, s1, evs. split; [done|].
  split; [intros E0; by rewrite E0 in El|]. split; [intros E0; by rewrite E0 in Em|].
  cbn [heap registry add_event]. rewrite Hh, Hh2, Hr, Hr2.
  split; [done|]. split; [done|]. split; [|split].
  - apply added_app. cbn [trace add_event]. rewrite Ht, Et. subst s2 s1. cbn.
    by rewrite <- !app_assoc.
  - rewrite <- (added_app _ _ _ Et). apply server_not_started. by exists evs.
  - intros client Hc.
    destruct (pass_asks
                (Collector.getWeather (gmapsAPIKey wc) (darkskyAPIKey wc))
                (fun loc fc => for_range_map (descs wc)
                                 (Collector.collect_metric Collector.describeChan loc fc))
                (Collector_getWeather_asks _ _ client Hc)
                (collector_update_local (descs wc) Collector.describeChan) (locations wc) s2)
      as (evs' & dn & Et' & (G & _) & _ & R).
    change (for_range (locations wc) _)
      with (Collector.Collect wc Collector.describeChan) in Et', R.
    rewrite Ec in Et', R. cbn [fst snd] in Et', R.
    rewrite Et in Et'. apply app_inv_head in Et' as ->. rewrite G. by apply R.
Qed.

End CollectorServing.
End Serving.

(** ** A geocoding result without an address component *)

Section Nameless.
Context {W : Type} `{Env W}.
Implicit Types st : state W.

Lemma getWeather_panics k1 k2 loc client r0 rs st :
  maps_NewClient k1 = Ok client ->
  (maps_Geocode client {| maps.Address := loc |} (world st)).1 = Ok (r0 :: rs) ->
  maps.AddressComponents r0 = [] ->
  let st1 := set_world (maps_Geocode client {| maps.Address := loc |} (world st)).2
               (add_event (GeocodeRequest (maps.APIKey client) loc) st) in
  getLocation k1 loc st
  = (Panicked "runtime error: index out of range [0] with length 0", st1)
  /\ getWeather k1 k2 loc st
     = (Panicked "runtime error: index out of range [0] with length 0", st1)
  /\ Collector.getWeather k1 k2 loc st
     = (Panicked "runtime error: index out of range [0] with length 0", st1).
Proof.
  intros Hc Hg Ha st1.
  assert (E : getLocation k1 loc st
              = (Panicked "runtime error: index out of range [0] with length 0", st1)).
  { rewrite (getLocation_run _ _ _ _ Hc), Hg, Ha. done. }
  split; [done|].
  split; [unfold getWeather|unfold Collector.getWeather];
    by rewrite (bind_Panicked _ _ _ _ _ E).
Qed.

(** A geocoder answer whose first result has no address component is not
    skipped like a failure: [getLocation] indexes [AddressComponents[0]]
    and panics, and nothing between it and the loops recovers.  The
    goroutine of either timer, come to such a location, ends in the panic
    in that very cycle: the store is as it was, the forecast service was
    not asked, the locations after it were not visited and nobody slept.
    The collector's [Collect] ends in the same way. *)
Theorem nameless_geocoding_result_panics
    (k1 k2 loc : string) (rest : list string) (client : maps.Client)
    (r0 : maps.GeocodingResult) (rs : list maps.GeocodingResult) (st : state W) :
  maps_NewClient k1 = Ok client ->
  (maps_Geocode client {| maps.Address := loc |} (world st)).1 = Ok (r0 :: rs) ->
  maps.AddressComponents r0 = [] ->
  (forall (flags : Flags) (n : nat) (gauges : gmap string nat) (config : Timer.Config),
      Timer.GoogleMapsAPIKey config = k1 -> Timer.Locations config = loc :: rest ->
      let r := Timer.cycles (S n) flags config gauges st in
      r.1 = Panicked "runtime error: index out of range [0] with length 0"
      /\ heap r.2 = heap st
      /\ added st r.2
         = [Logged "Fetching weather..." [];
            Printed "Getting weather for %s\n" [AString loc];
            GeocodeRequest (maps.APIKey client) loc])
  /\ (forall (flags : Flags) (n t a : nat) (config : MainGo.Config),
         MainGo.GoogleMapsAPIKey config = k1 -> MainGo.Locations config = loc :: rest ->
         let r := MainGo.cycles (S n) flags config t a st in
         r.1 = Panicked "runtime error: index out of range [0] with length 0"
         /\ heap r.2 = heap st
         /\ added st r.2
            = [Logged "Fetching weather..." [];
               Printed "Getting weather for %s\n" [AString loc];
               GeocodeRequest (maps.APIKey client) loc])
  /\ (forall (wc : WeatherCollector) (ch : nat),
         gmapsAPIKey wc = k1 -> locations wc = loc :: rest ->
         let r := Collector.Collect wc ch st in
         r.1 = Panicked "runtime error: index out of range [0] with length 0"
         /\ sent ch (added st r.2) = []
         /\ added st r.2
            = [Printed "Getting weather for %s\n" [AString loc];
               GeocodeRequest (maps.APIKey client) loc]).
Proof.
  intros Hc Hg Ha. split; [|split].
  - intros flags n gauges config Hk Hl r. subst r.
    destruct (getWeather_panics k1 (Timer.DarkskyAPIKey config) loc client r0 rs
                (add_event (Printed "Getting weather for %s\n" [AString loc])
                   (add_event (Logged "Fetching weather..." []) st)) Hc Hg Ha)
      as (_ & E & _).
    cbn [Timer.cycles]. unfold Timer.cycle. rewrite Hl. cbn [for_range].
    unfold Timer.update_location. rewrite Hk. unfold bind, fmt_Printf, log_Printf, emit. cbv beta iota. rewrite E.
    cbn [fst snd heap set_world add_event]. split; [done|]. split; [done|].
    apply added_app. cbn. by rewrite <- !app_assoc.
  - intros flags n t a config Hk Hl r. subst r.
    destruct (getWeather_panics k1 (MainGo.DarkskyAPIKey config) loc client r0 rs
                (add_event (Printed "Getting weather for %s\n" [AString loc])
                   (add_event (Logged "Fetching weather..." []) st)) Hc Hg Ha)
      as (_ & E & _).
    cbn [MainGo.cycles]. unfold MainGo.cycle. rewrite Hl. cbn [for_range].
    unfold MainGo.update_location. rewrite Hk. unfold bind, fmt_Printf, log_Printf, emit. cbv beta iota. rewrite E.
    cbn [fst snd heap set_world add_event]. split; [done|]. split; [done|].
    apply added_app. cbn. by rewrite <- !app_assoc.
  - intros wc ch Hk Hl r. subst r.
    destruct (getWeather_panics k1 (darkskyAPIKey wc) loc client r0 rs
                (add_event (Printed "Getting weather for %s\n" [AString loc]) st) Hc Hg Ha)
      as (_ & _ & E).
    unfold Collector.Collect. rewrite Hl. cbn [for_range].
    unfold Collector.collect_location. rewrite Hk. unfold bind, fmt_Printf, log_Printf, emit. cbv beta iota. rewrite E.
    cbn [fst snd]. split; [done|].
    erewrite added_app by (cbn; by rewrite <- !app_assoc). done.
Qed.
End Nameless.

(** ** The two timers *)

Section TwoTimers.
Context {W : Type} `{Env W}.
Implicit Types st : state W.

Lemma write_commute a1 lvs1 v1 a2 lvs2 v2 (h : list prometheus.GaugeVec) :
  a1 <> a2 ->
  write a1 lvs1 v1 (write a2 lvs2 v2 h) = write a2 lvs2 v2 (write a1 lvs1 v1 h).
Proof.
  intros Hne. unfold write.
  destruct (h !! a1) as [g1|] eqn:E1; destruct (h !! a2) as [g2|] eqn:E2;
    rewrite ?list_lookup_insert_ne, ?E1, ?E2 by done; try done.
  by apply list_insert_insert_ne.
Qed.

Lemma two_gauges_keys (t a : nat) w :
  (range_order (fst <$> map_to_list (two_gauges t a)) w).1
    = ["temperature"; "apparent_temperature"]
  \/ (range_order (fst <$> map_to_list (two_gauges t a)) w).1
     = ["apparent_temperature"; "temperature"].
Proof.
  apply Permutation_length_2_inv. symmetry.
  etransitivity; [apply range_order_perm|].
  unfold two_gauges. rewrite map_to_list_insert by done.
  rewrite map_to_list_insert by done. by rewrite map_to_list_empty.
Qed.

(** The later timer, configured with the two metric names ["temperature"]
    and ["apparent_temperature"], is the timer of [src/main.go].  At
    startup, when the registry accepts both, its loop makes the two gauge
    vectors that [src/main.go] makes, at consecutive addresses and
    registered in the same order.  In the goroutine, for the same keys, a
    location's turn ends in the same way in both, with the same store, the
    same registry and the same lines and requests in the trace, in
    whichever order Go ranges over the map of gauges. *)
Theorem timer_with_two_metrics_is_maingo :
  (forall (U : Unmarshal Timer.Config) (st st' : state W) (g : gmap string nat),
      Timer.new_gauges ["temperature"; "apparent_temperature"] ∅ st = (Returned g, st') ->
      g = two_gauges (length (heap st)) (S (length (heap st)))
      /\ heap st' = heap st ++ [emptyVec "temperature"; emptyVec "apparent_temperature"]
      /\ registry st'
         = registry st ++ [GaugeVecAt (length (heap st)); GaugeVecAt (S (length (heap st)))])
  /\ (forall (config2 : Timer.Config) (config1 : MainGo.Config) (t a : nat)
             (loc : string) (st : state W),
         gauges_ok (heap st) (two_gauges t a) ->
         Timer.GoogleMapsAPIKey config2 = MainGo.GoogleMapsAPIKey config1 ->
         Timer.DarkskyAPIKey config2 = MainGo.DarkskyAPIKey config1 ->
         let r2 := Timer.update_location config2 (two_gauges t a) loc st in
         let r1 := MainGo.update_location config1 t a loc st in
         r2.1 = r1.1 /\ heap r2.2 = heap r1.2 /\ registry r2.2 = registry r1.2
         /\ trace r2.2 = trace r1.2).
Proof.
  split.
  - intros U st st' g Hrun.
    destruct (new_gauges_run _ _ _ _ _ Hrun) as (Hh & Hr & _).
    split; [|split; [exact Hh|exact Hr]]. clear Hh Hr.
    revert Hrun. cbn [Timer.new_gauges]. unfold bind at 1. cbn [NewGaugeVec]. unfold bind at 1.
    destruct (Register _ _ _) as [[[err|]|msg|c] s1] eqn:E1; try done.
    pose proof (Register_GaugeVec_heap _ _ _ _ E1) as Hh1. cbn [heap set_heap] in Hh1.
    unfold bind at 1. cbn [NewGaugeVec]. unfold bind at 1.
    lazymatch goal with
    | |- context [Register ?d ?c ?s] =>
        destruct (Register d c s) as [[[err|]|msg|c'] s2] eqn:E2; try done
    end.
    intros [= <- _]. rewrite Hh1, length_app, Nat.add_1_r.
    unfold two_gauges. by apply insert_insert_ne.
  - intros config2 config1 t a loc st Hok Hk1 Hk2 r2 r1. subst r2 r1.
    destruct (getWeather (MainGo.GoogleMapsAPIKey config1) (MainGo.DarkskyAPIKey config1) loc
                (add_event (Printed "Getting weather for %s\n" [AString loc]) st))
      as [[[fc|err]|msg|c] s1] eqn:Ew.
    + rewrite (MainGo_update_location_Ok _ _ _ _ _ _ _ Hok Ew).
      rewrite <- Hk1, <- Hk2 in Ew. rewrite (update_location_Ok _ _ _ _ _ _ Hok Ew).
      cbn zeta. cbn [fst snd heap registry trace set_heap].
      pose proof (two_gauges_distinct _ _ _ Hok) as Hne.
      destruct (two_gauges_keys t a (world s1)) as [-> | ->];
        cbn [foldl flat_map app]; unfold update_heap, update_events, two_gauges;
        rewrite ?lookup_insert_eq, ?lookup_insert_ne, ?lookup_insert_eq by done;
        cbn [getValueByFieldName String.eqb Ascii.eqb Bool.eqb fst snd trace add_events
             set_world registry app];
        rewrite ?app_nil_r; repeat split; try done.
      by apply write_commute.
    + rewrite (MainGo_update_location_Err _ _ _ _ _ _ _ Ew).
      rewrite <- Hk1, <- Hk2 in Ew. by rewrite (update_location_Err _ _ _ _ _ _ Ew).
    + unfold MainGo.update_location, Timer.update_location.
      rewrite Hk1, Hk2. run. by rewrite !(bind_Panicked _ _ _ _ _ Ew).
    + unfold MainGo.update_location, Timer.update_location.
      rewrite Hk1, Hk2. run. by rewrite !(bind_Exited _ _ _ _ _ Ew).
Qed.
End TwoTimers.

(** ** The samples of one location *)

Section OnePerMetric.
Context {W : Type} `{Env W}.
Implicit Types st : state W.

Lemma getDescs_keys (metrics : list string) :
  (fst <$> map_to_list (Collector.getDescs metrics)) ≡ₚ remove_dups metrics.
Proof.
  apply NoDup_Permutation.
  - apply NoDup_fst_map_to_list.
  - apply NoDup_remove_dups.
  - intros k. rewrite elem_of_remove_dups, list_elem_of_fmap. split.
    + intros ([k' d] & -> & Hin). apply elem_of_map_to_list in Hin.
      rewrite getDescs_lookup in Hin. cbn. by destruct (decide (k' ∈ metrics)).
    + intros Hin. exists (k, weatherDesc k). split; [done|].
      apply elem_of_map_to_list. rewrite getDescs_lookup. by rewrite decide_True.
Qed.

Lemma sent_metric_events_list metrics ch loc fc (ks : list string) :
  (forall k, k ∈ ks -> k ∈ metrics) ->
  sent ch (flat_map (metric_events (Collector.getDescs metrics) ch loc fc) ks)
  = omap (sample_for loc fc) ks.
Proof.
  induction ks as [|k ks IH]; intros Hin; [done|].
  cbn [flat_map omap list_omap]. rewrite sent_app, IH by (intros k' Hk'; apply Hin; by right).
  unfold metric_events. unfold sample_for at 2.
  rewrite getDescs_lookup, decide_True by (apply Hin; left).
  destruct (getValueByFieldName k (forecast.Currently fc)) as [v [err|]];
    cbn [sent omap list_omap app]; [done|].
  by rewrite Nat.eqb_refl.
Qed.

Lemma sample_for_inj loc fc k1 k2 m :
  sample_for loc fc k1 = Some m -> sample_for loc fc k2 = Some m -> k1 = k2.
Proof.
  unfold sample_for.
  destruct (getValueByFieldName k1 _) as [v1 [e1|]]; [done|].
  destruct (getValueByFieldName k2 _) as [v2 [e2|]]; [done|].
  intros Hm1 Hm2. apply weatherDesc_inj.
  change (prometheus.desc (sample (weatherDesc k1) loc fc v1)
          = prometheus.desc (sample (weatherDesc k2) loc fc v2)).
  congruence.
Qed.

Lemma NoDup_omap_sample_for loc fc (ks : list string) :
  NoDup ks -> NoDup (omap (sample_for loc fc) ks).
Proof.
  induction 1 as [|k ks Hk Hks IH]; [constructor|]. cbn [omap list_omap].
  destruct (sample_for loc fc k) as [m|] eqn:Em; [|done].
  constructor; [|done]. intros (k' & Hk' & Em')%list_elem_of_omap.
  by rewrite (sample_for_inj _ _ _ _ _ Em Em') in Hk.
Qed.

(** [getDescs] makes one descriptor per distinct name: the map it returns
    depends on which names the list holds, not on their order nor on how
    often a name is listed.  So the collector sends, for a location whose
    forecast it got, exactly one sample per distinct configured name that
    [getValueByFieldName] supports, in some order, and no two of them
    alike. *)
Theorem one_sample_per_distinct_metric :
  (forall metrics1 metrics2 : list string,
      (forall k, k ∈ metrics1 <-> k ∈ metrics2) ->
      Collector.getDescs metrics1 = Collector.getDescs metrics2)
  /\ (forall (wc : WeatherCollector) (metrics : list string) (ch : nat) (loc : string)
             (fc : forecast.Forecast) (st st1 : state W),
         descs wc = Collector.getDescs metrics ->
         Collector.getWeather (gmapsAPIKey wc) (darkskyAPIKey wc) loc
           (add_event (Printed "Getting weather for %s\n" [AString loc]) st)
         = (Returned (Ok fc), st1) ->
         exists st',
           Collector.collect_location wc ch loc st = (Returned tt, st')
           /\ sent ch (added st st') ≡ₚ omap (sample_for loc fc) (remove_dups metrics)
           /\ NoDup (sent ch (added st st'))).
Proof.
  split.
  - intros m1 m2 Hsame. apply map_eq. intros k. rewrite !getDescs_lookup.
    destruct (decide (k ∈ m1)) as [H1|H1], (decide (k ∈ m2)) as [H2|H2]; try done;
      by apply Hsame in H1 || by apply Hsame in H2.
  - intros wc metrics ch loc fc st st1 Hd Hw.
    assert (Hsound : sound_descs (descs wc)) by (rewrite Hd; apply getDescs_sound).
    pose proof (collect_location_Ok wc ch loc st fc st1 Hsound Hw) as Hrun.
    cbn zeta in Hrun. eexists. split; [exact Hrun|].
    set (ks := (range_order (fst <$> map_to_list (descs wc)) (world st1)).1).
    assert (Hks : ks ≡ₚ remove_dups metrics).
    { subst ks. etransitivity; [apply range_order_perm|]. rewrite Hd. apply getDescs_keys. }
    assert (Hsent : sent ch (added st
                      (add_events (flat_map (metric_events (descs wc) ch loc fc) ks)
                         (set_world (range_order (fst <$> map_to_list (descs wc))
                                       (world st1)).2 st1)))
                    = omap (sample_for loc fc) ks).
    { pose proof (Collector_getWeather_quiet (adds (not_sent_on ch)) _ _ _ _ _ _ Hw)
        as (evs & E & F).
      simpl in E. erewrite added_app; cycle 1.
      { cbn [add_events set_world trace]. rewrite E, <- !app_assoc. reflexivity. }
      rewrite !sent_app, (sent_none _ _ F). cbn [sent omap list_omap app]. rewrite Hd.
      apply sent_metric_events_list. intros k Hk.
      assert (Hk' : k ∈ remove_dups metrics) by (by rewrite <- Hks).
      by apply elem_of_remove_dups. }
    rewrite Hsent. split.
    + by rewrite Hks.
    + apply NoDup_omap_sample_for. rewrite Hks. apply NoDup_remove_dups.
Qed.
End OnePerMetric.

(** ** What the collector describes itself by *)

Section Described.
Context {W : Type} `{Env W}.
Implicit Types st : state W.

(** [Describe], which is [DescribeByCollect], runs [Collect] on a channel
    of its own and describes the collector by the descriptors of what was
    collected.  When it returns, each descriptor it hands to the registry
    is the one [getDescs] made for a configured metric name that
    [getValueByFieldName] supports: it has a valid name, [weather_<name>],
    and the three labels; there are as many as samples were collected,
    none if no forecast was got; and the store is as it was. *)
Theorem Describe_hands_on_collected_descriptors
    (wc : WeatherCollector) (metrics : list string)
    (st st' : state W) (ds : list prometheus.Desc) :
  descs wc = Collector.getDescs metrics ->
  Collector.Describe wc st = (Returned ds, st') ->
  Collector.Collect wc Collector.describeChan st = (Returned tt, st')
  /\ ds = prometheus.desc <$> sent Collector.describeChan (added st st')
  /\ (forall d, d ∈ ds ->
        exists k, k ∈ metrics /\ k ∈ supported_fields
                  /\ d = weatherDesc k
                  /\ prometheus.fqName d = "weather_" +:+ k
                  /\ prometheus.variableLabels d = ["location"; "latitude"; "longitude"]
                  /\ prometheus.err d = None)
  /\ heap st' = heap st /\ registry st' = registry st.
Proof.
  intros Hd. unfold Collector.Describe.
  destruct (Collector.Collect wc Collector.describeChan st) as [o sc] eqn:Ec.
  destruct o as [[]|msg|c]; try done. intros [= <- <-].
  split; [done|]. split; [done|]. split.
  - intros d (m & -> & Hm)%list_elem_of_fmap.
    destruct (for_range_collect_samples wc Collector.describeChan metrics (locations wc) Hd
                st _ _ Ec m Hm) as (loc & fc & k & v & _ & Hk & Hv & -> & _).
    exists k. pose proof (getValueByFieldName_nil _ _ _ Hv) as Hs.
    repeat split; try done. by apply weatherDesc_valid.
  - by destruct (Collect_same_store wc _ _ _ _ Ec).
Qed.
End Described.

(** ** Errors *)

Section Errors.
Context {W : Type} `{Env W}.
Implicit Types st : state W.

(** [LoadConfig] reads the named file once and touches nothing else; it
    always returns.  It returns a configuration exactly when the file was
    read and its content decoded, and then it is the decoded one.
    Otherwise its error says which of the two steps failed and wraps the
    error of that step, so that [errors.Unwrap] gives it back. *)
Theorem LoadConfig_outcome {Config : Type} (U : Unmarshal Config)
    (filepath : string) (st : state W) :
  let r := LoadConfig (Config := Config) filepath st in
  let read := (ioutil_ReadFile filepath (world st)).1 in
  added st r.2 = [FileRead filepath]
  /\ heap r.2 = heap st /\ registry r.2 = registry st
  /\ (forall config,
        r.1 = Returned (Ok config)
        <-> exists data, read = Ok data /\ json_Unmarshal data = Ok config)
  /\ (forall msg, r.1 <> Panicked msg) /\ (forall c, r.1 <> Exited c)
  /\ (forall e, r.1 = Returned (Err e) ->
        exists cause,
          Unwrap e = Some cause
          /\ ((read = Err cause
               /\ Error e = "failed to read config file: " +:+ Error cause)
              \/ (exists data, read = Ok data /\ json_Unmarshal (T := Config) data = Err cause
                               /\ Error e = "failed to unmarshal JSON config: "
                                            +:+ Error cause))).
Proof.
  intros r read. subst r read. rewrite LoadConfig_run. cbn [fst snd].
  split; [by apply added_app|]. split; [done|]. split; [done|].
  destruct (ioutil_ReadFile filepath (world st)).1 as [data|err].
  - destruct (json_Unmarshal data) as [config|err] eqn:Ej.
    + split; [|by repeat split].
      intros config'. split; [intros [= <-]; by exists data|].
      intros (data' & [= <-] & Hj). congruence.
    + split; [|split; [done|split; [done|]]].
      * intros config'. split; [done|]. intros (data' & [= <-] & Hj). congruence.
      * intros e [= <-]. exists err. split; [done|]. right. by exists data.
  - split; [|split; [done|split; [done|]]].
    + intros config'. split; [done|]. by intros (data' & ? & _).
    + intros e [= <-]. exists err. split; [done|]. by left.
Qed.

(** Every error of [getWeather], in both variants, names the step that
    failed.  Either the search failed: no client could be made, or the
    geocoder refused, or it found nothing; the error reads "GMaps search
    failed: ..." and wraps the cause, and the forecast service was not
    asked.  Or the forecast request failed: the error reads "forecast
    request failed: ..." and wraps the cause.  Or the forecast came in
    other units than SI: the error names the units and wraps nothing. *)
Theorem getWeather_error_names_the_step
    (k1 k2 loc : string) (st st' : state W) (e : error) :
  getWeather k1 k2 loc st = (Returned (Err e), st')
  \/ Collector.getWeather k1 k2 loc st = (Returned (Err e), st') ->
  (exists cause,
      e = wrapError ("GMaps search failed: " +:+ Error cause) cause
      /\ forecast_requests (added st st') = []
      /\ (maps_NewClient k1 = Err cause
          \/ exists client,
               maps_NewClient k1 = Ok client
               /\ ((maps_Geocode client {| maps.Address := loc |} (world st)).1 = Err cause
                   \/ ((maps_Geocode client {| maps.Address := loc |} (world st)).1 = Ok []
                       /\ cause = errorString ("no location found for '" +:+ loc +:+ "'")))))
  \/ (exists cause l st1,
         e = wrapError ("forecast request failed: " +:+ Error cause) cause
         /\ getLocation k1 loc st = (Returned (Ok l), st1)
         /\ (forecast_Get k2 (LatString l) (LngString l) "now" "si" "en" (world st1)).1
            = Err cause)
  \/ (exists fc,
         e = errorString ("units are not SI: got " +:+ forecast.Units (forecast.flags fc))
         /\ Unwrap e = None
         /\ forecast.Units (forecast.flags fc) <> "si").
Proof.
  assert (Hloc : forall err s1,
            getLocation k1 loc st = (Returned (Err err), s1) ->
            forecast_requests (added st s1) = []
            /\ (maps_NewClient k1 = Err err
                \/ exists client,
                     maps_NewClient k1 = Ok client
                     /\ ((maps_Geocode client {| maps.Address := loc |} (world st)).1 = Err err
                         \/ ((maps_Geocode client {| maps.Address := loc |} (world st)).1
                             = Ok []
                             /\ err = errorString
                                        ("no location found for '" +:+ loc +:+ "'"))))).
  { intros err s1. destruct (maps_NewClient k1) as [client|err0] eqn:Hc.
    - rewrite (getLocation_run _ _ _ _ Hc).
      destruct (maps_Geocode client _ (world st)).1 as [[|r0 rs]|err1] eqn:Eg.
      + intros [= <- <-]. split; [by erewrite added_app by reflexivity|].
        right. exists client. split; [done|]. by right.
      + by destruct (maps.AddressComponents r0).
      + intros [= <- <-]. split; [by erewrite added_app by reflexivity|].
        right. exists client. split; [done|]. by left.
    - rewrite (getLocation_no_client _ _ _ _ Hc). intros [= <- <-].
      split; [by rewrite added_refl|]. by left. }
  assert (Hunits : forall u : string, negb (String.eqb u forecast.SI) = true -> u <> "si").
  { intros u Hu ->. done. }
  intros [Hw|Hw]; revert Hw.
  - unfold getWeather, bind.
    destruct (getLocation k1 loc st) as [[[l|err]|msg|c] s1] eqn:El; try done.
    + rewrite Get_run. cbn [fst snd].
      destruct (forecast_Get _ _ _ _ _ _ (world s1)).1 as [fc|err] eqn:Ef.
      * destruct (negb _) eqn:Eu; [|done]. intros [= <- <-]. right. right.
        exists fc. split; [done|]. split; [done|]. by apply Hunits.
      * intros [= <- <-]. right. left. by exists err, l, s1.
    + intros [= <- <-]. left. exists err. split; [done|]. by apply Hloc.
  - unfold Collector.getWeather, bind.
    destruct (getLocation k1 loc st) as [[[l|err]|msg|c] s1] eqn:El; try done.
    + rewrite Get_run. cbn [fst snd].
      destruct (forecast_Get _ _ _ _ _ _ (world s1)).1 as [fc|err] eqn:Ef.
      * unfold log_Printf, emit. destruct (negb _) eqn:Eu; [|done]. intros [= <- <-].
        right. right. exists fc. split; [done|]. split; [done|]. by apply Hunits.
      * intros [= <- <-]. right. left. by exists err, l, s1.
    + intros [= <- <-]. left. exists err. split; [done|]. by apply Hloc.
Qed.
End Errors.

(** ** From the store to the scrape *)

Section Exposition.
Context {W : Type} `{Env W}.
Implicit Types st : state W.

Lemma sent_Sent ch (ms : list prometheus.Metric) : sent ch (Sent ch <$> ms) = ms.
Proof.
  induction ms as [|m ms IH]; [done|]. cbn. rewrite Nat.eqb_refl. f_equal. exact IH.
Qed.

Lemma GaugeVec_Collect_run gauge gv ch st :
  heap st !! gauge = Some gv ->
  GaugeVec_Collect gauge ch st
  = (Returned tt,
     add_events (Sent ch <$> (child_sample gv <$> map_to_list (prometheus.children gv))) st).
Proof.
  intros Hg. unfold GaugeVec_Collect. rewrite Hg.
  apply (for_range_send ch (map_to_list (prometheus.children gv)) (child_sample gv)).
Qed.

Lemma Gather_run ch (r : list collector) st :
  (forall c, c ∈ r -> exists a, c = GaugeVecAt a /\ is_Some (heap st !! a)) ->
  for_range r (fun c => match c with
                        | GaugeVecAt gauge => GaugeVec_Collect gauge ch
                        | Weather wc => Collector.Collect wc ch
                        end) st
  = (Returned tt,
     add_events
       (Sent ch <$>
          flat_map (fun c => match c with
                             | GaugeVecAt a =>
                                 match heap st !! a with
                                 | Some gv =>
                                     child_sample gv <$> map_to_list (prometheus.children gv)
                                 | None => []
                                 end
                             | Weather _ => []
                             end) r) st).
Proof.
  assert (Hgen : forall evs,
    (forall c, c ∈ r -> exists a, c = GaugeVecAt a /\ is_Some (heap st !! a)) ->
    for_range r (fun c => match c with
                          | GaugeVecAt gauge => GaugeVec_Collect gauge ch
                          | Weather wc => Collector.Collect wc ch
                          end) (add_events evs st)
    = (Returned tt,
       add_events
         (evs ++ (Sent ch <$>
            flat_map (fun c => match c with
                               | GaugeVecAt a =>
                                   match heap st !! a with
                                   | Some gv =>
                                       child_sample gv <$> map_to_list (prometheus.children gv)
                                   | None => []
                                   end
                               | Weather _ => []
                               end) r)) st)).
  { induction r as [|c r IH]; intros evs Hr.
    - cbn. by rewrite app_nil_r.
    - destruct (Hr c) as (a & -> & [gv Hg]); [left|].
      cbn [for_range flat_map]. rewrite Hg.
      rewrite (bind_Returned _ _ _ tt
                 (add_events (evs ++ (Sent ch <$> (child_sample gv <$>
                                        map_to_list (prometheus.children gv)))) st)).
      + rewrite IH by (intros c Hc; apply Hr; by right).
        by rewrite fmap_app, app_assoc.
      + rewrite (GaugeVec_Collect_run a gv) by done. by rewrite add_events_app. }
  intros Hr. specialize (Hgen [] Hr). by rewrite add_events_nil in Hgen.
Qed.

(** What a scrape of gauge vectors sends: the entries of the store. *)
Lemma Gather_sent ch st :
  gauges_registered st ->
  (Gather ch st).1 = Returned tt
  /\ forall m : prometheus.Metric,
       m ∈ sent ch (added st (Gather ch st).2)
       <-> exists a gv lvs v,
             GaugeVecAt a ∈ registry st /\ heap st !! a = Some gv
             /\ prometheus.children gv !! lvs = Some v
             /\ m = child_sample gv (lvs, v).
Proof.
  intros Hr. unfold Gather. rewrite (Gather_run ch (registry st) st Hr). cbn [fst snd].
  split; [done|]. intros m. rewrite added_add_events, sent_Sent, list_elem_of_In, in_flat_map.
  split.
  - intros (c & Hc%list_elem_of_In & Hm%list_elem_of_In).
    destruct (Hr c Hc) as (a & -> & [gv Hg]). rewrite Hg in Hm.
    apply list_elem_of_fmap in Hm as ([lvs v] & -> & Hin%elem_of_map_to_list).
    by exists a, gv, lvs, v.
  - intros (a & gv & lvs & v & Hc & Hg & He & ->). exists (GaugeVecAt a).
    split; [by apply list_elem_of_In|]. apply list_elem_of_In. rewrite Hg.
    apply list_elem_of_fmap. exists (lvs, v). split; [done|]. by apply elem_of_map_to_list.
Qed.

(** In a process whose registered collectors are gauge vectors, as in the
    two timers, a scrape returns, and what it sends is what the store
    holds: one sample per registered vector and entry, with the vector's
    descriptor, the entry's label values and the entry's value. *)
Theorem scrape_exposes_the_store (ch : nat) (st : state W) :
  gauges_registered st ->
  (Gather ch st).1 = Returned tt
  /\ forall m : prometheus.Metric,
       m ∈ sent ch (added st (Gather ch st).2)
       <-> exists a gv,
             GaugeVecAt a ∈ registry st
             /\ heap st !! a = Some gv
             /\ prometheus.desc m = prometheus.gaugeDesc gv
             /\ prometheus.valType m = prometheus.GaugeValue
             /\ entry st a (prometheus.labelValues m) = Some (prometheus.val m).
Proof.
  intros Hr. destruct (Gather_sent ch st Hr) as [Hret Hsent]. split; [exact Hret|].
  intros m. rewrite Hsent. split.
  - intros (a & gv & lvs & v & Hc & Hg & He & ->). exists a, gv.
    unfold entry, entry_in. rewrite Hg. by repeat split.
  - intros (a & gv & Hc & Hg & Hd & Ht & He).
    exists a, gv, (prometheus.labelValues m), (prometheus.val m).
    unfold entry, entry_in in He. rewrite Hg in He. cbn in He.
    repeat split; try done. destruct m as [d vt v lvs]. cbn in *. unfold child_sample.
    cbn. by subst.
Qed.

Lemma grows_registered st st' : grows st st' -> gauges_registered st -> gauges_registered st'.
Proof.
  intros (Hr & Hlen & _) Hreg c Hc. rewrite Hr in Hc. destruct (Hreg c Hc) as (a & -> & Hs).
  exists a. split; [done|]. apply lookup_lt_is_Some. rewrite Hlen. by apply lookup_lt_is_Some.
Qed.

Lemma exposed_entry (gauges : gmap string nat) ch st k a loc fc v :
  gauges_ok (heap st) gauges -> gauges_registered st ->
  gauges !! k = Some a -> GaugeVecAt a ∈ registry st ->
  entry st a (labelsOf loc fc) = Some v ->
  sample (weatherDesc k) loc fc v ∈ sent ch (added st (Gather ch st).2).
Proof.
  intros Hok Hreg Hk Ha He. apply (proj2 (Gather_sent ch st Hreg)).
  destruct (gauges_ok_labels _ _ _ _ Hok Hk) as (gv & Hg & _).
  exists a, gv, (labelsOf loc fc), v. split; [done|]. split; [done|].
  pose proof (Hok k a Hk) as Hd. rewrite Hg in Hd. injection Hd as Hd.
  unfold entry, entry_in in He. rewrite Hg in He. cbn in He.
  split; [done|]. unfold child_sample, sample. cbn. by rewrite Hd.
Qed.

End Exposition.

(** ** The coordinates, printed and read back *)

Section Coordinates.

Ltac digit_code :=
  repeat match goal with
         | |- context [nat_of_ascii ?c] =>
             let v := eval vm_compute in (nat_of_ascii c) in
             change (nat_of_ascii c) with v
         end.

Lemma digits_value_acc (d : Decimal.uint) (p : positive) :
  digits_value (NilEmpty.string_of_uint d) (Z.pos p) = Z.pos (Pos.of_uint_acc d p).
Proof.
  revert p. induction d; intros p; cbn [NilEmpty.string_of_uint digits_value Pos.of_uint_acc];
    [reflexivity|..];
    match goal with
    | |- digits_value _ ?a = Z.pos (Pos.of_uint_acc _ ?q) =>
        replace a with (Z.pos q) by (digit_code; lia)
    end; apply IHd.
Qed.

Lemma digits_value_of_uint (d : Decimal.uint) :
  digits_value (NilEmpty.string_of_uint d) 0 = Z.of_N (Pos.of_uint d).
Proof.
  induction d; cbn [NilEmpty.string_of_uint digits_value Pos.of_uint];
    [reflexivity|exact IHd|..];
    match goal with
    | |- digits_value _ ?a = Z.of_N (N.pos (Pos.of_uint_acc _ ?q)) =>
        replace a with (Z.pos q) by (digit_code; lia)
    end; apply digits_value_acc.
Qed.

Lemma digits_value_decimal (n : Z) : 0 <= n -> digits_value (decimal n) 0 = n.
Proof.
  intros Hn. unfold decimal. rewrite digits_value_of_uint.
  destruct (Z.to_N n) as [|p] eqn:E; cbn [N.to_uint]; [cbn; lia|].
  rewrite DecimalPos.Unsigned.of_to. lia.
Qed.

Lemma digit_value (n : Z) : Z.of_nat (nat_of_ascii (digit n)) - 48 = n mod 10.
Proof.
  unfold digit.
  assert (Hd : 0 <= n mod 10 < 10) by (apply Z.mod_pos_bound; lia).
  rewrite nat_ascii_embedding by lia. lia.
Qed.

Lemma digits_value_six_digits (n : Z) :
  0 <= n < 10 ^ 6 -> digits_value (six_digits n) 0 = n.
Proof.
  intros Hn. unfold six_digits. cbn [digits_value]. rewrite !digit_value.
  change (10 ^ 6) with 1000000 in Hn. Z.div_mod_to_equations. lia.
Qed.

Lemma round_half_even_nearest (num den : Z) :
  0 <= num -> 0 < den ->
  0 <= round_half_even num den
  /\ Z.abs (2 * (round_half_even num den * den - num)) <= den.
Proof.
  intros Hnum Hden. unfold round_half_even.
  pose proof (Z.div_mod num den ltac:(lia)) as Hdm.
  pose proof (Z.mod_pos_bound num den Hden) as Hr.
  pose proof (Z.div_pos num den Hnum Hden) as Hq.
  set (q := num / den) in *. set (r := num mod den) in *.
  destruct (2 * r <? den) eqn:E1; [apply Z.ltb_lt in E1; split; [lia|nia]|].
  apply Z.ltb_ge in E1.
  destruct (den <? 2 * r) eqn:E2; [apply Z.ltb_lt in E2; split; [lia|nia]|].
  apply Z.ltb_ge in E2. destruct (Z.even q); split; try lia; nia.
Qed.

Lemma micros_nearest (m : positive) (e : Z) :
  0 <= micros m e
  /\ if 0 <=? e then micros m e = Z.pos m * 2 ^ e * 10 ^ 6
     else Z.abs (2 * (micros m e * 2 ^ (- e) - Z.pos m * 10 ^ 6)) <= 2 ^ (- e).
Proof.
  unfold micros. destruct (0 <=? e) eqn:E.
  - apply Z.leb_le in E. split; [|reflexivity].
    assert (0 < 2 ^ e) by (apply Z.pow_pos_nonneg; lia). nia.
  - apply Z.leb_gt in E. apply round_half_even_nearest; [lia|].
    apply Z.pow_pos_nonneg; lia.
Qed.

Lemma read_fixed6_fixed6 (neg : bool) (u : Z) :
  0 <= u -> read_fixed6 (fixed6 neg u) = Some (neg, u).
Proof.
  intros Hu. unfold read_fixed6. rewrite six_fractional_digits_fixed6.
  destruct (decimal_digits (u / 10 ^ 6)) as [Hd Hne].
  assert (Hq : 0 <= u / 10 ^ 6) by (apply Z.div_pos; lia).
  assert (Hr : 0 <= u mod 10 ^ 6 < 10 ^ 6) by (apply Z.mod_pos_bound; lia).
  assert (Hval : digits_value (decimal (u / 10 ^ 6)) 0 * 10 ^ 6
                 + digits_value (six_digits (u mod 10 ^ 6)) 0 = u).
  { rewrite digits_value_decimal, digits_value_six_digits by done.
    pose proof (Z.div_mod u (10 ^ 6) ltac:(lia)). lia. }
  unfold fixed6. destruct neg.
  - change (strip_minus ("-" +:+ ?s)) with s.
    rewrite (span_digits_point _ _ Hd).
    change ("." +:+ ?fp) with (String "."%char fp). cbv iota beta.
    by rewrite Hval.
  - change ("" +:+ ?s) with s.
    destruct (decimal (u / 10 ^ 6)) as [|c ip] eqn:E; [done|].
    pose proof Hd as Hd'. cbn [all_digits] in Hd'. apply andb_prop in Hd' as [Hc Hip].
    change (String c ip +:+ ?s) with (String c (ip +:+ s)).
    rewrite (strip_minus_digit c _ Hc).
    change (String c (ip +:+ ?s)) with (String c ip +:+ s).
    rewrite (span_digits_point _ _ Hd).
    change ("." +:+ ?fp) with (String "."%char fp). cbv iota beta.
    rewrite Hval. f_equal. f_equal.
    destruct c as [[] [] [] [] [] [] [] []]; try reflexivity; discriminate.
Qed.

(** [LatString] and [LngString] print a finite coordinate so that it can
    be read back: as a decimal string with six fractional digits, with a
    minus sign exactly when the sign bit is set, which writes the
    coordinate rounded to the nearest millionth of a degree.  So the
    forecast is asked for at a point within half a millionth of a degree,
    in each coordinate, of the one the geocoder gave. *)
Theorem coordinates_print_to_the_nearest_millionth (l : Location) :
  (is_finite (Lat l) = true ->
   exists neg u, read_fixed6 (LatString l) = Some (neg, u)
                 /\ nearest_millionth (Lat l) neg u)
  /\ (is_finite (Lng l) = true ->
      exists neg u, read_fixed6 (LngString l) = Some (neg, u)
                    /\ nearest_millionth (Lng l) neg u).
Proof.
  assert (Hx : forall x, is_finite x = true ->
            exists neg u, read_fixed6 (Sprintf_f x) = Some (neg, u)
                          /\ nearest_millionth x neg u).
  { intros [s|s| |s m e] Hfin; try done.
    - exists s, 0. split; [by apply read_fixed6_fixed6|done].
    - destruct (micros_nearest m e) as [H0 Hnear].
      exists s, (micros m e). split; [by apply read_fixed6_fixed6|].
      cbn [nearest_millionth]. by repeat split. }
  split; apply Hx.
Qed.
End Coordinates.

Lemma coordinates_witness :
  let l := {| Name := "Dublin"; Lat := f_53_35; Lng := f_m6_26 |} in
  LatString l = "53.350000" /\ LngString l = "-6.260000"
  /\ read_fixed6 (LatString l) = Some (false, 53350000)
  /\ read_fixed6 (LngString l) = Some (true, 6260000)
  /\ nearest_millionth f_53_35 false 53350000
  /\ nearest_millionth f_m6_26 true 6260000.
Proof.
  intros l.
  destruct (coordinates_print_to_the_nearest_millionth l) as [Hlat Hlng].
  destruct (Hlat eq_refl) as (n1 & u1 & R1 & N1).
  destruct (Hlng eq_refl) as (n2 & u2 & R2 & N2).
  assert (E1 : read_fixed6 (LatString l) = Some (false, 53350000))
    by (vm_compute; reflexivity).
  assert (E2 : read_fixed6 (LngString l) = Some (true, 6260000))
    by (vm_compute; reflexivity).
  rewrite E1 in R1. injection R1 as <- <-. rewrite E2 in R2. injection R2 as <- <-.
  split; [vm_compute; reflexivity|]. split; [vm_compute; reflexivity|].
  split; [exact E1|]. split; [exact E2|]. split; [exact N1|exact N2].
Defined.

(** ** Runs that do not end *)

Section KeepsGoing.
Context {W : Type} `{Env W}.
Implicit Types st : state W.

Hypothesis named : components_named.

Lemma getLocation_returns apikey loc st :
  exists r, (getLocation apikey loc st).1 = Returned r.
Proof.
  destruct (maps_NewClient apikey) as [client|err] eqn:Hc.
  - rewrite (getLocation_run _ _ _ _ Hc). cbn [fst].
    pose proof (named client {| maps.Address := loc |} (world st)) as Hn.
    destruct (maps_Geocode client _ (world st)).1 as [[|r0 rs]|e]; eauto.
    destruct (maps.AddressComponents r0); [done|eauto].
  - rewrite (getLocation_no_client _ _ _ _ Hc). eauto.
Qed.

Lemma getWeather_returns k1 k2 loc st :
  (exists r, (getWeather k1 k2 loc st).1 = Returned r)
  /\ (exists r, (Collector.getWeather k1 k2 loc st).1 = Returned r).
Proof.
  destruct (getLocation_returns k1 loc st) as [r Hr].
  unfold getWeather, Collector.getWeather, bind.
  destruct (getLocation k1 loc st) as [o s1]. cbn [fst] in Hr. subst o.
  destruct r as [l|err]; [|split; eauto].
  rewrite Get_run. cbn [fst snd].
  destruct (forecast_Get _ _ _ _ _ _ _).1 as [fc|err]; [|split; eauto].
  unfold log_Printf, emit. destruct (negb _); split; eauto.
Qed.

Lemma timer_turn_returns config gauges loc st :
  gauges_ok (heap st) gauges ->
  (Timer.update_location config gauges loc st).1 = Returned tt
  /\ gauges_ok (heap (Timer.update_location config gauges loc st).2) gauges.
Proof.
  intros Hok.
  destruct (proj1 (getWeather_returns (Timer.GoogleMapsAPIKey config)
                     (Timer.DarkskyAPIKey config) loc
                     (add_event (Printed "Getting weather for %s\n" [AString loc]) st)))
    as [r Hr].
  destruct (getWeather _ _ _ _) as [o s1] eqn:Ew. cbn [fst] in Hr. subst o.
  destruct r as [fc|err].
  - destruct (timer_update_entries config gauges loc fc st s1 Hok Ew)
      as (s2 & -> & Hok' & _). done.
  - rewrite (update_location_Err _ _ _ _ _ _ Ew). cbn [fst snd heap add_event].
    split; [done|].
    destruct (getWeather_quiet same_store _ _ _ _ _ _ Ew) as [Hh _].
    cbn [heap add_event] in Hh. by rewrite Hh.
Qed.

Lemma maingo_turn_returns config t a loc st :
  gauges_ok (heap st) (two_gauges t a) ->
  (MainGo.update_location config t a loc st).1 = Returned tt
  /\ gauges_ok (heap (MainGo.update_location config t a loc st).2) (two_gauges t a).
Proof.
  intros Hok.
  destruct (proj1 (getWeather_returns (MainGo.GoogleMapsAPIKey config)
                     (MainGo.DarkskyAPIKey config) loc
                     (add_event (Printed "Getting weather for %s\n" [AString loc]) st)))
    as [r Hr].
  destruct (getWeather _ _ _ _) as [o s1] eqn:Ew. cbn [fst] in Hr. subst o.
  destruct r as [fc|err].
  - destruct (maingo_update_entries config t a loc fc st s1 Hok Ew)
      as (s2 & -> & Hok' & _). done.
  - rewrite (MainGo_update_location_Err _ _ _ _ _ _ _ Ew). cbn [fst snd heap add_event].
    split; [done|].
    destruct (getWeather_quiet same_store _ _ _ _ _ _ Ew) as [Hh _].
    cbn [heap add_event] in Hh. by rewrite Hh.
Qed.

Lemma collector_turn_returns wc metrics ch loc st :
  descs wc = Collector.getDescs metrics ->
  (Collector.collect_location wc ch loc st).1 = Returned tt.
Proof.
  intros Hd.
  destruct (proj2 (getWeather_returns (gmapsAPIKey wc) (darkskyAPIKey wc) loc
                     (add_event (Printed "Getting weather for %s\n" [AString loc]) st)))
    as [r Hr].
  destruct (Collector.getWeather _ _ _ _) as [o s1] eqn:Ew. cbn [fst] in Hr. subst o.
  destruct r as [fc|err].
  - rewrite (collect_location_Ok wc ch loc st fc s1); [done| |done].
    rewrite Hd. apply getDescs_sound.
  - by rewrite (collect_location_Err _ _ _ _ _ _ Ew).
Qed.

Lemma pass_returns (P : state W -> Prop) (body : string -> M W unit) (locs : list string) :
  (forall loc st, P st -> (body loc st).1 = Returned tt /\ P (body loc st).2) ->
  forall st, P st -> (for_range locs body st).1 = Returned tt /\ P (for_range locs body st).2.
Proof.
  intros Hbody. induction locs as [|loc locs IH]; intros st HP; [done|].
  cbn [for_range]. unfold bind. destruct (Hbody loc st HP) as [Hr HP'].
  destruct (body loc st) as [o s1]. cbn [fst snd] in Hr, HP'. subst o. by apply IH.
Qed.

Lemma cycles_return (P : state W -> Prop) (body : string -> M W unit)
    (locs : list string) (d : Z) (cs : nat -> M W unit) :
  (forall loc st, P st -> (body loc st).1 = Returned tt /\ P (body loc st).2) ->
  (forall e st, chatter e = true -> P st -> P (add_event e st)) ->
  (forall st, cs O st = (Returned tt, st)) ->
  (forall n st,
      cs (S n) st
      = bind (log_Printf "Fetching weather..." [] ;;;
              for_range locs body ;;;
              log_Printf "Sleeping %s..." [ADuration d] ;;;
              time_Sleep d) (fun _ => cs n) st) ->
  forall n st, P st -> (cs n st).1 = Returned tt /\ P (cs n st).2.
Proof.
  intros Hbody Hev H0 HS. induction n as [|n IH]; intros st HP; [by rewrite H0|].
  rewrite HS.
  destruct (pass_returns P body locs Hbody
              (add_event (Logged "Fetching weather..." []) st)) as [Hr HP'];
    [by apply Hev|].
  destruct (for_range locs body (add_event (Logged "Fetching weather..." []) st))
    as [o s1] eqn:Ep.
  cbn [fst snd] in Hr, HP'. subst o.
  assert (E : bind (log_Printf "Fetching weather..." [] ;;;
                    for_range locs body ;;;
                    log_Printf "Sleeping %s..." [ADuration d] ;;;
                    time_Sleep d) (fun _ => cs n) st
              = cs n (add_event (Slept d)
                        (add_event (Logged "Sleeping %s..." [ADuration d]) s1))).
  { unfold bind at 1. rewrite run_log_Printf, (bind_Returned _ _ _ _ _ Ep), run_log_Printf.
    reflexivity. }
  rewrite E. apply IH. apply Hev; [done|]. by apply Hev.
Qed.

End KeepsGoing.

Lemma scripted_components_named : components_named (H := scripted scenarioA).
Proof.
  intros client r w. cbn. unfold knows_dublin.
  destruct (_ || _); [|done]. cbn. done.
Qed.


(** ** The properties of the whole programs, on the scripted worlds *)

(** Two cycles of the timer over two locations, one of which the geocoder
    does not know. *)
Lemma timers_geocode_witness :
  let config := timerConfig ["Dublin"; "Napoli"] ["temperature"] in
  let gauges := (timer_gauges scenarioA config).1 in
  let st := (timer_gauges scenarioA config).2 in
  let r := Timer.cycles (H := scripted scenarioA) 2 defaultFlags config gauges st in
  r.1 = Returned tt
  /\ geocoded (added st r.2) = ["Dublin"; "Napoli"; "Dublin"; "Napoli"]
  /\ slept (added st r.2) = [3600000000000; 3600000000000]
  /\ length (forecast_requests (added st r.2)) = 2%nat.
Proof.
  intros config gauges st r.
  assert (Hret : r.1 = Returned tt) by (vm_compute; reflexivity).
  destruct (proj1 (timers_geocode_every_location_every_cycle (H := scripted scenarioA))
              defaultFlags config gauges {| maps.APIKey := "gmaps-key" |} 2%nat st eq_refl)
    as (_ & _ & _ & Hall).
  destruct (Hall Hret) as [Hg Hs].
  split; [exact Hret|]. split; [exact Hg|]. split; [exact Hs|]. vm_compute. reflexivity.
Defined.

Lemma Collect_geocodes_witness :
  let wc := demoCollector (H := scripted scenarioA) ["Dublin"; "Napoli"] ["temperature"] in
  let r := Collector.Collect (H := scripted scenarioA) wc 1 (start 0) in
  r.1 = Returned tt /\ geocoded (added (start 0) r.2) = ["Dublin"; "Napoli"].
Proof.
  intros wc r.
  assert (Hret : r.1 = Returned tt) by (vm_compute; reflexivity).
  destruct (proj1 (Collect_geocodes_every_location (H := scripted scenarioA) wc 1%nat
                     {| maps.APIKey := "gmaps-key" |} (start 0) eq_refl))
    as (_ & _ & Hall).
  split; [exact Hret|]. exact (Hall Hret).
Defined.



Lemma collector_main_serving_witness :
  let r := Collector.main (H := scripted scenarioA)
             (H0 := parsed (collectorConfig ["Dublin"; "Napoli"] ["temperature"]))
             defaultFlags (start 0) in
  r.1 = Returned tt
  /\ heap r.2 = []
  /\ registry r.2
     = [Weather (demoCollector (H := scripted scenarioA) ["Dublin"; "Napoli"] ["temperature"])]
  /\ geocoded (added (start 0) r.2) = ["Dublin"; "Napoli"].
Proof.
  intros r.
  assert (Hret : r = (Returned tt, r.2)) by (vm_compute; reflexivity).
  destruct (collector_main_serving (H := scripted scenarioA)
              (H0 := parsed (collectorConfig ["Dublin"; "Napoli"] ["temperature"]))
              defaultFlags (start 0) r.2 Hret)
    as (config & st1 & evs & Hload & _ & _ & Hh & Hr & Ht & _ & Hg).
  injection Hload as <- _.
  split; [by rewrite Hret|]. split; [exact Hh|]. split; [exact Hr|].
  specialize (Hg {| maps.APIKey := "gmaps-key" |} eq_refl).
  unfold geocoded in *. rewrite Ht. cbn [omap list_omap app]. rewrite omap_app, Hg.
  reflexivity.
Defined.

Lemma nameless_panics_witness :
  let config := timerConfig ["Dublin"; "Napoli"] ["temperature"] in
  let gauges := (timer_gauges knows_nameless config).1 in
  let st := (timer_gauges knows_nameless config).2 in
  let r := Timer.cycles (H := scripted knows_nameless) 3 defaultFlags config gauges st in
  r.1 = Panicked "runtime error: index out of range [0] with length 0"
  /\ heap r.2 = heap st
  /\ added st r.2
     = [Logged "Fetching weather..." [];
        Printed "Getting weather for %s\n" [AString "Dublin"];
        GeocodeRequest "gmaps-key" "Dublin"].
Proof.
  intros config gauges st r.
  exact (proj1 (nameless_geocoding_result_panics (H := scripted knows_nameless)
                  "gmaps-key" "darksky-key" "Dublin" ["Napoli"]
                  {| maps.APIKey := "gmaps-key" |} nameless [] st eq_refl eq_refl eq_refl)
               defaultFlags 2%nat gauges config eq_refl eq_refl).
Defined.

Lemma two_timers_witness :
  let config2 := timerConfig ["Dublin"] ["temperature"; "apparent_temperature"] in
  let config1 := maingoConfig ["Dublin"] in
  let st := (timer_gauges scenarioA config2).2 in
  let r2 := Timer.update_location (H := scripted scenarioA) config2 (two_gauges 0 1)
              "Dublin" st in
  let r1 := MainGo.update_location (H := scripted scenarioA) config1 0 1 "Dublin" st in
  (timer_gauges scenarioA config2).1 = two_gauges 0 1
  /\ r2.1 = r1.1 /\ heap r2.2 = heap r1.2 /\ registry r2.2 = registry r1.2
  /\ trace r2.2 = trace r1.2
  /\ entry r1.2 0 ["Dublin"; "53.350000"; "-6.260000"] = Some f_12_3.
Proof.
  intros config2 config1 st r2 r1.
  destruct (timer_with_two_metrics_is_maingo (H := scripted scenarioA)) as [Hstart Hturn].
  assert (Hg : (timer_gauges scenarioA config2).1 = two_gauges 0 1).
  { exact (proj1 (Hstart (parsed config2) (start 0) (timer_gauges scenarioA config2).2
                    (timer_gauges scenarioA config2).1 ltac:(vm_compute; reflexivity))). }
  split; [exact Hg|].
  pose proof (timer_gauges_ok scenarioA config2) as Hok. rewrite Hg in Hok.
  destruct (Hturn config2 config1 0%nat 1%nat "Dublin" st Hok eq_refl eq_refl)
    as (H1 & H2 & H3 & H4).
  split; [exact H1|]. split; [exact H2|]. split; [exact H3|]. split; [exact H4|].
  vm_compute. reflexivity.
Defined.

Lemma one_sample_witness :
  let wc := demoCollector (H := scripted scenarioA) ["Dublin"]
              ["temperature"; "bogus_field"; "temperature"] in
  let r := Collector.collect_location (H := scripted scenarioA) wc 1 "Dublin" (start 0) in
  Collector.getDescs (H := scripted scenarioA) ["temperature"; "bogus_field"; "temperature"]
  = Collector.getDescs (H := scripted scenarioA) ["bogus_field"; "temperature"]
  /\ sent 1 (added (start 0) r.2) = [sampleA "Dublin" "53.350000"].
Proof.
  intros wc r.
  destruct (one_sample_per_distinct_metric (H := scripted scenarioA)) as [Hsame Hone].
  split.
  - apply Hsame. intros k. rewrite !elem_of_cons, !elem_of_nil. tauto.
  - destruct (Hone wc ["temperature"; "bogus_field"; "temperature"] 1%nat "Dublin"
                (reading f_53_35 f_m6_26 f_12_3 "si") (start 0)
                (Collector.getWeather (H := scripted scenarioA) "gmaps-key" "darksky-key"
                   "Dublin"
                   (add_event (Printed "Getting weather for %s\n" [AString "Dublin"])
                      (start 0))).2
                eq_refl ltac:(vm_compute; reflexivity))
      as (st' & Hrun & Hperm & _).
    subst r. rewrite Hrun. cbn [snd].
    apply Permutation_singleton_r. rewrite Hperm. vm_compute. reflexivity.
Defined.

Lemma Describe_witness :
  let wc := demoCollector (H := scripted scenarioA) ["Dublin"] ["temperature"; "bogus_field"] in
  let r := Collector.Describe (H := scripted scenarioA) wc (start 0) in
  r.1 = Returned [weatherDesc (H := scripted scenarioA) "temperature"]
  /\ heap r.2 = [] /\ registry r.2 = [].
Proof.
  intros wc r.
  assert (Hret : r = (Returned [weatherDesc (H := scripted scenarioA) "temperature"], r.2))
    by (vm_compute; reflexivity).
  destruct (Describe_hands_on_collected_descriptors (H := scripted scenarioA) wc
              ["temperature"; "bogus_field"] (start 0) r.2 _ eq_refl Hret)
    as (_ & _ & _ & Hh & Hr).
  split; [by rewrite Hret|]. split; [exact Hh|exact Hr].
Defined.

Lemma getWeather_error_witness :
  let r := getWeather (H := scripted forecast_down) "gmaps-key" "darksky-key" "Dublin"
             (start 0) in
  r.1 = Returned (Err (wrapError "forecast request failed: darksky: 403 Forbidden"
                         (errorString "darksky: 403 Forbidden")))
  /\ Unwrap (wrapError "forecast request failed: darksky: 403 Forbidden"
               (errorString "darksky: 403 Forbidden"))
     = Some (errorString "darksky: 403 Forbidden")
  /\ exists cause l st1,
       getLocation (H := scripted forecast_down) "gmaps-key" "Dublin" (start 0)
       = (Returned (Ok l), st1)
       /\ (forecast_Get (Env := scripted forecast_down) "darksky-key"
             (LatString l) (LngString l) "now" "si" "en" (world st1)).1 = Err cause.
Proof.
  intros r.
  assert (Hret : r = (Returned (Err (wrapError
                                       "forecast request failed: darksky: 403 Forbidden"
                                       (errorString "darksky: 403 Forbidden"))), r.2))
    by (vm_compute; reflexivity).
  split; [by rewrite Hret|]. split; [reflexivity|].
  destruct (getWeather_error_names_the_step (H := scripted forecast_down)
              "gmaps-key" "darksky-key" "Dublin" (start 0) r.2 _ (or_introl Hret))
    as [(cause & [= ] & _)|[(cause & l & st1 & _ & Hl & Hf)|(fc & [= ] & _)]].
  exists cause, l, st1. split; [exact Hl|exact Hf].
Defined.

Lemma scrape_exposes_witness :
  let st := timer_after scenarioA (timerConfig ["Dublin"] ["temperature"]) 1 in
  gauges_registered st
  /\ (Gather (H := scripted scenarioA) 1 st).1 = Returned tt
  /\ sampleA "Dublin" "53.350000"
       ∈ sent 1 (added st (Gather (H := scripted scenarioA) 1 st).2).
Proof.
  intros st.
  assert (Hreg : gauges_registered st).
  { intros c Hc. assert (Hr : registry st = [GaugeVecAt 0]) by (vm_compute; reflexivity).
    rewrite Hr in Hc. apply list_elem_of_singleton in Hc as ->. exists 0%nat.
    split; [done|]. vm_compute. eauto. }
  destruct (scrape_exposes_the_store (H := scripted scenarioA) 1%nat st Hreg) as [Hret Hsent].
  split; [exact Hreg|]. split; [exact Hret|]. apply Hsent.
  eexists 0%nat, _. split; [vm_compute; left|]. split; [vm_compute; reflexivity|].
  repeat split; vm_compute; reflexivity.
Defined.

